(** * URL transformation engine and auto-processing gate

    A shallow embedding of [src/url-transformer/url-transformer.ts]
    (class [UrlTransformer]) and of [autoProcessFileIfLonger] from
    [src/parse-metadata-link.ts], with the properties of the routing,
    caching and decision logic stated over it.

    Conventions of the embedding:
    - a JavaScript string is a [string]; one character stands for one
      code unit;
    - [null] and an absent optional field are [None];
    - an exception is a [Throw] completion, [try]/[catch] is [tryCatch];
    - [async] methods run in the [Async] state monad; for the transformer
      the state is a [World] that holds the transformer object, the
      clock read by [Date.now()] and the log of the HEAD requests that
      were sent; an [await] runs the awaited task to its end (the plugin
      awaits every task in sequence);
    - times, HTTP statuses and priorities are integers ([Z]): the clock
      counts milliseconds, and the settings tab stores priorities read
      by [parseInt] and whole minutes and seconds from its sliders;
    - [console.log], [console.warn] and [console.error] are not modelled. *)

From Stdlib Require Import ZArith QArith Bool List Ascii String Lia.
From stdpp Require Import base option gmap strings.

Local Open Scope string_scope.
Local Open Scope Z_scope.

(** Let [simpl] unfold the concatenation of strings on a constructor. *)
Local Arguments String.append !_ _ /.

(** ** Completions: normal results and thrown exceptions *)

Inductive JsError : Type :=
| TypeError (message : string)
| RequestError (message : string).

Inductive Completion (A : Type) : Type :=
| Normal (value : A)
| Throw (error : JsError).

Arguments Normal {A} value.
Arguments Throw {A} error.

Definition bindC {A B : Type} (c : Completion A) (k : A -> Completion B)
  : Completion B :=
  match c with
  | Normal v => k v
  | Throw e => Throw e
  end.

(** [try { body } catch (error) { handler }] *)
Definition tryCatch {A : Type} (body : Completion A)
    (handler : JsError -> Completion A) : Completion A :=
  match body with
  | Normal v => Normal v
  | Throw e => handler e
  end.

(** The value of a completion, [default] standing for a thrown one. *)
Definition completed {A : Type} (default : A) (c : Completion A) : A :=
  match c with
  | Normal v => v
  | Throw _ => default
  end.

Declare Scope completion_scope.
Delimit Scope completion_scope with completion.
Notation "'let!' x ':=' c 'in' k" :=
  (bindC c (fun x => k))
  (at level 10, x name, c at level 100, k at level 200)
  : completion_scope.

(** ** JavaScript string methods used by the transformer *)

Module JsString.

(** [s.startsWith(searchString)] *)
Definition startsWith (s searchString : string) : bool :=
  String.prefix searchString s.

(** [s.substring(start)] *)
Definition substringFrom (s : string) (start : nat) : string :=
  String.substring start (String.length s - start) s.

(** [s.substring(0, end)] *)
Definition substringTo (s : string) (finish : nat) : string :=
  String.substring 0 (Nat.min finish (String.length s)) s.

(** [s.substring(start, end)]: both indices are clamped to the length
    and swapped when [start] exceeds [end]. *)
Definition substring (s : string) (start finish : nat) : string :=
  let a := Nat.min start (String.length s) in
  let b := Nat.min finish (String.length s) in
  String.substring (Nat.min a b) (Nat.max a b - Nat.min a b) s.

(** [s.endsWith(searchString)]: the last [searchString.length] code
    units of [s] are compared with [searchString]. *)
Definition endsWith (s searchString : string) : bool :=
  let len := String.length s in
  let searchLength := String.length searchString in
  if (searchLength <=? len)%nat
  then String.eqb (substringFrom s (len - searchLength)) searchString
  else false.

(** [s.indexOf(searchString)]: position of the first occurrence. *)
Fixpoint indexOf (s searchString : string) : option nat :=
  if String.prefix searchString s then Some 0%nat
  else match s with
       | EmptyString => None
       | String _ rest => option_map S (indexOf rest searchString)
       end.

(** [GetSubstitution] of ECMAScript for a string pattern, which has no
    capture groups: in the replacement text [$$] stands for a dollar
    sign, [$&] for the matched text, [$`] for the text before the match
    and [$'] for the text after it; every other character, also a
    dollar sign followed by a digit or by [<], is copied. *)
Fixpoint getSubstitution (matched str : string) (position : nat)
    (replacementTemplate : string) : string :=
  match replacementTemplate with
  | EmptyString => EmptyString
  | String c remainder =>
      if Ascii.eqb c "$" then
        match remainder with
        | EmptyString => String c EmptyString
        | String d rest =>
            if Ascii.eqb d "$" then
              String "$" (getSubstitution matched str position rest)
            else if Ascii.eqb d "`" then
              substringTo str position
              ++ getSubstitution matched str position rest
            else if Ascii.eqb d "&" then
              matched ++ getSubstitution matched str position rest
            else if Ascii.eqb d "'" then
              substringFrom str
                (Nat.min (position + String.length matched)
                         (String.length str))
              ++ getSubstitution matched str position rest
            else
              String c (getSubstitution matched str position remainder)
        end
      else String c (getSubstitution matched str position remainder)
  end.

(** [s.replace(searchString, replaceValue)] with two strings: only the
    first occurrence is replaced, and [replaceValue] is a replacement
    template expanded by [getSubstitution]. *)
Definition replace (s searchString replaceValue : string) : string :=
  match indexOf s searchString with
  | None => s
  | Some position =>
      let preserved := substringTo s position in
      let replacement :=
        getSubstitution searchString s position replaceValue in
      preserved ++ replacement
      ++ substringFrom s (position + String.length searchString)
  end.

(** Whether a replacement text holds no dollar sign. *)
Fixpoint dollarFree (s : string) : bool :=
  match s with
  | EmptyString => true
  | String c rest => negb (Ascii.eqb c "$") && dollarFree rest
  end.

(** [s.includes(searchString)] *)
Definition includes (s searchString : string) : bool :=
  match indexOf s searchString with
  | Some _ => true
  | None => false
  end.

End JsString.

(** ** Data model ([transformation-types.ts]) *)

(** ["prefix" | "path-extraction"] *)
Inductive TransformationType : Type :=
| Prefix
| PathExtraction.

Record TransformationRule : Type := {
  id : string;
  name : string;
  enabled : bool;
  matchers : list string;
  transformationType : TransformationType;
  template : string;
  priority : Z
}.

Record TransformationResult : Type := {
  transformedUrl : option string;
  originalUrl : string;
  appliedRule : option string;
  proxyHealthy : bool;
  error : option string
}.

Record ProxyHealthEntry : Type := {
  healthy : bool;
  lastChecked : Z
}.

(** The fields of a parsed [URL] object that the transformer reads. *)
Record URL : Type := {
  protocol : string;
  hostname : string;
  pathname : string;
  search : string;
  hash : string
}.

(** The fields of the [UrlTransformer] object.  [ProxyHealthCache] is a
    plain object used as a map from proxy origin to entry; a key that
    names nothing but an inherited property reads as a value without
    [lastChecked], for which the age test of [isCacheValid] is false, as
    it is for a missing key. *)
Record UrlTransformer : Type := {
  healthCache : gmap string ProxyHealthEntry;
  cacheTtlMs : Z;
  timeoutMs : Z
}.

(** [constructor(cacheTtlMinutes = 5, timeoutMs = 5000)] *)
Definition newUrlTransformer (cacheTtlMinutes timeout : Z) : UrlTransformer :=
  {| healthCache := ∅;
     cacheTtlMs := cacheTtlMinutes * 60 * 1000;
     timeoutMs := timeout |}.

(** What the transformer can observe of its host: the transformer object
    itself, the clock, the HEAD requests sent so far (latest first) and
    the requests whose abort timer has fired (latest first). *)
Record World : Type := {
  this : UrlTransformer;
  now : Z;
  sent : list string;
  aborted : list string
}.

(** The settled promise of one [requestUrl] call: the response status or
    the rejection, and the clock reading when it settles. *)
Record Settled : Type := {
  outcome : Completion Z;
  settledAt : Z
}.

(** ** Array methods with a callback that may throw *)

Fixpoint Array_some {A : Type} (f : A -> Completion bool) (l : list A)
  : Completion bool :=
  match l with
  | [] => Normal false
  | x :: rest =>
      bindC (f x) (fun b => if b then Normal true else Array_some f rest)
  end.

Fixpoint Array_filter {A : Type} (f : A -> Completion bool) (l : list A)
  : Completion (list A) :=
  match l with
  | [] => Normal []
  | x :: rest =>
      bindC (f x) (fun b =>
      bindC (Array_filter f rest) (fun kept =>
      Normal (if b then x :: kept else kept)))
  end.

(** [Array.prototype.sort(compareFn)] is a stable sort (ECMAScript 2019):
    elements that compare equal keep their order.  It is embedded as the
    stable insertion sort; [insertSorted x l] puts [x] in front of the
    first element that [x] does not have to follow. *)
Fixpoint insertSorted {A : Type} (compareFn : A -> A -> Z) (x : A)
    (l : list A) : list A :=
  match l with
  | [] => [x]
  | y :: rest =>
      if compareFn x y <=? 0 then x :: y :: rest
      else y :: insertSorted compareFn x rest
  end.

Definition Array_sort {A : Type} (compareFn : A -> A -> Z) (l : list A)
  : list A :=
  fold_right (insertSorted compareFn) [] l.

(** ** The [Async] monad: state passing with exceptions *)

Definition Async (S A : Type) : Type := S -> Completion A * S.

Definition retA {S A : Type} (v : A) : Async S A := fun s => (Normal v, s).

Definition bindA {S A B : Type} (m : Async S A) (k : A -> Async S B)
  : Async S B :=
  fun s =>
    match m s with
    | (Normal v, s') => k v s'
    | (Throw e, s') => (Throw e, s')
    end.

(** A synchronous computation used inside an [async] method. *)
Definition liftC {S A : Type} (c : Completion A) : Async S A :=
  fun s => (c, s).

(** [try { body } catch (error) { handler }] around awaited code. *)
Definition tryCatchA {S A : Type} (body : Async S A)
    (handler : JsError -> Async S A) : Async S A :=
  fun s =>
    match body s with
    | (Normal v, s') => (Normal v, s')
    | (Throw e, s') => handler e s'
    end.

Declare Scope async_scope.
Delimit Scope async_scope with async.
Notation "'do!' x ':=' c 'in' k" :=
  (bindA c (fun x => k))
  (at level 10, x name, c at level 100, k at level 200)
  : async_scope.

(** [Date.now()] *)
Definition Date_now : Async World Z := fun w => (Normal (now w), w).

(** [this.healthCache[key]] *)
Definition readCache (key : string) : Async World (option ProxyHealthEntry) :=
  fun w => (Normal (healthCache (this w) !! key), w).

(** [this.healthCache[key] = entry] *)
Definition writeCache (key : string) (entry : ProxyHealthEntry)
  : Async World unit :=
  fun w =>
    (Normal tt,
     {| this := {| healthCache := <[key := entry]> (healthCache (this w));
                   cacheTtlMs := cacheTtlMs (this w);
                   timeoutMs := timeoutMs (this w) |};
        now := now w; sent := sent w; aborted := aborted w |}).

(** ** A parser for plain URLs

    [new URL(url)] belongs to the host, so the transformer is embedded
    over an arbitrary parser.  To run the embedding on concrete inputs,
    [parseSimpleURL] reads URLs of the plain form
    [scheme://host/path?query#fragment] (no user info, no port, no
    characters that the URL standard would re-encode), on which it
    returns the fields a browser returns. *)

Fixpoint splitAtFirst (stop : ascii -> bool) (s : string) : string * string :=
  match s with
  | EmptyString => (EmptyString, EmptyString)
  | String c rest =>
      if stop c then (EmptyString, s)
      else let (before, after) := splitAtFirst stop rest in
           (String c before, after)
  end.

Definition parseSimpleURL (url : string) : Completion URL :=
  match JsString.indexOf url "://" with
  | None => Throw (TypeError "Invalid URL")
  | Some position =>
      let scheme := JsString.substringTo url position in
      let rest := JsString.substringFrom url (position + 3) in
      let (host, tail) :=
        splitAtFirst
          (fun c => Ascii.eqb c "/" || Ascii.eqb c "?" || Ascii.eqb c "#")
          rest in
      let (path, afterPath) :=
        splitAtFirst (fun c => Ascii.eqb c "?" || Ascii.eqb c "#") tail in
      let (query, fragment) :=
        splitAtFirst (fun c => Ascii.eqb c "#") afterPath in
      if String.eqb scheme EmptyString || String.eqb host EmptyString then
        Throw (TypeError "Invalid URL")
      else
        Normal {| protocol := scheme ++ ":";
                  hostname := host;
                  pathname := if String.eqb path EmptyString then "/" else path;
                  search := query;
                  hash := fragment |}
  end.

(** Two hosts for concrete runs: one whose proxies answer 200 after
    [delay] milliseconds, one whose requests are all rejected after
    [delay] milliseconds. *)
Definition respondAfter (status delay : Z) (w : World) (url : string)
  : Settled :=
  {| outcome := Normal status; settledAt := now w + delay |}.

Definition rejectAfter (delay : Z) (w : World) (url : string) : Settled :=
  {| outcome := Throw (RequestError "net::ERR_CONNECTION_REFUSED");
     settledAt := now w + delay |}.

Definition initialWorld (transformer : UrlTransformer) (clock : Z) : World :=
  {| this := transformer; now := clock; sent := []; aborted := [] |}.

(** ** The transformer ([url-transformer.ts]) *)

Definition TEST_URL : string := "https://example.com/test".

(** The one-character string holding a double quote. *)
Definition doubleQuote : string := String (ascii_of_nat 34) EmptyString.

Section UrlTransformerMethods.

(** [new URL(url)]: the parsed URL, or the [TypeError] it throws. *)
Variable newURL : string -> Completion URL.

(** [requestUrl({url, method: "HEAD"})] of the host: how the request
    made in a given world settles. *)
Variable requestUrl : World -> string -> Settled.

Local Open Scope completion_scope.

Definition matchesPattern (url pattern : string) : Completion bool :=
  tryCatch
    (let! urlObj := newURL url in
     let hostname := hostname urlObj in
     if String.eqb pattern "*" then Normal true
     else if JsString.startsWith pattern "*." then
       let domain := JsString.substringFrom pattern 2 in
       Normal (String.eqb hostname domain
               || JsString.endsWith hostname ("." ++ domain))
     else Normal (String.eqb hostname pattern))
    (fun error => Normal false).

Definition matchesRule (url : string) (rule : TransformationRule)
  : Completion bool :=
  if negb (enabled rule) then Normal false
  else Array_some (fun matcher => matchesPattern url matcher)
                  (matchers rule).

Definition findMatchingRule (url : string) (rules : list TransformationRule)
  : Completion (option TransformationRule) :=
  let! matchingRules :=
    Array_filter (fun rule => matchesRule url rule) rules in
  if (length matchingRules =? 0)%nat then Normal None
  else
    Normal (head (Array_sort (fun a b => priority b - priority a)
                             matchingRules)).

(** The [default] arm of the [switch] repeats the ["prefix"] arm; the
    type of [transformationType] leaves no value for it. *)
Definition applyTransformation (url : string) (rule : TransformationRule)
  : Completion string :=
  let template := template rule in
  match transformationType rule with
  | Prefix => Normal (JsString.replace template "{url}" url)
  | PathExtraction =>
      tryCatch
        (let! urlObj := newURL url in
         let path := pathname urlObj ++ search urlObj ++ hash urlObj in
         let domain := hostname urlObj in
         Normal (JsString.replace
                   (JsString.replace
                      (JsString.replace template "{url}" url)
                      "{path}" path)
                   "{domain}" domain))
        (fun error => Normal (JsString.replace template "{url}" url))
  end.

Definition extractProxyBaseUrl (transformedUrl : string)
  : Completion string :=
  tryCatch
    (let! urlObj := newURL transformedUrl in
     Normal (protocol urlObj ++ "//" ++ hostname urlObj))
    (fun error => Normal transformedUrl).

Local Open Scope async_scope.

Definition isCacheValid (proxyBaseUrl : string) : Async World bool :=
  do! cached := readCache proxyBaseUrl in
  match cached with
  | None => retA false
  | Some entry =>
      do! current := Date_now in
      fun w => (Normal (current - lastChecked entry <? cacheTtlMs (this w)), w)
  end.

(** The abort timer is armed for [this.timeoutMs] and the request is
    awaited.  The controller's signal is not handed to [requestUrl],
    so a timer that fires while the request is pending only marks the
    controller as aborted; the request settles as the host settles it.
    The timer counts as fired when the promise settles at or after the
    deadline. *)
Definition checkProxyHealthWithTimeout (url : string) : Async World bool :=
  fun w =>
    let deadline := now w + timeoutMs (this w) in
    let reply := requestUrl w url in
    let w' :=
      {| this := this w;
         now := settledAt reply;
         sent := url :: sent w;
         aborted := if deadline <=? settledAt reply
                    then url :: aborted w else aborted w |} in
    (tryCatch
       (let! response := outcome reply in
        Normal ((200 <=? response) && (response <? 400)))%completion
       (fun error => Normal false),
     w').

Definition checkProxyHealth (proxyBaseUrl : string)
    (rule : TransformationRule) : Async World bool :=
  do! valid := isCacheValid proxyBaseUrl in
  if valid then
    do! cached := readCache proxyBaseUrl in
    match cached with
    | Some entry => retA (healthy entry)
    | None => liftC (Throw (TypeError "Cannot read properties of undefined"))
    end
  else
    do! testTransformedUrl :=
      liftC (applyTransformation TEST_URL rule) in
    do! healthy1 := checkProxyHealthWithTimeout testTransformedUrl in
    do! healthy2 :=
      (if negb healthy1 then checkProxyHealthWithTimeout proxyBaseUrl
       else retA healthy1) in
    do! current := Date_now in
    do! _ := writeCache proxyBaseUrl
           {| healthy := healthy2; lastChecked := current |} in
    retA healthy2.

Definition transformUrl (url : string) (rules : list TransformationRule)
  : Async World TransformationResult :=
  do! matchingRule := liftC (findMatchingRule url rules) in
  match matchingRule with
  | None =>
      retA {| transformedUrl := Some url;
              originalUrl := url;
              appliedRule := None;
              proxyHealthy := true;
              error := None |}
  | Some matchingRule =>
      do! transformed := liftC (applyTransformation url matchingRule) in
      do! proxyBaseUrl := liftC (extractProxyBaseUrl transformed) in
      do! isHealthy := checkProxyHealth proxyBaseUrl matchingRule in
      if negb isHealthy then
        retA {| transformedUrl := None;
                originalUrl := url;
                appliedRule := Some (name matchingRule);
                proxyHealthy := false;
                error := Some ("Proxy service " ++ doubleQuote
                               ++ name matchingRule ++ doubleQuote
                               ++ " is currently unavailable") |}
      else
        retA {| transformedUrl := Some transformed;
                originalUrl := url;
                appliedRule := Some (name matchingRule);
                proxyHealthy := true;
                error := None |}
  end.

(** [clearCache()] *)
Definition clearCache : Async World unit :=
  fun w =>
    (Normal tt,
     {| this := {| healthCache := ∅;
                   cacheTtlMs := cacheTtlMs (this w);
                   timeoutMs := timeoutMs (this w) |};
        now := now w; sent := sent w; aborted := aborted w |}).

End UrlTransformerMethods.

(** A rule is applicable to a URL when [matchesRule] answers [true]. *)
Definition applicable (newURL : string -> Completion URL) (url : string)
    (rule : TransformationRule) : bool :=
  completed false (matchesRule newURL url rule).

(** ** Auto-processing ([parse-metadata-link.ts]) *)

(** [getFrontMatterInfo(content)] of the host, as far as it is read. *)
Record FrontMatterInfo : Type := {
  fmExists : bool;
  fmFrom : nat;
  fmTo : nat
}.

(** The result object of [transformUrlIfNeeded]. *)
Module IfNeeded.
Record Result : Type := {
  url : option string;
  originalUrl : string;
  appliedRule : option string;
  error : option string
}.
End IfNeeded.

(** The state seen by [MetadataLinkParser]: the documents of the vault by
    path, the transformer it owns together with the transformer's host
    ([engine]), and the rules of [this.transformationConfig]
    ([None] while [setTransformationConfig] has not been called, which
    is also when [this.urlTransformer] is [null]). *)
Record ParserWorld : Type := {
  vault : gmap string string;
  engine : World;
  transformationRules : option (list TransformationRule)
}.

(** White space removed by [String.prototype.trim], among the code units
    below 256: tab, line feed, vertical tab, form feed, carriage return,
    space and no-break space. *)
Definition isWhiteSpace (c : ascii) : bool :=
  let code := nat_of_ascii c in
  ((9 <=? code) && (code <=? 13) || (code =? 32) || (code =? 160))%nat.

Fixpoint trimStart (s : string) : string :=
  match s with
  | EmptyString => EmptyString
  | String c rest => if isWhiteSpace c then trimStart rest else s
  end.

Fixpoint trimEnd (s : string) : string :=
  match s with
  | EmptyString => EmptyString
  | String c rest =>
      match trimEnd rest with
      | EmptyString =>
          if isWhiteSpace c then EmptyString else String c EmptyString
      | kept => String c kept
      end
  end.

Definition trim (s : string) : string := trimEnd (trimStart s).

(** Truthiness of a [string | null] value: [null] and the empty string
    are falsy. *)
Definition truthy (value : option string) : bool :=
  match value with
  | None => false
  | Some s => negb (String.eqb s EmptyString)
  end.

Definition newline : string := String (ascii_of_nat 10) EmptyString.

Section MetadataLinkParserMethods.

Variable newURL : string -> Completion URL.
Variable requestUrl : World -> string -> Settled.

(** Host functions: Obsidian's [getFrontMatterInfo]; [parseYaml]
    followed by the test [frontmatter?.article_processed === true];
    the content delegate [readItLaterApi.getMarkdownContent]. *)
Variable getFrontMatterInfo : string -> FrontMatterInfo.
Variable yamlArticleProcessed : string -> Completion bool.
Variable getMarkdownContent : string -> Completion (option string).

(** Methods of the class that only read or rewrite the YAML preamble,
    kept abstract: the two URL extractors, and the two preamble
    writers, each of which catches its own exceptions. *)
Variable extractUrlFromFrontmatter : string -> option string.
Variable extractUrlFromContent : string -> option string.
Variable updateFrontmatterWithProxyInfo :
  string -> string -> string -> string -> gmap string string ->
  gmap string string.
Variable markFileAsProcessed :
  string -> gmap string string -> gmap string string.

(** The quotient of two lengths as JavaScript computes it (the
    binary64 value of [fetchedLength / existingBodyLength]). *)
Variable numberDivide : nat -> nat -> Q.

Local Open Scope async_scope.

(** [this.app.vault.read(file)] *)
Definition vaultRead (file : string) : Async ParserWorld string :=
  fun pw =>
    match vault pw !! file with
    | Some content => (Normal content, pw)
    | None => (Throw (RequestError "ENOENT"), pw)
    end.

Definition setVault (documents : gmap string string) (pw : ParserWorld)
  : ParserWorld :=
  {| vault := documents; engine := engine pw;
     transformationRules := transformationRules pw |}.

(** [this.app.vault.append(file, data)] *)
Definition vaultAppend (file data : string) : Async ParserWorld unit :=
  fun pw =>
    match vault pw !! file with
    | Some content =>
        (Normal tt, setVault (<[file := content ++ data]> (vault pw)) pw)
    | None => (Throw (RequestError "ENOENT"), pw)
    end.

Definition isFileProcessed (file : string) : Async ParserWorld bool :=
  tryCatchA
    (do! content := vaultRead file in
     let frontMatterInfo := getFrontMatterInfo content in
     if negb (fmExists frontMatterInfo) then retA false
     else
       let frontmatterText :=
         JsString.substring content (fmFrom frontMatterInfo)
                            (fmTo frontMatterInfo) in
       liftC (yamlArticleProcessed frontmatterText))
    (fun error => retA false).

Definition getBodyContentLength (fileContent : string) : nat :=
  let frontMatterInfo := getFrontMatterInfo fileContent in
  if fmExists frontMatterInfo then
    String.length
      (trim (JsString.substringFrom fileContent (fmTo frontMatterInfo)))
  else String.length (trim fileContent).

Definition transformUrlIfNeeded (url : string)
  : Async ParserWorld IfNeeded.Result :=
  fun pw =>
    match transformationRules pw with
    | None =>
        (Normal {| IfNeeded.url := Some url;
                   IfNeeded.originalUrl := url;
                   IfNeeded.appliedRule := None;
                   IfNeeded.error := None |}, pw)
    | Some rules =>
        let (completion, w') :=
          transformUrl newURL requestUrl url rules (engine pw) in
        let pw' := {| vault := vault pw; engine := w';
                      transformationRules := transformationRules pw |} in
        match completion with
        | Normal result =>
            (Normal {| IfNeeded.url := transformedUrl result;
                       IfNeeded.originalUrl := originalUrl result;
                       IfNeeded.appliedRule := appliedRule result;
                       IfNeeded.error := error result |}, pw')
        | Throw e => (Throw e, pw')
        end
    end.

(** [let url = this.extractUrlFromFrontmatter(content);
    if (!url) url = this.extractUrlFromContent(content);] *)
Definition pickedUrl (content : string) : option string :=
  if truthy (extractUrlFromFrontmatter content)
  then extractUrlFromFrontmatter content
  else extractUrlFromContent content.

Definition separator : string :=
  newline ++ newline ++ "---" ++ newline ++ newline
  ++ "## Retrieved Article Content" ++ newline ++ newline.

(** [existingBodyLength > 0 ? fetchedLength / existingBodyLength
    : fetchedLength] *)
Definition contentRatio (existingBodyLength fetchedLength : nat) : Q :=
  if (0 <? existingBodyLength)%nat
  then numberDivide fetchedLength existingBodyLength
  else inject_Z (Z.of_nat fetchedLength).

Definition autoProcessFileIfLonger (file : string) (minContentRatio : Q)
  : Async ParserWorld bool :=
  tryCatchA
    (do! processed := isFileProcessed file in
     if processed then retA false
     else
       do! content := vaultRead file in
       let existingBodyLength := getBodyContentLength content in
       match pickedUrl content with
       | None => retA false
       | Some url =>
       if negb (truthy (Some url)) then retA false
       else
         do! transformResult := transformUrlIfNeeded url in
         match IfNeeded.url transformResult with
         | None => retA false
         | Some proxied =>
         if negb (truthy (Some proxied)) then retA false
         else
           do! articleMarkdown := liftC (getMarkdownContent proxied) in
           match articleMarkdown with
           | None => retA false
           | Some articleMarkdown =>
           if negb (truthy (Some articleMarkdown)) then retA false
           else
             let fetchedLength := String.length articleMarkdown in
             let ratio := contentRatio existingBodyLength fetchedLength in
             if Qle_bool minContentRatio ratio then
               do! _ :=
                 (match IfNeeded.appliedRule transformResult with
                  | Some rule =>
                      if truthy (Some rule) then
                        fun pw =>
                          (Normal tt,
                           setVault
                             (updateFrontmatterWithProxyInfo file
                                (IfNeeded.originalUrl transformResult)
                                proxied rule (vault pw)) pw)
                      else retA tt
                  | None => retA tt
                  end) in
               do! _ := vaultAppend file (separator ++ articleMarkdown) in
               do! _ := (fun pw =>
                           (Normal tt,
                            setVault (markFileAsProcessed file (vault pw))
                                     pw)) in
               retA true
             else retA false
           end
         end
       end)
    (fun error => retA false).

End MetadataLinkParserMethods.

(** The decision taken by [autoProcessFileIfLonger], as a function of the
    four values it depends on: the marker test at the head of the method
    and the ratio gate [ratio >= minContentRatio] before the writes.
    The gate lemmas below relate it to the method. *)
Definition shouldMerge (numberDivide : nat -> nat -> Q)
    (alreadyProcessed : bool) (existingBodyLength fetchedLength : nat)
    (minContentRatio : Q) : bool :=
  if alreadyProcessed then false
  else Qle_bool minContentRatio
         (contentRatio numberDivide existingBodyLength fetchedLength).

(** The recurring timer of the plugin calls the method again and again;
    [scheduledPasses] is the sequence of these calls for one document,
    each pass with its own threshold and its own answer of the content
    delegate. *)
Fixpoint scheduledPasses
    (newURL : string -> Completion URL)
    (requestUrl : World -> string -> Settled)
    (getFrontMatterInfo : string -> FrontMatterInfo)
    (yamlArticleProcessed : string -> Completion bool)
    (extractUrlFromFrontmatter extractUrlFromContent
       : string -> option string)
    (updateFrontmatterWithProxyInfo :
       string -> string -> string -> string -> gmap string string ->
       gmap string string)
    (markFileAsProcessed : string -> gmap string string -> gmap string string)
    (numberDivide : nat -> nat -> Q)
    (file : string)
    (passes : list (Q * (string -> Completion (option string))))
  : Async ParserWorld (list bool) :=
  match passes with
  | [] => retA []
  | (minContentRatio, getMarkdownContent) :: later =>
      bindA
        (autoProcessFileIfLonger newURL requestUrl getFrontMatterInfo
           yamlArticleProcessed getMarkdownContent
           extractUrlFromFrontmatter extractUrlFromContent
           updateFrontmatterWithProxyInfo markFileAsProcessed numberDivide
           file minContentRatio)
        (fun merged =>
           bindA
             (scheduledPasses newURL requestUrl getFrontMatterInfo
                yamlArticleProcessed extractUrlFromFrontmatter
                extractUrlFromContent updateFrontmatterWithProxyInfo
                markFileAsProcessed numberDivide file later)
             (fun others => retA (merged :: others)))
  end.

(** ** Sample data for concrete runs *)

(** [getDefaultTransformationRules()] of [default-templates.ts]. *)
Definition getDefaultTransformationRules : list TransformationRule :=
  [ {| id := "freedium-medium";
       name := "Medium via Freedium";
       enabled := false;
       matchers := ["*.medium.com"; "medium.com"];
       transformationType := Prefix;
       template := "https://freedium-mirror.cfd/{url}";
       priority := 100 |};
    {| id := "12ft-ladder";
       name := "12ft Ladder (General Paywall Bypass)";
       enabled := false;
       matchers := ["*"];
       transformationType := Prefix;
       template := "https://12ft.io/{url}";
       priority := 10 |};
    {| id := "archive-today";
       name := "Archive.today";
       enabled := false;
       matchers := ["*"];
       transformationType := Prefix;
       template := "https://archive.is/{url}";
       priority := 20 |} ].

(** A rule as the settings tab leaves it after the user switches it on. *)
Definition switchedOn (rule : TransformationRule) : TransformationRule :=
  {| id := id rule; name := name rule; enabled := true;
     matchers := matchers rule;
     transformationType := transformationType rule;
     template := template rule; priority := priority rule |}.

Definition ladderRule : TransformationRule :=
  {| id := "12ft-ladder";
     name := "12ft Ladder (General Paywall Bypass)";
     enabled := true;
     matchers := ["*"];
     transformationType := Prefix;
     template := "https://12ft.io/{url}";
     priority := 10 |}.

(** The world some time later, nothing else having happened. *)
Definition atTime (clock : Z) (w : World) : World :=
  {| this := this w; now := clock; sent := sent w; aborted := aborted w |}.

(** The world after one probing round for [key] that ended with the
    verdict [verdict] in the world [w]. *)
Definition recorded (key : string) (verdict : bool) (w : World) : World :=
  {| this := {| healthCache :=
                  <[key := {| healthy := verdict; lastChecked := now w |}]>
                    (healthCache (this w));
                cacheTtlMs := cacheTtlMs (this w);
                timeoutMs := timeoutMs (this w) |};
     now := now w; sent := sent w; aborted := aborted w |}.

(** The exact quotient, standing for the binary64 one in concrete runs
    where the two agree. *)
Definition exactDivide (a b : nat) : Q := Z.of_nat a # Pos.of_nat b.

(** A document that carries the marker, and host functions that read
    it: the preamble runs from offset 4 to offset 28. *)
Definition processedNote : string :=
  "---" ++ newline ++ "article_processed: true" ++ newline
  ++ "---" ++ newline ++ "Some notes.".

Definition noteFrontMatterInfo (content : string) : FrontMatterInfo :=
  if JsString.startsWith content ("---" ++ newline)
  then {| fmExists := true; fmFrom := 4; fmTo := 28 |}
  else {| fmExists := false; fmFrom := 0; fmTo := 0 |}.

Definition noteArticleProcessed (frontmatterText : string)
  : Completion bool :=
  Normal (JsString.includes frontmatterText "article_processed: true").

(** A clipping that holds nothing but a link, the article behind the
    link, and [markFileAsProcessed] as it acts on a document without a
    preamble. *)
Definition clipping : string := "https://medium.com/p/1".

Definition article : string :=
  "# A story" ++ newline ++ "Once upon a time there was a paywall, and "
  ++ "behind it a story that was longer than the note pointing to it.".

Definition markClipping (file : string) (documents : gmap string string)
  : gmap string string :=
  match documents !! file with
  | Some content =>
      <[file := "---" ++ newline ++ "article_processed: true" ++ newline
                ++ "---" ++ newline ++ newline ++ content]> documents
  | None => documents
  end.

Definition clippingWorld : ParserWorld :=
  {| vault := {[ "Clippings/new.md" := clipping ]};
     engine := initialWorld (newUrlTransformer 5 5000) 1000;
     transformationRules := Some getDefaultTransformationRules |}.

Definition noteWorld : ParserWorld :=
  {| vault := {[ "Clippings/note.md" := processedNote ]};
     engine := initialWorld (newUrlTransformer 5 5000) 1000;
     transformationRules := Some getDefaultTransformationRules |}.


(** * The remaining methods

    The methods of the transformer, the parser, the configuration manager
    and the plugin that the properties of the second part are about. *)

(** ** [testAllProxies] ([url-transformer.ts]) *)

(** [delete this.healthCache[key]].  The key [__proto__] never names an
    own property of the cache object (reading it yields the prototype of
    the object and writing it replaces that prototype), so deleting it
    removes nothing. *)
Definition deleteCache (key : string) : Async World unit :=
  fun w =>
    (Normal tt,
     if String.eqb key "__proto__" then w
     else
       {| this := {| healthCache := delete key (healthCache (this w));
                     cacheTtlMs := cacheTtlMs (this w);
                     timeoutMs := timeoutMs (this w) |};
          now := now w; sent := sent w; aborted := aborted w |}).

(** [results.set(key, value)] on a [Map<string, boolean>]: a map keeps
    its keys in the order of their first insertion, and setting a key
    that is present replaces its value in place. *)
Fixpoint Map_set (key : string) (value : bool)
    (entries : list (string * bool)) : list (string * bool) :=
  match entries with
  | [] => [(key, value)]
  | (k, v) :: rest =>
      if String.eqb k key then (k, value) :: rest
      else (k, v) :: Map_set key value rest
  end.

(** The origin under which the health of a rule is cached for a URL:
    [extractProxyBaseUrl(applyTransformation(url, rule))]. *)
Definition proxyOrigin (newURL : string -> Completion URL) (url : string)
    (rule : TransformationRule) : Completion string :=
  bindC (applyTransformation newURL url rule) (extractProxyBaseUrl newURL).

Section UrlTransformerDiagnostics.

Variable newURL : string -> Completion URL.
Variable requestUrl : World -> string -> Settled.

Local Open Scope async_scope.

(** The body of [for (const rule of rules)] in [testAllProxies], with
    the map built so far. *)
Fixpoint testAllProxiesFrom (rules : list TransformationRule)
    (results : list (string * bool)) : Async World (list (string * bool)) :=
  match rules with
  | [] => retA results
  | rule :: later =>
      if negb (enabled rule) then testAllProxiesFrom later results
      else
        do! testUrl := liftC (applyTransformation newURL TEST_URL rule) in
        do! proxyBaseUrl := liftC (extractProxyBaseUrl newURL testUrl) in
        do! _ := deleteCache proxyBaseUrl in
        do! healthy := checkProxyHealth newURL requestUrl proxyBaseUrl rule in
        testAllProxiesFrom later (Map_set (name rule) healthy results)
  end.

Definition testAllProxies (rules : list TransformationRule)
  : Async World (list (string * bool)) :=
  testAllProxiesFrom rules [].

End UrlTransformerDiagnostics.

(** ** [extractUrlFromContent] ([parse-metadata-link.ts]) *)

(** Whether every character of [s] satisfies [keep]. *)
Fixpoint everyChar (keep : ascii -> bool) (s : string) : bool :=
  match s with
  | EmptyString => true
  | String c rest => keep c && everyChar keep rest
  end.

(** [s.match(regex)] for a regular expression without the [g] flag tries
    the pattern at every start position from left to right; [matchAt] is
    the match of the pattern at the head of a string. *)
Fixpoint firstMatch (matchAt : string -> option string) (s : string)
  : option string :=
  match matchAt s with
  | Some found => Some found
  | None =>
      match s with
      | EmptyString => None
      | String _ rest => firstMatch matchAt rest
      end
  end.

Module MetadataLinkParser.

(** The second group of a match of [/\[([^\]]+)\]\(([^)]+)\)/] at the
    head of [s].  A greedy [[^\]]+] takes the whole run of characters
    other than a closing bracket; giving characters back cannot help,
    since the pattern goes on with a closing bracket.  The same holds for
    [[^)]+] and the closing parenthesis. *)
Definition markdownLinkAt (s : string) : option string :=
  match s with
  | EmptyString => None
  | String c rest =>
      if Ascii.eqb c "[" then
        let (text, afterText) :=
          splitAtFirst (fun c => Ascii.eqb c "]") rest in
        if String.eqb text EmptyString then None
        else if JsString.startsWith afterText "](" then
          let (target, afterTarget) :=
            splitAtFirst (fun c => Ascii.eqb c ")")
              (JsString.substringFrom afterText 2) in
          if String.eqb target EmptyString then None
          else if JsString.startsWith afterTarget ")" then Some target
          else None
        else None
      else None
  end.

(** The first group of a match of [/(https?:\/\/[^\s]+)/] at the head of
    [s]: the scheme and the longest run without white space after it. *)
Definition plainUrlAt (s : string) : option string :=
  let scheme :=
    if JsString.startsWith s "https://" then Some "https://"
    else if JsString.startsWith s "http://" then Some "http://"
    else None in
  match scheme with
  | None => None
  | Some scheme =>
      let (run, _) :=
        splitAtFirst isWhiteSpace
          (JsString.substringFrom s (String.length scheme)) in
      if String.eqb run EmptyString then None else Some (scheme ++ run)
  end.

Definition extractUrlFromContent (content : string) : option string :=
  let linkTarget := firstMatch markdownLinkAt content in
  if truthy linkTarget then linkTarget
  else
    let url := firstMatch plainUrlAt content in
    if truthy url then url else None.

End MetadataLinkParser.

(** The text of a markdown link [[text](target)]. *)
Definition markdownLink (text target : string) : string :=
  "[" ++ text ++ "](" ++ target ++ ")".

(** A well-formed link: a text without closing bracket and a target
    without closing parenthesis, neither of them empty. *)
Definition linkParts (text target : string) : Prop :=
  text <> EmptyString /\ target <> EmptyString
  /\ everyChar (fun c => negb (Ascii.eqb c "]")) text = true
  /\ everyChar (fun c => negb (Ascii.eqb c ")")) target = true.

(** A plain URL as the second pattern reads it, and what may follow it. *)
Definition plainUrlParts (url after : string) : Prop :=
  exists scheme run,
    url = scheme ++ run
    /\ (scheme = "https://" \/ scheme = "http://")
    /\ run <> EmptyString
    /\ everyChar (fun c => negb (isWhiteSpace c)) run = true
    /\ (after = EmptyString
        \/ exists c rest, after = String c rest /\ isWhiteSpace c = true).

(** ** [extractUrlFromFrontmatter] ([parse-metadata-link.ts]) *)

(** [['url', 'link', 'source', 'web_url', 'article_url']] *)
Definition urlFields : list string :=
  ["url"; "link"; "source"; "web_url"; "article_url"].

(** The loop [for (const field of urlFields)]: the value of the first
    field that is truthy.  The preamble is the value of [parseYaml]: a
    falsy value ([None]) or a mapping, read through the function that
    gives the value of a field; a field holds a string, as the return
    type of the method has it. *)
Fixpoint firstUrlField (frontmatter : option (string -> option string))
    (fields : list string) : option string :=
  match fields with
  | [] => None
  | field :: later =>
      match frontmatter with
      | Some valueOf =>
          if truthy (valueOf field) then valueOf field
          else firstUrlField frontmatter later
      | None => firstUrlField frontmatter later
      end
  end.

Section FrontmatterUrl.

Variable getFrontMatterInfo : string -> FrontMatterInfo.

(** [parseYaml(frontmatterText)] of the host. *)
Variable parseYaml : string -> Completion (option (string -> option string)).

Definition extractUrlFromFrontmatter (fileContent : string)
  : option string :=
  let frontMatterInfo := getFrontMatterInfo fileContent in
  if negb (fmExists frontMatterInfo) then None
  else
    let frontmatterText :=
      JsString.substring fileContent (fmFrom frontMatterInfo)
                         (fmTo frontMatterInfo) in
    match parseYaml frontmatterText with
    | Normal frontmatter => firstUrlField frontmatter urlFields
    | Throw error => None
    end.

End FrontmatterUrl.

(** What a host that reports the preamble without its closing delimiter
    guarantees: after the offset [to] come, white space apart, the three
    dashes that close the preamble. *)
Definition closingDelimiterFollows
    (getFrontMatterInfo : string -> FrontMatterInfo) (content : string)
  : Prop :=
  fmExists (getFrontMatterInfo content) = true ->
  exists head gap tail,
    content = head ++ gap ++ "---" ++ tail
    /\ String.length head = fmTo (getFrontMatterInfo content)
    /\ everyChar isWhiteSpace gap = true.

(** A note that holds white space only. *)
Definition blankNote : string := " " ++ newline.

Definition blankWorld : ParserWorld :=
  {| vault := {[ "Clippings/blank.md" := blankNote ]};
     engine := initialWorld (newUrlTransformer 5 5000) 1000;
     transformationRules := Some getDefaultTransformationRules |}.

(** ** The configuration manager

    Class [TransformationConfigManager] of
    [src/url-transformer/transformation-config.ts].  The manager keeps one
    configuration object: [this.config], the value returned by
    [getConfig] and the argument that the editing methods pass to
    [saveConfig] all point to it, and the editing methods change it
    before they write it.  The state of the manager therefore holds the
    current contents of that object, and [assign] is a change made to it
    in place.  The vault, [JSON.parse] and [JSON.stringify] belong to the
    host.  A parsed file is a [LoadedConfig], in which any field may be
    absent; a parsed value that has no array of rules has [None] for
    [loadedRules]. *)

Module TransformationConfigManager.

Record AutoProcessingConfig : Type := {
  autoEnabled : bool;
  folderPath : string;
  frequencyMinutes : Z;
  minContentLengthRatio : Q
}.

Record TransformationConfig : Type := {
  rules : list TransformationRule;
  proxyHealthCacheTtlMinutes : Z;
  proxyHealthTimeoutMs : Z;
  autoProcessing : AutoProcessingConfig
}.

Record LoadedAutoProcessing : Type := {
  loadedEnabled : option bool;
  loadedFolderPath : option string;
  loadedFrequencyMinutes : option Z;
  loadedMinContentLengthRatio : option Q
}.

Record LoadedConfig : Type := {
  loadedRules : option (list TransformationRule);
  loadedCacheTtlMinutes : option Z;
  loadedTimeoutMs : option Z;
  loadedAutoProcessing : option LoadedAutoProcessing
}.

(** [Partial<TransformationRule>]: the fields that an update carries. *)
Record RuleUpdates : Type := {
  newId : option string;
  newName : option string;
  newEnabled : option bool;
  newMatchers : option (list string);
  newTransformationType : option TransformationType;
  newTemplate : option string;
  newPriority : option Z
}.

(** [{ enabled }] *)
Definition onlyEnabled (value : bool) : RuleUpdates :=
  {| newId := None; newName := None; newEnabled := Some value;
     newMatchers := None; newTransformationType := None;
     newTemplate := None; newPriority := None |}.

(** [value ?? fallback] *)
Definition nullish {A : Type} (value : option A) (fallback : A) : A :=
  match value with
  | Some v => v
  | None => fallback
  end.

(** [object?.field] *)
Definition optionalField {A B : Type} (object : option A)
    (field : A -> option B) : option B :=
  match object with
  | Some o => field o
  | None => None
  end.

(** [{ ...rule, ...updates }] *)
Definition spread (rule : TransformationRule) (updates : RuleUpdates)
  : TransformationRule :=
  {| id := nullish (newId updates) (id rule);
     name := nullish (newName updates) (name rule);
     enabled := nullish (newEnabled updates) (enabled rule);
     matchers := nullish (newMatchers updates) (matchers rule);
     transformationType :=
       nullish (newTransformationType updates) (transformationType rule);
     template := nullish (newTemplate updates) (template rule);
     priority := nullish (newPriority updates) (priority rule) |}.

(** [Array.prototype.findIndex], with [-1] for no element. *)
Fixpoint findIndex {A : Type} (predicate : A -> bool) (l : list A) : Z :=
  match l with
  | [] => -1
  | x :: rest =>
      if predicate x then 0
      else
        let index := findIndex predicate rest in
        if index =? -1 then -1 else 1 + index
  end.

(** [Array.prototype.includes] on strings *)
Definition Array_includes (l : list string) (x : string) : bool :=
  existsb (String.eqb x) l.

(** [new Map(entries)]: a later entry replaces an earlier one that has
    the same key. *)
Definition newMap {V : Type} (entries : list (string * V)) : gmap string V :=
  fold_left (fun m entry => <[fst entry := snd entry]> m) entries ∅.

Definition withRules (newRules : list TransformationRule)
    (configuration : TransformationConfig) : TransformationConfig :=
  {| rules := newRules;
     proxyHealthCacheTtlMinutes := proxyHealthCacheTtlMinutes configuration;
     proxyHealthTimeoutMs := proxyHealthTimeoutMs configuration;
     autoProcessing := autoProcessing configuration |}.

Definition CONFIG_FILE_PATH : string := ".obsidian/url-transformations.json".

Definition getDefaultAutoProcessingConfig : AutoProcessingConfig :=
  {| autoEnabled := false;
     folderPath := EmptyString;
     frequencyMinutes := 60;
     minContentLengthRatio := 2 |}.

Definition getDefaultConfig : TransformationConfig :=
  {| rules := getDefaultTransformationRules;
     proxyHealthCacheTtlMinutes := 5;
     proxyHealthTimeoutMs := 5000;
     autoProcessing := getDefaultAutoProcessingConfig |}.

(** [loadedConfig.rules.map] throws for a value that has no rules. *)
Definition mergeWithDefaults (loadedConfig : LoadedConfig)
  : Completion TransformationConfig :=
  let defaultRules := getDefaultTransformationRules in
  match loadedRules loadedConfig with
  | None =>
      Throw (TypeError
               "Cannot read properties of undefined (reading 'map')")
  | Some loaded =>
      let loadedRuleIds : gset string := list_to_set (map id loaded) in
      let newDefaultRules :=
        List.filter
          (fun dr => negb (bool_decide (id dr ∈ loadedRuleIds)))
          defaultRules in
      let defaultAutoProcessing := getDefaultAutoProcessingConfig in
      let stored := loadedAutoProcessing loadedConfig in
      Normal
        {| rules := (loaded ++ newDefaultRules)%list;
           proxyHealthCacheTtlMinutes :=
             nullish (loadedCacheTtlMinutes loadedConfig) 5;
           proxyHealthTimeoutMs := nullish (loadedTimeoutMs loadedConfig) 5000;
           autoProcessing :=
             {| autoEnabled :=
                  nullish (optionalField stored loadedEnabled)
                    (autoEnabled defaultAutoProcessing);
                folderPath :=
                  nullish (optionalField stored loadedFolderPath)
                    (folderPath defaultAutoProcessing);
                frequencyMinutes :=
                  nullish (optionalField stored loadedFrequencyMinutes)
                    (frequencyMinutes defaultAutoProcessing);
                minContentLengthRatio :=
                  nullish (optionalField stored loadedMinContentLengthRatio)
                    (minContentLengthRatio defaultAutoProcessing) |} |}
  end.

(** A configuration in the shape in which a parsed file holds it, no
    field absent. *)
Definition asLoaded (configuration : TransformationConfig) : LoadedConfig :=
  let auto := autoProcessing configuration in
  {| loadedRules := Some (rules configuration);
     loadedCacheTtlMinutes := Some (proxyHealthCacheTtlMinutes configuration);
     loadedTimeoutMs := Some (proxyHealthTimeoutMs configuration);
     loadedAutoProcessing :=
       Some {| loadedEnabled := Some (autoEnabled auto);
               loadedFolderPath := Some (folderPath auto);
               loadedFrequencyMinutes := Some (frequencyMinutes auto);
               loadedMinContentLengthRatio :=
                 Some (minContentLengthRatio auto) |} |}.

(** What a method of the manager throws: an [Error] object of its own,
    or what the host threw. *)
Inductive Thrown : Type :=
| ErrorObject (message : string)
| HostError (error : JsError).

Inductive Outcome (A : Type) : Type :=
| Returned (value : A)
| Raised (thrown : Thrown).

Arguments Returned {A} value.
Arguments Raised {A} thrown.

Record Manager (Vault : Type) : Type := {
  vault : Vault;
  config : option TransformationConfig
}.

Arguments vault {Vault} _.
Arguments config {Vault} _.

Definition Task (Vault A : Type) : Type :=
  Manager Vault -> Outcome A * Manager Vault.

Definition bindT {Vault A B : Type} (m : Task Vault A)
    (k : A -> Task Vault B) : Task Vault B :=
  fun w =>
    match m w with
    | (Returned v, w') => k v w'
    | (Raised e, w') => (Raised e, w')
    end.

Definition throwT {Vault A : Type} (thrown : Thrown) : Task Vault A :=
  fun w => (Raised thrown, w).

Definition tryCatchT {Vault A : Type} (body : Task Vault A)
    (handler : Thrown -> Task Vault A) : Task Vault A :=
  fun w =>
    match body w with
    | (Returned v, w') => (Returned v, w')
    | (Raised e, w') => handler e w'
    end.

(** A synchronous step of the host that may throw. *)
Definition hostT {Vault A : Type} (c : Completion A) : Task Vault A :=
  fun w =>
    match c with
    | Normal v => (Returned v, w)
    | Throw error => (Raised (HostError error), w)
    end.

(** [this.config = configuration], and a change made in place to the
    object that [this.config] points to. *)
Definition assign {Vault : Type} (configuration : TransformationConfig)
  : Task Vault unit :=
  fun w => (Returned tt, {| vault := vault w; config := Some configuration |}).

Declare Scope task_scope.
Delimit Scope task_scope with task.
Notation "'run!' x ':=' c 'in' k" :=
  (bindT c (fun x => k))
  (at level 10, x name, c at level 100, k at level 200)
  : task_scope.

Section Methods.

Variable Vault : Type.

(** [app.vault.getAbstractFileByPath(path)], as a truth value;
    [app.vault.read], [app.vault.modify] and [app.vault.create]. *)
Variable getAbstractFileByPath : Vault -> string -> bool.
Variable vaultRead : Vault -> string -> Completion string.
Variable vaultModify : Vault -> string -> string -> Completion unit * Vault.
Variable vaultCreate : Vault -> string -> string -> Completion unit * Vault.
Variable JSON_parse : string -> Completion LoadedConfig.
Variable JSON_stringify : TransformationConfig -> string.

Local Open Scope task_scope.

Definition saveConfig (configuration : TransformationConfig)
  : Task Vault unit :=
  fun w =>
    let configJson := JSON_stringify configuration in
    let configFile := getAbstractFileByPath (vault w) CONFIG_FILE_PATH in
    let (written, files) :=
      if configFile
      then vaultModify (vault w) CONFIG_FILE_PATH configJson
      else vaultCreate (vault w) CONFIG_FILE_PATH configJson in
    match written with
    | Normal _ =>
        (Returned tt, {| vault := files; config := Some configuration |})
    | Throw error =>
        (Raised (HostError error), {| vault := files; config := config w |})
    end.

Definition getConfig : Task Vault TransformationConfig :=
  fun w =>
    match config w with
    | Some configuration => (Returned configuration, w)
    | None =>
        (Raised (ErrorObject "Config not loaded. Call loadConfig() first."),
         w)
    end.

Definition loadConfig : Task Vault TransformationConfig :=
  tryCatchT
    (fun w =>
       let configFile := getAbstractFileByPath (vault w) CONFIG_FILE_PATH in
       if negb configFile then
         (let defaultConfig := getDefaultConfig in
          run! _ := saveConfig defaultConfig in
          run! _ := assign defaultConfig in
          fun w' => (Returned defaultConfig, w')) w
       else
         (run! content := hostT (vaultRead (vault w) CONFIG_FILE_PATH) in
          run! loadedConfig := hostT (JSON_parse content) in
          run! mergedConfig := hostT (mergeWithDefaults loadedConfig) in
          run! _ := assign mergedConfig in
          fun w' => (Returned mergedConfig, w')) w)
    (fun error =>
       let defaultConfig := getDefaultConfig in
       run! _ := assign defaultConfig in
       fun w' => (Returned defaultConfig, w')).

Definition addRule (rule : TransformationRule) : Task Vault unit :=
  run! current := getConfig in
  let changed := withRules (rules current ++ [rule])%list current in
  run! _ := assign changed in
  saveConfig changed.

(** The index that [findIndex] returns always holds a rule; the arm for
    an empty slot is there for the type of the lookup only. *)
Definition updateRule (ruleId : string) (updates : RuleUpdates)
  : Task Vault unit :=
  run! current := getConfig in
  let ruleIndex :=
    findIndex (fun r => String.eqb (id r) ruleId) (rules current) in
  if ruleIndex =? -1
  then throwT (ErrorObject ("Rule with id " ++ ruleId ++ " not found"))
  else
    match rules current !! Z.to_nat ruleIndex with
    | Some rule =>
        let changed :=
          withRules
            (<[Z.to_nat ruleIndex := spread rule updates]> (rules current))
            current in
        run! _ := assign changed in
        saveConfig changed
    | None => saveConfig current
    end.

Definition deleteRule (ruleId : string) : Task Vault unit :=
  run! current := getConfig in
  let changed :=
    withRules
      (List.filter (fun r => negb (String.eqb (id r) ruleId))
         (rules current))
      current in
  run! _ := assign changed in
  saveConfig changed.

Definition toggleRule (ruleId : string) (value : bool) : Task Vault unit :=
  updateRule ruleId (onlyEnabled value).

Definition reorderRules (ruleIds : list string) : Task Vault unit :=
  run! current := getConfig in
  let ruleMap := newMap (map (fun r => (id r, r)) (rules current)) in
  let reorderedRules := omap (fun ruleId => ruleMap !! ruleId) ruleIds in
  let missingRules :=
    List.filter (fun r => negb (Array_includes ruleIds (id r)))
      (rules current) in
  let changed := withRules (reorderedRules ++ missingRules)%list current in
  run! _ := assign changed in
  saveConfig changed.

End Methods.

(** A vault that holds the configuration file or not, and whose writes
    succeed or fail as a whole. *)
Record SimpleVault : Type := {
  configText : option string;
  writable : bool
}.

Definition simpleExists (v : SimpleVault) (path : string) : bool :=
  match configText v with
  | Some _ => true
  | None => false
  end.

Definition simpleRead (v : SimpleVault) (path : string) : Completion string :=
  match configText v with
  | Some text => Normal text
  | None => Throw (RequestError "ENOENT")
  end.

Definition simpleWrite (v : SimpleVault) (path data : string)
  : Completion unit * SimpleVault :=
  if writable v
  then (Normal tt, {| configText := Some data; writable := true |})
  else (Throw (RequestError "EACCES"), v).

End TransformationConfigManager.

(** Sample data for the manager: a stored file that holds one rule,
    switched on, and no other field; a stand-in for the serializer that
    writes the identifiers of the rules, and a parser that rejects every
    text; a manager that has the defaults in memory, over a vault that
    holds a file and can be written or not. *)
Definition storedFile : TransformationConfigManager.LoadedConfig :=
  {| TransformationConfigManager.loadedRules := Some [ladderRule];
     TransformationConfigManager.loadedCacheTtlMinutes := None;
     TransformationConfigManager.loadedTimeoutMs := None;
     TransformationConfigManager.loadedAutoProcessing := None |}.

Definition identifiersOf
    (configuration : TransformationConfigManager.TransformationConfig)
  : string :=
  String.concat ","
    (map id (TransformationConfigManager.rules configuration)).

Definition rejectText (text : string)
  : Completion TransformationConfigManager.LoadedConfig :=
  Throw (TypeError "Unexpected token").

Definition loadedManager (canWrite : bool)
  : TransformationConfigManager.Manager
      TransformationConfigManager.SimpleVault :=
  {| TransformationConfigManager.vault :=
       {| TransformationConfigManager.configText := Some "{}";
          TransformationConfigManager.writable := canWrite |};
     TransformationConfigManager.config :=
       Some TransformationConfigManager.getDefaultConfig |}.

(** ** Commands of the parser

    [setTransformationConfig] gives the parser the rules of the
    configuration and a new transformer, whose cache is empty; the
    plugin's [createParser] builds a parser and calls it, once for each
    command and for each scheduled pass.  The vault, the clock and the
    log of requests belong to the host and stay.  Notices are not
    modelled. *)

Definition setTransformationConfig
    (config : TransformationConfigManager.TransformationConfig)
    (pw : ParserWorld) : ParserWorld :=
  {| vault := vault pw;
     engine :=
       {| this :=
            newUrlTransformer
              (TransformationConfigManager.proxyHealthCacheTtlMinutes config)
              (TransformationConfigManager.proxyHealthTimeoutMs config);
          now := now (engine pw);
          sent := sent (engine pw);
          aborted := aborted (engine pw) |};
     transformationRules :=
       Some (TransformationConfigManager.rules config) |}.

Section MetadataLinkParserCommands.

Variable newURL : string -> Completion URL.
Variable requestUrl : World -> string -> Settled.
Variable getFrontMatterInfo : string -> FrontMatterInfo.
Variable yamlArticleProcessed : string -> Completion bool.
Variable getMarkdownContent : string -> Completion (option string).
Variable extractUrlFromFrontmatter : string -> option string.
Variable extractUrlFromContent : string -> option string.
Variable updateFrontmatterWithProxyInfo :
  string -> string -> string -> string -> gmap string string ->
  gmap string string.
Variable markFileAsProcessed :
  string -> gmap string string -> gmap string string.
Variable numberDivide : nat -> nat -> Q.

(** [this.app.vault.getMarkdownFiles()], as the paths of the files. *)
Variable getMarkdownFiles : gmap string string -> list string.

Local Open Scope async_scope.

Definition processFileAndAppend (file : string) (checkProcessed : bool)
  : Async ParserWorld unit :=
  tryCatchA
    (do! skip :=
       (if checkProcessed
        then isFileProcessed getFrontMatterInfo yamlArticleProcessed file
        else retA false) in
     if skip then retA tt
     else
       do! content := vaultRead file in
       match pickedUrl extractUrlFromFrontmatter extractUrlFromContent
               content with
       | None => retA tt
       | Some url =>
       if negb (truthy (Some url)) then retA tt
       else
         do! transformResult :=
           transformUrlIfNeeded newURL requestUrl url in
         match IfNeeded.url transformResult with
         | None => retA tt
         | Some urlToFetch =>
         if negb (truthy (Some urlToFetch)) then retA tt
         else
           do! articleMarkdown := liftC (getMarkdownContent urlToFetch) in
           match articleMarkdown with
           | None => retA tt
           | Some articleMarkdown =>
           if negb (truthy (Some articleMarkdown)) then retA tt
           else
             do! _ :=
               (match IfNeeded.appliedRule transformResult with
                | Some rule =>
                    if truthy (Some rule) then
                      fun pw =>
                        (Normal tt,
                         setVault
                           (updateFrontmatterWithProxyInfo file
                              (IfNeeded.originalUrl transformResult)
                              urlToFetch rule (vault pw)) pw)
                    else retA tt
                | None => retA tt
                end) in
             let contentToAppend := separator ++ articleMarkdown in
             do! _ := vaultAppend file contentToAppend in
             if checkProcessed then
               fun pw =>
                 (Normal tt,
                  setVault (markFileAsProcessed file (vault pw)) pw)
             else retA tt
           end
         end
       end)
    (fun error => retA tt).

(** The loop of [autoProcessFolder] over the files it selected, with its
    two counters. *)
Fixpoint autoProcessFiles (files : list string) (minContentRatio : Q)
    (processed skipped : nat) : Async ParserWorld (nat * nat) :=
  match files with
  | [] => retA (processed, skipped)
  | file :: rest =>
      do! wasProcessed :=
        autoProcessFileIfLonger newURL requestUrl getFrontMatterInfo
          yamlArticleProcessed getMarkdownContent extractUrlFromFrontmatter
          extractUrlFromContent updateFrontmatterWithProxyInfo
          markFileAsProcessed numberDivide file minContentRatio in
      if wasProcessed
      then autoProcessFiles rest minContentRatio (S processed) skipped
      else autoProcessFiles rest minContentRatio processed (S skipped)
  end.

Definition autoProcessFolder (folderPath : string) (minContentRatio : Q)
  : Async ParserWorld (nat * nat) :=
  fun pw =>
    let files :=
      List.filter (fun file => JsString.startsWith file folderPath)
        (getMarkdownFiles (vault pw)) in
    autoProcessFiles files minContentRatio 0%nat 0%nat pw.

End MetadataLinkParserCommands.

(** ** The timer of the plugin

    Class [MetadataLinkParserPlugin] of [main.ts] and the four handlers
    of the auto-processing settings in the settings tab.  The host's
    timers are the list of the live ones, each with its interval in
    milliseconds, and the next free identifier: [window.setInterval]
    hands out an identifier that no other timer has;
    [registerInterval], which books the timer for the host's cleanup,
    is left out.  The handlers hold
    the configuration object that [getConfig] returned when the tab was
    drawn, which is the object in the manager; a handler runs to its end
    before the next event is handled. *)

Module MetadataLinkParserPlugin.

Import TransformationConfigManager.

Record Plugin (Vault : Type) : Type := {
  configManager : Manager Vault;
  autoProcessingIntervalId : option nat;
  timers : list (nat * Z);
  nextTimer : nat
}.

Arguments configManager {Vault} _.
Arguments autoProcessingIntervalId {Vault} _.
Arguments timers {Vault} _.
Arguments nextTimer {Vault} _.

(** The plugin as it is constructed: no configuration loaded, no timer. *)
Definition newPlugin {Vault : Type} (files : Vault) : Plugin Vault :=
  {| configManager := {| vault := files; config := None |};
     autoProcessingIntervalId := None;
     timers := [];
     nextTimer := 1 |}.

Definition PluginTask (Vault A : Type) : Type :=
  Plugin Vault -> Outcome A * Plugin Vault.

Definition bindP {Vault A B : Type} (m : PluginTask Vault A)
    (k : A -> PluginTask Vault B) : PluginTask Vault B :=
  fun p =>
    match m p with
    | (Returned v, p') => k v p'
    | (Raised e, p') => (Raised e, p')
    end.

(** A method of [this.configManager] called from the plugin. *)
Definition onManager {Vault A : Type} (task : Task Vault A)
  : PluginTask Vault A :=
  fun p =>
    let (result, manager) := task (configManager p) in
    (result,
     {| configManager := manager;
        autoProcessingIntervalId := autoProcessingIntervalId p;
        timers := timers p;
        nextTimer := nextTimer p |}).

Declare Scope plugin_scope.
Delimit Scope plugin_scope with plugin.
Notation "'step!' x ':=' c 'in' k" :=
  (bindP c (fun x => k))
  (at level 10, x name, c at level 100, k at level 200)
  : plugin_scope.

(** [window.setInterval(callback, intervalMs)] *)
Definition window_setInterval {Vault : Type} (intervalMs : Z)
    (p : Plugin Vault) : nat * Plugin Vault :=
  (nextTimer p,
   {| configManager := configManager p;
      autoProcessingIntervalId := autoProcessingIntervalId p;
      timers := (nextTimer p, intervalMs) :: timers p;
      nextTimer := S (nextTimer p) |}).

(** [window.clearInterval(id)] *)
Definition window_clearInterval {Vault : Type} (id : nat)
    (p : Plugin Vault) : Plugin Vault :=
  {| configManager := configManager p;
     autoProcessingIntervalId := autoProcessingIntervalId p;
     timers := List.filter (fun timer => negb (Nat.eqb (fst timer) id))
                 (timers p);
     nextTimer := nextTimer p |}.

(** [this.autoProcessingIntervalId = id] *)
Definition setIntervalId {Vault : Type} (id : option nat)
    (p : Plugin Vault) : Plugin Vault :=
  {| configManager := configManager p;
     autoProcessingIntervalId := id;
     timers := timers p;
     nextTimer := nextTimer p |}.

Definition withAutoProcessing (auto : AutoProcessingConfig)
    (configuration : TransformationConfig) : TransformationConfig :=
  {| rules := rules configuration;
     proxyHealthCacheTtlMinutes := proxyHealthCacheTtlMinutes configuration;
     proxyHealthTimeoutMs := proxyHealthTimeoutMs configuration;
     autoProcessing := auto |}.

Inductive SettingsEvent : Type :=
| EnabledChanged (value : bool)
| FolderPathChanged (value : string)
| FrequencyChanged (value : Z)
| RatioChanged (value : Q).

(** The timer that the plugin tracks is the only one alive. *)
Definition timerTracked {Vault : Type} (p : Plugin Vault) : Prop :=
  match autoProcessingIntervalId p with
  | Some id => exists intervalMs, timers p = [(id, intervalMs)]
  | None => timers p = []
  end.

(** The timers, and what the plugin knows of them, are in [p'] as they
    are in [p]. *)
Definition sameTimers {Vault : Type} (p p' : Plugin Vault) : Prop :=
  timers p' = timers p
  /\ autoProcessingIntervalId p' = autoProcessingIntervalId p
  /\ nextTimer p' = nextTimer p.

Section Methods.

Variable Vault : Type.
Variable getAbstractFileByPath : Vault -> string -> bool.
Variable vaultRead : Vault -> string -> Completion string.
Variable vaultModify : Vault -> string -> string -> Completion unit * Vault.
Variable vaultCreate : Vault -> string -> string -> Completion unit * Vault.
Variable JSON_parse : string -> Completion LoadedConfig.
Variable JSON_stringify : TransformationConfig -> string.

Local Open Scope plugin_scope.

Definition startAutoProcessing : PluginTask Vault unit :=
  step! configuration := onManager (getConfig Vault) in
  let auto := autoProcessing configuration in
  if negb (autoEnabled auto) || negb (truthy (Some (folderPath auto)))
  then fun p => (Returned tt, p)
  else
    let intervalMs := frequencyMinutes auto * 60 * 1000 in
    fun p =>
      let (id, p') := window_setInterval intervalMs p in
      (Returned tt, setIntervalId (Some id) p').

Definition stopAutoProcessing (p : Plugin Vault) : Plugin Vault :=
  match autoProcessingIntervalId p with
  | Some id => setIntervalId None (window_clearInterval id p)
  | None => p
  end.

Definition restartAutoProcessing : PluginTask Vault unit :=
  fun p => startAutoProcessing (stopAutoProcessing p).

(** [onload], as far as the configuration and the timer go. *)
Definition onload : PluginTask Vault unit :=
  step! _ :=
    onManager
      (loadConfig Vault getAbstractFileByPath vaultRead vaultModify
         vaultCreate JSON_parse JSON_stringify) in
  startAutoProcessing.

Definition onunload (p : Plugin Vault) : Plugin Vault :=
  stopAutoProcessing p.

(** [config.autoProcessing.<field> = value;
    await this.configManager.saveConfig(config);] *)
Definition storeAutoProcessing
    (change : AutoProcessingConfig -> AutoProcessingConfig)
  : PluginTask Vault unit :=
  step! configuration := onManager (getConfig Vault) in
  let changed :=
    withAutoProcessing (change (autoProcessing configuration))
      configuration in
  step! _ := onManager (assign changed) in
  onManager
    (saveConfig Vault getAbstractFileByPath vaultModify vaultCreate
       JSON_stringify changed).

(** The handlers of the four settings.  The test
    [if (this.plugin.restartAutoProcessing)] holds: the plugin has the
    method. *)
Definition enabledChanged (value : bool) : PluginTask Vault unit :=
  step! _ :=
    storeAutoProcessing
      (fun auto =>
         {| autoEnabled := value;
            folderPath := folderPath auto;
            frequencyMinutes := frequencyMinutes auto;
            minContentLengthRatio := minContentLengthRatio auto |}) in
  restartAutoProcessing.

Definition folderPathChanged (value : string) : PluginTask Vault unit :=
  storeAutoProcessing
    (fun auto =>
       {| autoEnabled := autoEnabled auto;
          folderPath := value;
          frequencyMinutes := frequencyMinutes auto;
          minContentLengthRatio := minContentLengthRatio auto |}).

Definition frequencyChanged (value : Z) : PluginTask Vault unit :=
  step! _ :=
    storeAutoProcessing
      (fun auto =>
         {| autoEnabled := autoEnabled auto;
            folderPath := folderPath auto;
            frequencyMinutes := value;
            minContentLengthRatio := minContentLengthRatio auto |}) in
  restartAutoProcessing.

Definition ratioChanged (value : Q) : PluginTask Vault unit :=
  storeAutoProcessing
    (fun auto =>
       {| autoEnabled := autoEnabled auto;
          folderPath := folderPath auto;
          frequencyMinutes := frequencyMinutes auto;
          minContentLengthRatio := value |}).

Definition handle (event : SettingsEvent) : PluginTask Vault unit :=
  match event with
  | EnabledChanged value => enabledChanged value
  | FolderPathChanged value => folderPathChanged value
  | FrequencyChanged value => frequencyChanged value
  | RatioChanged value => ratioChanged value
  end.

(** The plugin after the handlers of a sequence of events have run, one
    after the other; a handler that throws leaves the plugin as it was
    when it threw. *)
Fixpoint session (events : list SettingsEvent) (p : Plugin Vault)
  : Plugin Vault :=
  match events with
  | [] => p
  | event :: rest => session rest (snd (handle event p))
  end.

End Methods.

End MetadataLinkParserPlugin.

(** A plugin whose configuration watches a folder every 30 minutes and
    whose timer, the first of the host, still runs every 60. *)
Definition watchingPlugin
  : MetadataLinkParserPlugin.Plugin TransformationConfigManager.SimpleVault :=
  {| MetadataLinkParserPlugin.configManager :=
       {| TransformationConfigManager.vault :=
            {| TransformationConfigManager.configText := Some "{}";
               TransformationConfigManager.writable := true |};
          TransformationConfigManager.config :=
            Some (MetadataLinkParserPlugin.withAutoProcessing
                    {| TransformationConfigManager.autoEnabled := true;
                       TransformationConfigManager.folderPath := "Inbox";
                       TransformationConfigManager.frequencyMinutes := 30;
                       TransformationConfigManager.minContentLengthRatio
                         := 2 |}
                    TransformationConfigManager.getDefaultConfig) |};
     MetadataLinkParserPlugin.autoProcessingIntervalId := Some 1%nat;
     MetadataLinkParserPlugin.timers := [(1%nat, 3600000)];
     MetadataLinkParserPlugin.nextTimer := 2 |}.

(** A vault without a configuration file. *)
Definition emptyVault : TransformationConfigManager.SimpleVault :=
  {| TransformationConfigManager.configText := None;
     TransformationConfigManager.writable := true |}.

(** * Properties *)

(** ** Strings *)

Section StringFacts.

Local Open Scope nat_scope.

Lemma string_app_cons (c : ascii) (s t : string) :
  String c s ++ t = String c (s ++ t).
Proof. reflexivity. Qed.

Lemma string_app_nil_l (s : string) : EmptyString ++ s = s.
Proof. reflexivity. Qed.

Lemma string_app_nil_r (s : string) : s ++ EmptyString = s.
Proof.
  induction s as [|c s IH]; simpl in *; [reflexivity | now rewrite IH].
Qed.

Lemma string_app_assoc (a b c : string) : (a ++ b) ++ c = a ++ b ++ c.
Proof. induction a as [|x a IH]; simpl in *; [reflexivity | now rewrite IH]. Qed.

Lemma string_length_app (a b : string) :
  String.length (a ++ b) = String.length a + String.length b.
Proof. induction a as [|x a IH]; simpl in *; [reflexivity | now rewrite IH]. Qed.

Lemma string_app_inv_head (p a b : string) : p ++ a = p ++ b -> a = b.
Proof.
  induction p as [|x p IH]; simpl in *; intros H; [exact H|].
  injection H as H. now apply IH.
Qed.

(** Two splits of one string at the same position agree. *)
Lemma string_app_inj_length (a b c d : string) :
  a ++ b = c ++ d -> String.length a = String.length c -> a = c /\ b = d.
Proof.
  revert c. induction a as [|x a IH]; intros [|y c]; simpl in *; intros H L;
    try discriminate.
  - split; [reflexivity | exact H].
  - injection H as -> H. injection L as L.
    destruct (IH _ H L) as [-> ->]. split; reflexivity.
Qed.

Lemma string_app_inv_tail (a c s : string) : a ++ s = c ++ s -> a = c.
Proof.
  intros H. apply (string_app_inj_length a s c s H).
  apply (f_equal String.length) in H.
  rewrite !string_length_app in H. lia.
Qed.

Lemma prefix_app (p r : string) : String.prefix p (p ++ r) = true.
Proof.
  induction p as [|x p IH]; simpl in *; [now destruct r|].
  destruct (ascii_dec x x); [exact IH | congruence].
Qed.

Lemma prefix_inv (p s : string) :
  String.prefix p s = true -> exists r, s = p ++ r.
Proof.
  revert s. induction p as [|x p IH]; intros s H.
  - exists s. reflexivity.
  - destruct s as [|y s]; simpl in *; [discriminate|].
    destruct (ascii_dec x y) as [->|]; [|discriminate].
    destruct (IH _ H) as [r ->]. exists r. reflexivity.
Qed.

Lemma prefix_iff (p s : string) :
  String.prefix p s = true <-> exists r, s = p ++ r.
Proof.
  split; [apply prefix_inv | intros [r ->]; apply prefix_app].
Qed.

Lemma substring_whole (s : string) :
  String.substring 0 (String.length s) s = s.
Proof. induction s as [|c s IH]; simpl in *; [reflexivity | now rewrite IH]. Qed.

Lemma substring_head (p r : string) :
  String.substring 0 (String.length p) (p ++ r) = p.
Proof.
  induction p as [|c p IH]; simpl in *; [now destruct r | now rewrite IH].
Qed.

Lemma substring_skip (p r : string) (m : nat) :
  String.substring (String.length p) m (p ++ r) = String.substring 0 m r.
Proof. induction p as [|c p IH]; simpl in *; [reflexivity | exact IH]. Qed.

Lemma substringFrom_app (p r : string) :
  JsString.substringFrom (p ++ r) (String.length p) = r.
Proof.
  unfold JsString.substringFrom.
  rewrite substring_skip, string_length_app.
  replace (String.length p + String.length r - String.length p)
    with (String.length r) by lia.
  apply substring_whole.
Qed.

Lemma substringTo_app (p r : string) :
  JsString.substringTo (p ++ r) (String.length p) = p.
Proof.
  unfold JsString.substringTo. rewrite string_length_app.
  rewrite Nat.min_l by lia. apply substring_head.
Qed.

(** Every string splits at every position up to its length. *)
Lemma string_split_at (s : string) (n : nat) :
  n <= String.length s ->
  exists p r, s = p ++ r /\ String.length p = n.
Proof.
  revert s. induction n as [|n IH]; intros s H.
  - exists EmptyString, s. split; reflexivity.
  - destruct s as [|c s]; simpl in *; [lia|].
    destruct (IH s ltac:(lia)) as (p & r & -> & L).
    exists (String c p), r. simpl in *. split; [reflexivity | now rewrite L].
Qed.

Lemma endsWith_iff (s suffix : string) :
  JsString.endsWith s suffix = true <-> exists p, s = p ++ suffix.
Proof.
  unfold JsString.endsWith. split.
  - destruct (Nat.leb_spec (String.length suffix) (String.length s))
      as [Hle|]; [|discriminate].
    intros H. apply String.eqb_eq in H.
    destruct (string_split_at s (String.length s - String.length suffix)
                ltac:(lia)) as (p & r & E & L).
    exists p. rewrite <- H, <- L. rewrite E at 2.
    rewrite substringFrom_app. exact E.
  - intros [p ->]. rewrite string_length_app.
    destruct (Nat.leb_spec (String.length suffix)
                (String.length p + String.length suffix)); [|lia].
    replace (String.length p + String.length suffix - String.length suffix)
      with (String.length p) by lia.
    rewrite substringFrom_app. apply String.eqb_refl.
Qed.

Lemma indexOf_unfold (s searchString : string) :
  JsString.indexOf s searchString
  = if String.prefix searchString s then Some 0
    else match s with
         | EmptyString => None
         | String _ rest =>
             option_map S (JsString.indexOf rest searchString)
         end.
Proof. destruct s; reflexivity. Qed.

(** [indexOf] finds the first occurrence. *)
Lemma indexOf_Some (s searchString : string) (i : nat) :
  JsString.indexOf s searchString = Some i ->
  exists p r, s = p ++ searchString ++ r /\ String.length p = i
    /\ forall p' r', s = p' ++ searchString ++ r' -> i <= String.length p'.
Proof.
  revert i. induction s as [|c s IH]; intros i; rewrite indexOf_unfold.
  - destruct (String.prefix searchString EmptyString) eqn:P;
      [|discriminate].
    intros [= <-]. apply prefix_inv in P as [r E].
    exists EmptyString, r. repeat split; [exact E | intros; lia].
  - destruct (String.prefix searchString (String c s)) eqn:P.
    + intros [= <-]. apply prefix_inv in P as [r E].
      exists EmptyString, r. repeat split; [exact E | intros; lia].
    + destruct (JsString.indexOf s searchString) as [j|] eqn:J;
        [|discriminate].
      intros [= <-]. destruct (IH j eq_refl) as (p & r & E & L & F).
      exists (String c p), r. rewrite string_app_cons, <- E. simpl.
      rewrite L. repeat split.
      intros [|c' p'] r' E'.
      * rewrite string_app_nil_l in E'.
        rewrite E', prefix_app in P. discriminate.
      * rewrite string_app_cons in E'. injection E' as _ E'.
        simpl. apply le_n_S. exact (F _ _ E').
Qed.

Lemma indexOf_None (s searchString : string) :
  JsString.indexOf s searchString = None ->
  forall p r, s <> p ++ searchString ++ r.
Proof.
  induction s as [|c s IH]; rewrite indexOf_unfold.
  - destruct (String.prefix searchString EmptyString) eqn:P;
      [discriminate|].
    intros _ [|c' p] r E; [|discriminate].
    rewrite string_app_nil_l in E.
    rewrite E, prefix_app in P. discriminate.
  - destruct (String.prefix searchString (String c s)) eqn:P;
      [discriminate|].
    destruct (JsString.indexOf s searchString) eqn:J;
      [discriminate|].
    intros _ [|c' p] r E.
    + rewrite string_app_nil_l in E.
      rewrite E, prefix_app in P. discriminate.
    + rewrite string_app_cons in E. injection E as _ E.
      exact (IH eq_refl _ _ E).
Qed.

Lemma indexOf_absent (s searchString : string) :
  (forall p r, s <> p ++ searchString ++ r) ->
  JsString.indexOf s searchString = None.
Proof.
  intros H. destruct (JsString.indexOf s searchString) as [i|] eqn:E;
    [|reflexivity].
  destruct (indexOf_Some _ _ _ E) as (p & r & E' & _).
  now destruct (H p r).
Qed.

(** Without a match [replace] returns its receiver. *)
Lemma replace_absent (s searchString replaceValue : string) :
  (forall p r, s <> p ++ searchString ++ r) ->
  JsString.replace s searchString replaceValue = s.
Proof.
  intros H. unfold JsString.replace.
  now rewrite (indexOf_absent _ _ H).
Qed.

(** With a match, the first occurrence is replaced by the expansion of
    the replacement template. *)
Lemma replace_first (s searchString replaceValue : string) (i : nat) :
  JsString.indexOf s searchString = Some i ->
  exists p r, s = p ++ searchString ++ r /\ String.length p = i
    /\ JsString.replace s searchString replaceValue
       = p ++ JsString.getSubstitution searchString s i replaceValue ++ r.
Proof.
  intros E. destruct (indexOf_Some _ _ _ E) as (p & r & Es & L & _).
  exists p, r. repeat split; [exact Es | exact L |].
  unfold JsString.replace. rewrite E. cbv zeta. rewrite <- L.
  replace (JsString.substringTo s (String.length p)) with p
    by (rewrite Es; symmetry; apply substringTo_app).
  replace (JsString.substringFrom s
             (String.length p + String.length searchString)) with r;
    [reflexivity|].
  rewrite Es, <- string_length_app, <- string_app_assoc.
  symmetry. apply substringFrom_app.
Qed.

(** A replacement text without a dollar sign stands for itself. *)
Lemma getSubstitution_dollarFree (matched str : string) (position : nat)
    (replaceValue : string) :
  JsString.dollarFree replaceValue = true ->
  JsString.getSubstitution matched str position replaceValue
  = replaceValue.
Proof.
  induction replaceValue as [|c v IH]; simpl in *; [reflexivity|].
  intros H. apply andb_prop in H as [Hc Hv].
  apply negb_true_iff in Hc. rewrite Hc, (IH Hv). reflexivity.
Qed.

End StringFacts.

(** ** URL matcher *)

Section MatcherFacts.

Variable newURL : string -> Completion URL.

Lemma wildcard_pattern_shape (x : string) :
  String.eqb ("*." ++ x) "*" = false
  /\ JsString.startsWith ("*." ++ x) "*." = true
  /\ JsString.substringFrom ("*." ++ x) 2 = x.
Proof.
  split; [|split].
  - apply String.eqb_neq. discriminate.
  - apply (prefix_app "*." x).
  - exact (substringFrom_app "*." x).
Qed.

(** On a parsed URL, a pattern [*.x] is decided by the host name. *)
Lemma matchesPattern_wildcard_parsed (url x : string) (urlObj : URL) :
  newURL url = Normal urlObj ->
  matchesPattern newURL url ("*." ++ x)
  = Normal (String.eqb (hostname urlObj) x
            || JsString.endsWith (hostname urlObj) ("." ++ x)).
Proof.
  intros E. unfold matchesPattern. rewrite E.
  cbn [bindC tryCatch]. cbv zeta.
  destruct (wildcard_pattern_shape x) as (-> & -> & ->). reflexivity.
Qed.

Lemma matchesPattern_malformed (url pattern : string) (e : JsError) :
  newURL url = Throw e -> matchesPattern newURL url pattern = Normal false.
Proof. intros E. unfold matchesPattern. rewrite E. reflexivity. Qed.

(** [matchesPattern] returns a boolean on every input. *)
Lemma matchesPattern_returns (url pattern : string) :
  matchesPattern newURL url pattern
  = Normal (completed false (matchesPattern newURL url pattern)).
Proof.
  unfold matchesPattern. destruct (newURL url) as [urlObj|e]; simpl;
    [|reflexivity].
  destruct (String.eqb pattern "*"); [reflexivity|].
  destruct (JsString.startsWith pattern "*."); reflexivity.
Qed.

Lemma subdomain_iff (host x : string) :
  String.eqb host x || JsString.endsWith host ("." ++ x) = true
  <-> host = x \/ exists sub, host = sub ++ "." ++ x.
Proof.
  rewrite orb_true_iff, String.eqb_eq, endsWith_iff. reflexivity.
Qed.

(** A host name made of [x] with a label glued in front that does not
    end in a dot is not in the domain [x]. *)
Lemma glued_label_not_subdomain (label x : string) :
  label <> EmptyString ->
  JsString.endsWith label "." = false ->
  String.eqb (label ++ x) x || JsString.endsWith (label ++ x) ("." ++ x)
  = false.
Proof.
  intros Hne Hdot. apply not_true_is_false. rewrite subdomain_iff.
  intros [E | [sub E]].
  - apply (f_equal String.length) in E.
    rewrite string_length_app in E.
    destruct label; [congruence | simpl in E; lia].
  - rewrite <- string_app_assoc in E. apply string_app_inv_tail in E.
    assert (JsString.endsWith label "." = true) as C
      by (apply endsWith_iff; eauto).
    congruence.
Qed.

(** C8: for a URL that parses, a pattern [*.x] matches exactly when the
    host name is [x] or ends with [.x]; in particular the hosts [x] and
    [sub.x] match while [evilx] and [notx] do not.  For a URL that does
    not parse, every pattern yields [false], and in both cases the
    result is a boolean, never an exception. *)
Theorem matchesPattern_subdomain_wildcard (url x : string) :
  match newURL url with
  | Normal urlObj =>
      let result := matchesPattern newURL url ("*." ++ x) in
      (result = Normal true \/ result = Normal false)
      /\ (result = Normal true <->
          hostname urlObj = x
          \/ exists sub, hostname urlObj = sub ++ "." ++ x)
      /\ (hostname urlObj = x -> result = Normal true)
      /\ (hostname urlObj = "sub." ++ x -> result = Normal true)
      /\ (hostname urlObj = "evil" ++ x -> result = Normal false)
      /\ (hostname urlObj = "not" ++ x -> result = Normal false)
  | Throw _ =>
      forall pattern, matchesPattern newURL url pattern = Normal false
  end.
Proof.
  destruct (newURL url) as [urlObj|e] eqn:E.
  - cbv zeta. rewrite (matchesPattern_wildcard_parsed _ _ _ E).
    assert (forall b : bool, Normal b = Normal true <-> b = true) as N
      by (intros b; split; [intros [= ->] | intros ->]; reflexivity).
    split; [|split; [|split; [|split; [|split]]]].
    + destruct (_ || _); [left | right]; reflexivity.
    + rewrite N. apply subdomain_iff.
    + intros H. apply N, subdomain_iff. left. exact H.
    + intros H. apply N, subdomain_iff. right. exists "sub".
      rewrite H. reflexivity.
    + intros ->. f_equal.
      apply glued_label_not_subdomain; [discriminate | reflexivity].
    + intros ->. f_equal.
      apply glued_label_not_subdomain; [discriminate | reflexivity].
  - intros pattern. exact (matchesPattern_malformed _ _ _ E).
Qed.

End MatcherFacts.

(** ** Rule resolution *)

Section ArrayFacts.

Context {A : Type}.
Local Open Scope list_scope.

Lemma Array_some_returns (f : A -> Completion bool) (g : A -> bool)
    (l : list A) :
  (forall x, f x = Normal (g x)) ->
  Array_some f l = Normal (existsb g l).
Proof.
  intros H. induction l as [|x l IH]; simpl; [reflexivity|].
  rewrite H. simpl. destruct (g x); [reflexivity | exact IH].
Qed.

Lemma Array_filter_returns (f : A -> Completion bool) (g : A -> bool)
    (l : list A) :
  (forall x, f x = Normal (g x)) ->
  Array_filter f l = Normal (List.filter g l).
Proof.
  intros H. induction l as [|x l IH]; simpl; [reflexivity|].
  rewrite H, IH. simpl. reflexivity.
Qed.

(** Where an element of a filtered list sits in the unfiltered one. *)
Lemma filter_split (g : A -> bool) (l before after : list A) (x : A) :
  List.filter g l = before ++ x :: after ->
  exists before' after',
    l = before' ++ x :: after' /\ g x = true
    /\ List.filter g before' = before /\ List.filter g after' = after.
Proof.
  revert before. induction l as [|y l IH]; intros before H; simpl in H.
  - destruct before; discriminate.
  - destruct (g y) eqn:G.
    + destruct before as [|b before]; simpl in H.
      * injection H as -> H. exists [], l. simpl. auto.
      * injection H as -> H.
        destruct (IH _ H) as (b' & a' & -> & Gx & Fb & Fa).
        exists (b :: b'), a'. simpl. rewrite G, Fb. auto.
    + destruct (IH _ H) as (b' & a' & -> & Gx & Fb & Fa).
      exists (y :: b'), a'. simpl. rewrite G. auto.
Qed.

Lemma head_insertSorted (compareFn : A -> A -> Z) (x : A) (l : list A) :
  head (insertSorted compareFn x l)
  = Some match head l with
         | None => x
         | Some y => if compareFn x y <=? 0 then x else y
         end.
Proof. destruct l as [|y l]; simpl; [|destruct (_ <=? _)]; reflexivity. Qed.

End ArrayFacts.

Section ResolutionFacts.

Variable newURL : string -> Completion URL.
Local Open Scope list_scope.

Lemma matchesRule_returns (url : string) (rule : TransformationRule) :
  matchesRule newURL url rule = Normal (applicable newURL url rule).
Proof.
  unfold applicable, matchesRule. destruct (negb (enabled rule));
    [reflexivity|].
  rewrite (Array_some_returns _ _ _ (matchesPattern_returns newURL url)).
  reflexivity.
Qed.

(** An applicable rule is enabled and one of its patterns matches. *)
Lemma applicable_iff (url : string) (rule : TransformationRule) :
  applicable newURL url rule = true
  <-> enabled rule = true
      /\ exists matcher, In matcher (matchers rule)
           /\ matchesPattern newURL url matcher = Normal true.
Proof.
  unfold applicable, matchesRule. destruct (enabled rule); simpl.
  - rewrite (Array_some_returns _ _ _ (matchesPattern_returns newURL url)).
    simpl. rewrite existsb_exists. split.
    + intros (m & I & M). split; [reflexivity|]. exists m.
      split; [exact I|]. now rewrite matchesPattern_returns, M.
    + intros (_ & m & I & M). exists m. split; [exact I|].
      now rewrite M.
  - split; [discriminate | intros [? _]; discriminate].
Qed.

(** The head of the rules sorted by descending priority is the first
    rule of highest priority. *)
Lemma sorted_head_first_highest (l : list TransformationRule) :
  match head (Array_sort (fun a b => priority b - priority a) l) with
  | None => l = []
  | Some best =>
      exists before after,
        l = before ++ best :: after
        /\ (forall r, In r before -> priority r < priority best)
        /\ (forall r, In r after -> priority r <= priority best)
  end.
Proof.
  induction l as [|x l IH]; [reflexivity|].
  unfold Array_sort in *. simpl. rewrite head_insertSorted.
  destruct (head (fold_right _ [] l)) as [y|].
  - destruct IH as (b & a & -> & Hb & Ha).
    destruct (Z.leb_spec (priority y - priority x) 0) as [Hle|Hgt].
    + exists [], (b ++ y :: a). split; [reflexivity|].
      split; [intros r []|].
      intros r Hr. apply in_app_or in Hr as [Hr|[<-|Hr]].
      * specialize (Hb _ Hr). lia.
      * lia.
      * specialize (Ha _ Hr). lia.
    + exists (x :: b), a. split; [reflexivity|]. split; [|exact Ha].
      intros r [<-|Hr]; [lia | exact (Hb _ Hr)].
  - subst l. exists [], []. split; [reflexivity|].
    split; intros r [].
Qed.

(** C2: [findMatchingRule] returns no rule exactly when no rule is
    applicable; otherwise it returns an applicable rule of highest
    priority, namely the first such rule in the order of the input:
    every applicable rule before it has a strictly lower priority and
    no applicable rule after it has a higher one.  The result depends
    on the URL and the rule list only, so repeated calls agree. *)
Theorem findMatchingRule_first_highest (url : string)
    (rules : list TransformationRule) :
  match findMatchingRule newURL url rules with
  | Normal None =>
      forall r, In r rules -> applicable newURL url r = false
  | Normal (Some best) =>
      exists before after,
        rules = before ++ best :: after
        /\ applicable newURL url best = true
        /\ (forall r, In r before -> applicable newURL url r = true ->
                      priority r < priority best)
        /\ (forall r, In r after -> applicable newURL url r = true ->
                      priority r <= priority best)
  | Throw _ => False
  end.
Proof.
  unfold findMatchingRule.
  rewrite (Array_filter_returns _ _ _ (matchesRule_returns url)).
  cbn [bindC].
  pose proof (sorted_head_first_highest
                (List.filter (applicable newURL url) rules)) as H.
  destruct (List.filter (applicable newURL url) rules) as [|m ms] eqn:F.
  - simpl. intros r Hr. apply not_true_is_false. intros Hg.
    assert (In r (List.filter (applicable newURL url) rules)) as C
      by (apply filter_In; auto).
    rewrite F in C. destruct C.
  - change (length (m :: ms) =? 0)%nat with false. cbv iota.
    destruct (head _) as [best|]; [|discriminate].
    destruct H as (b & a & E & Hb & Ha). rewrite E in F.
    destruct (filter_split _ _ _ _ _ F) as (b' & a' & -> & G & Fb & Fa).
    exists b', a'. split; [reflexivity|]. split; [exact G|]. split.
    + intros r Hr Hg. apply Hb. rewrite <- Fb. apply filter_In. auto.
    + intros r Hr Hg. apply Ha. rewrite <- Fa. apply filter_In. auto.
Qed.

End ResolutionFacts.

(** ** Template expander *)

Section ExpanderFacts.

Variable newURL : string -> Completion URL.

(** [applyTransformation] returns a string on every input. *)
Lemma applyTransformation_returns (url : string)
    (rule : TransformationRule) :
  applyTransformation newURL url rule
  = Normal (completed EmptyString (applyTransformation newURL url rule)).
Proof.
  unfold applyTransformation.
  destruct (transformationType rule); [reflexivity|].
  destruct (newURL url); reflexivity.
Qed.

(** A path-extraction rule on a URL that does not parse expands like a
    prefix rule. *)
Lemma applyTransformation_fallback (url : string)
    (rule : TransformationRule) (e : JsError) :
  transformationType rule = PathExtraction ->
  newURL url = Throw e ->
  applyTransformation newURL url rule
  = Normal (JsString.replace (template rule) "{url}" url).
Proof.
  intros T E. unfold applyTransformation. rewrite T, E. reflexivity.
Qed.

(** A prefix rule puts a URL without dollar signs in the place of the
    first [{url}] of the template. *)
Lemma applyTransformation_prefix_plain (url : string)
    (rule : TransformationRule) (i : nat) :
  transformationType rule = Prefix ->
  JsString.dollarFree url = true ->
  JsString.indexOf (template rule) "{url}" = Some i ->
  exists before after,
    template rule = before ++ "{url}" ++ after
    /\ String.length before = i
    /\ applyTransformation newURL url rule
       = Normal (before ++ url ++ after).
Proof.
  intros T D I. unfold applyTransformation. rewrite T.
  destruct (replace_first _ _ url _ I) as (p & r & E & L & R).
  exists p, r. rewrite R, (getSubstitution_dollarFree _ _ _ _ D). auto.
Qed.

(** C10: a prefix rule whose template holds no [{url}] placeholder
    expands every URL to the template itself. *)
Theorem applyTransformation_without_placeholder (url : string)
    (rule : TransformationRule) :
  transformationType rule = Prefix ->
  (forall before after, template rule <> before ++ "{url}" ++ after) ->
  applyTransformation newURL url rule = Normal (template rule).
Proof.
  intros T H. unfold applyTransformation. rewrite T.
  now rewrite (replace_absent _ _ _ H).
Qed.

(** C9, at the input where the expansion departs from it: the query of
    the URL holds [$&], which [String.prototype.replace] reads as "the
    matched text", so the placeholder itself is written into the
    result in place of these two characters of the URL. *)
Theorem applyTransformation_dollar_pattern :
  applyTransformation newURL "https://x.com/?q=$&lang=en" ladderRule
  = Normal "https://12ft.io/https://x.com/?q={url}lang=en"
  /\ "https://12ft.io/https://x.com/?q={url}lang=en"
     <> "https://12ft.io/" ++ "https://x.com/?q=$&lang=en".
Proof. split; [reflexivity | discriminate]. Qed.

End ExpanderFacts.

Lemma applyTransformation_without_placeholder_witness :
  applyTransformation parseSimpleURL "https://medium.com/p/1"
    {| id := "mirror"; name := "Static mirror"; enabled := true;
       matchers := ["*"]; transformationType := Prefix;
       template := "https://mirror.example/latest"; priority := 5 |}
  = Normal "https://mirror.example/latest".
Proof.
  apply (applyTransformation_without_placeholder parseSimpleURL).
  - reflexivity.
  - apply indexOf_None. vm_compute. reflexivity.
Defined.

Example applyTransformation_prefix_example :
  applyTransformation parseSimpleURL "https://x.com/a?b=1"
    {| id := "p"; name := "P"; enabled := true; matchers := ["*"];
       transformationType := Prefix; template := "https://p/{url}";
       priority := 1 |}
  = Normal "https://p/https://x.com/a?b=1".
Proof. reflexivity. Qed.

Example applyTransformation_path_example :
  applyTransformation parseSimpleURL "https://x.com/a/b?c=1"
    {| id := "p"; name := "P"; enabled := true; matchers := ["*"];
       transformationType := PathExtraction;
       template := "https://p/{domain}{path}"; priority := 1 |}
  = Normal "https://p/x.com/a/b?c=1".
Proof. reflexivity. Qed.

(** ** Proxy health cache *)

Section HealthFacts.

Variable newURL : string -> Completion URL.
Variable requestUrl : World -> string -> Settled.

Local Open Scope list_scope.

Local Abbreviation probe := (checkProxyHealthWithTimeout requestUrl).
Local Abbreviation check := (checkProxyHealth newURL requestUrl).

(** The verdict of the freshness test, on the cache and the clock. *)
Lemma isCacheValid_run (key : string) (w : World) :
  isCacheValid key w
  = (Normal match healthCache (this w) !! key with
            | None => false
            | Some entry =>
                now w - lastChecked entry <? cacheTtlMs (this w)
            end, w).
Proof.
  unfold isCacheValid, bindA, readCache, Date_now, retA.
  destruct (healthCache (this w) !! key); reflexivity.
Qed.

(** One probe sends one request, moves the clock to the moment the
    request settles and leaves the transformer as it is; a rejected
    request and a status outside [200, 400) both give [false]. *)
Lemma probe_run (url : string) (w : World) :
  probe url w
  = (Normal match outcome (requestUrl w url) with
            | Normal status => (200 <=? status) && (status <? 400)
            | Throw _ => false
            end,
     {| this := this w;
        now := settledAt (requestUrl w url);
        sent := url :: sent w;
        aborted := if now w + timeoutMs (this w)
                      <=? settledAt (requestUrl w url)
                   then url :: aborted w else aborted w |}).
Proof.
  unfold checkProxyHealthWithTimeout.
  destruct (outcome (requestUrl w url)); reflexivity.
Qed.

Lemma probe_rejected (url : string) (w : World) (e : JsError) :
  outcome (requestUrl w url) = Throw e ->
  fst (probe url w) = Normal false.
Proof. intros H. rewrite probe_run, H. reflexivity. Qed.

Lemma probe_status (url : string) (w : World) (status : Z) :
  outcome (requestUrl w url) = Normal status ->
  fst (probe url w) = Normal true <-> 200 <= status < 400.
Proof.
  intros H. rewrite probe_run, H. simpl. split.
  - intros [= E]. apply andb_prop in E as [A B]. lia.
  - intros [A B]. f_equal. apply andb_true_intro. split; lia.
Qed.

(** A call that finds a fresh entry answers from the cache and changes
    nothing. *)
Lemma checkProxyHealth_hit (key : string) (rule : TransformationRule)
    (w : World) (entry : ProxyHealthEntry) :
  healthCache (this w) !! key = Some entry ->
  now w - lastChecked entry < cacheTtlMs (this w) ->
  check key rule w = (Normal (healthy entry), w).
Proof.
  intros L F. unfold checkProxyHealth, bindA at 1.
  rewrite isCacheValid_run, L.
  destruct (Z.ltb_spec (now w - lastChecked entry) (cacheTtlMs (this w)));
    [|lia].
  unfold bindA, readCache, retA. rewrite L. reflexivity.
Qed.

(** A call that finds no fresh entry runs one probing round: a probe
    of the expanded test URL, a second probe of the bare origin when
    the first one failed, and a cache write stamped with the clock. *)
Lemma checkProxyHealth_miss (key : string) (rule : TransformationRule)
    (w : World) :
  match healthCache (this w) !! key with
  | None => True
  | Some entry => cacheTtlMs (this w) <= now w - lastChecked entry
  end ->
  let test := completed EmptyString
                (applyTransformation newURL TEST_URL rule) in
  let first := completed false (fst (probe test w)) in
  let w1 := snd (probe test w) in
  let verdict := if first then true
                 else completed false (fst (probe key w1)) in
  let w2 := if first then w1 else snd (probe key w1) in
  check key rule w = (Normal verdict, recorded key verdict w2).
Proof.
  intros M. cbv zeta. unfold checkProxyHealth, bindA at 1.
  rewrite isCacheValid_run.
  assert (match healthCache (this w) !! key with
          | None => false
          | Some entry => now w - lastChecked entry <? cacheTtlMs (this w)
          end = false) as ->.
  { destruct (healthCache (this w) !! key); [|reflexivity].
    apply Z.ltb_ge. exact M. }
  unfold bindA at 1, liftC. rewrite applyTransformation_returns.
  cbn [completed]. unfold bindA at 1.
  rewrite !probe_run. cbn [fst snd completed].
  destruct (match outcome _ with Normal _ => _ | Throw _ => _ end).
  - reflexivity.
  - cbn [negb]. unfold bindA at 1. rewrite !probe_run.
    cbn [fst snd completed]. reflexivity.
Qed.

(** Every call returns a verdict, leaves an entry with that verdict in
    the cache, and sends the requests of at most one probing round. *)
Lemma checkProxyHealth_post (key : string) (rule : TransformationRule)
    (w : World) :
  exists verdict w',
    check key rule w = (Normal verdict, w')
    /\ cacheTtlMs (this w') = cacheTtlMs (this w)
    /\ (exists entry, healthCache (this w') !! key = Some entry
                      /\ healthy entry = verdict)
    /\ (w' = w
        \/ exists test,
             applyTransformation newURL TEST_URL rule = Normal test
             /\ (sent w' = test :: sent w
                 \/ sent w' = key :: test :: sent w)).
Proof.
  destruct (healthCache (this w) !! key) as [entry|] eqn:L.
  - destruct (Z.lt_ge_cases (now w - lastChecked entry) (cacheTtlMs (this w)))
      as [F|F].
    + exists (healthy entry), w. rewrite (checkProxyHealth_hit _ _ _ _ L F).
      split; [reflexivity|]. split; [reflexivity|].
      split; [exists entry; split; [exact L | reflexivity] | left; reflexivity].
    + pose proof (checkProxyHealth_miss key rule w) as M. rewrite L in M.
      specialize (M F). cbv zeta in M. rewrite M. clear M.
      eexists _, _. split; [reflexivity|].
      split; [destruct (completed false _); rewrite ?probe_run; reflexivity|].
      split; [eexists; split; [apply lookup_insert_eq | reflexivity]|].
      right. eexists. split; [apply applyTransformation_returns|].
      rewrite !probe_run. cbn [fst snd completed recorded sent].
      destruct (match outcome _ with Normal _ => _ | Throw _ => _ end);
        [left | right]; reflexivity.
  - pose proof (checkProxyHealth_miss key rule w) as M. rewrite L in M.
    specialize (M I). cbv zeta in M. rewrite M. clear M.
    eexists _, _. split; [reflexivity|].
    split; [destruct (completed false _); rewrite ?probe_run; reflexivity|].
    split; [eexists; split; [apply lookup_insert_eq | reflexivity]|].
    right. eexists. split; [apply applyTransformation_returns|].
    rewrite !probe_run. cbn [fst snd completed recorded sent].
    destruct (match outcome _ with Normal _ => _ | Throw _ => _ end);
      [left | right]; reflexivity.
Qed.

(** A round in which every request fails records the origin as down,
    stamped with the clock at the end of the round. *)
Lemma checkProxyHealth_records_failure (key : string)
    (rule : TransformationRule) (w : World) :
  match healthCache (this w) !! key with
  | None => True
  | Some entry => cacheTtlMs (this w) <= now w - lastChecked entry
  end ->
  (forall url w0, fst (probe url w0) = Normal false) ->
  exists w',
    check key rule w = (Normal false, w')
    /\ healthCache (this w') !! key
       = Some {| healthy := false; lastChecked := now w' |}.
Proof.
  intros M F. rewrite (checkProxyHealth_miss key rule w M).
  rewrite !F. cbn [completed]. eexists. split; [reflexivity|].
  apply lookup_insert_eq.
Qed.

(** C3: when a call of [checkProxyHealth] for an origin is followed by a
    second one while the entry of that origin is younger than the TTL,
    the second call returns the verdict of the first, which is the
    cached one, and leaves the world as it found it: it sends no request
    and writes nothing.  The requests of both calls together are those
    of at most one probing round (the probe of the expanded test URL
    and, when that fails, its retry against the bare origin). *)
Theorem checkProxyHealth_second_call_cached (w0 : World) (key : string)
    (rule rule' : TransformationRule) (clock2 : Z) :
  let first := check key rule w0 in
  let w1 := atTime clock2 (snd first) in
  (exists entry, healthCache (this w1) !! key = Some entry
                 /\ clock2 - lastChecked entry < cacheTtlMs (this w1)) ->
  exists verdict,
    fst first = Normal verdict
    /\ check key rule' w1 = (Normal verdict, w1)
    /\ (exists entry, healthCache (this (snd first)) !! key = Some entry
                      /\ healthy entry = verdict)
    /\ (sent w1 = sent w0
        \/ exists test,
             applyTransformation newURL TEST_URL rule = Normal test
             /\ (sent w1 = test :: sent w0
                 \/ sent w1 = key :: test :: sent w0)).
Proof.
  cbv zeta.
  destruct (checkProxyHealth_post key rule w0)
    as (verdict & w' & -> & T & (entry & L & H) & R).
  cbn [fst snd]. intros (entry' & L' & F).
  cbn [atTime this] in L', F. rewrite L in L'. injection L' as <-.
  exists verdict. split; [reflexivity|]. split.
  - rewrite <- H. apply checkProxyHealth_hit; [exact L | exact F].
  - split; [eauto|]. cbn [atTime sent].
    destruct R as [->|R]; [left; reflexivity | right; exact R].
Qed.

End HealthFacts.

Lemma checkProxyHealth_second_call_cached_witness :
  let requestUrl := respondAfter 200 10 in
  let w0 := initialWorld (newUrlTransformer 5 5000) 1000 in
  let first :=
    checkProxyHealth parseSimpleURL requestUrl "https://12ft.io"
      ladderRule w0 in
  let w1 := atTime 200000 (snd first) in
  exists verdict,
    fst first = Normal verdict
    /\ checkProxyHealth parseSimpleURL requestUrl "https://12ft.io"
         ladderRule w1 = (Normal verdict, w1)
    /\ (exists entry,
          healthCache (this (snd first)) !! "https://12ft.io" = Some entry
          /\ healthy entry = verdict)
    /\ (sent w1 = sent w0
        \/ exists test,
             applyTransformation parseSimpleURL TEST_URL ladderRule
             = Normal test
             /\ (sent w1 = (test :: sent w0)%list
                 \/ sent w1 = ("https://12ft.io" :: test :: sent w0)%list)).
Proof.
  apply (checkProxyHealth_second_call_cached parseSimpleURL
           (respondAfter 200 10)
           (initialWorld (newUrlTransformer 5 5000) 1000)
           "https://12ft.io" ladderRule ladderRule 200000).
  exists {| healthy := true; lastChecked := 1010 |}.
  split; [vm_compute; reflexivity | vm_compute; reflexivity].
Defined.

(** C6, at the input where the probe departs from it: the proxy answers
    with status 200 after 60 seconds while the timeout is 5 seconds.  The
    abort timer fires, but nothing connects it to the pending request:
    the probe reports the proxy as healthy, and [checkProxyHealth] caches
    that verdict, stamped 61000. *)
Theorem probe_timeout_not_enforced :
  let slow := respondAfter 200 60000 in
  let w := initialWorld (newUrlTransformer 5 5000) 1000 in
  let test := "https://12ft.io/https://example.com/test" in
  checkProxyHealthWithTimeout slow test w
  = (Normal true,
     {| this := this w; now := 61000; sent := [test]; aborted := [test] |})
  /\ exists w',
      checkProxyHealth parseSimpleURL slow "https://12ft.io" ladderRule w
      = (Normal true, w')
      /\ healthCache (this w') !! "https://12ft.io"
         = Some {| healthy := true; lastChecked := 61000 |}.
Proof.
  cbv zeta. split; [reflexivity|].
  eexists. split; [vm_compute; reflexivity | vm_compute; reflexivity].
Qed.

(** ** Transformation engine *)

Section EngineFacts.

Variable newURL : string -> Completion URL.
Variable requestUrl : World -> string -> Settled.

Lemma findMatchingRule_none (url : string)
    (rules : list TransformationRule) :
  (forall r, In r rules -> applicable newURL url r = false) ->
  findMatchingRule newURL url rules = Normal None.
Proof.
  intros H. unfold findMatchingRule.
  rewrite (Array_filter_returns _ _ _ (matchesRule_returns newURL url)).
  cbn [bindC].
  destruct (List.filter (applicable newURL url) rules) as [|m ms] eqn:F;
    [reflexivity|].
  assert (In m (List.filter (applicable newURL url) rules)) as C
    by (rewrite F; left; reflexivity).
  apply filter_In in C as [C1 C2]. rewrite (H _ C1) in C2. discriminate.
Qed.

Lemma extractProxyBaseUrl_returns (transformed : string) :
  extractProxyBaseUrl newURL transformed
  = Normal (completed EmptyString (extractProxyBaseUrl newURL transformed)).
Proof.
  unfold extractProxyBaseUrl. destruct (newURL transformed); reflexivity.
Qed.

(** The message of a proxy-down result holds the name of the rule. *)
Lemma unavailable_message (ruleName : string) :
  let message := "Proxy service " ++ doubleQuote ++ ruleName ++ doubleQuote
                 ++ " is currently unavailable" in
  message <> EmptyString
  /\ exists before after, message = before ++ ruleName ++ after.
Proof.
  cbv zeta. split; [discriminate|].
  exists ("Proxy service " ++ doubleQuote),
         (doubleQuote ++ " is currently unavailable").
  now rewrite !string_app_assoc.
Qed.

(** C7: when no rule is applicable to the URL, [transformUrl] returns the
    URL itself as the transformed URL, reports the proxy as healthy and
    names no applied rule; the world is left as it was, so no probe was
    sent and the cache was not touched. *)
Theorem transformUrl_pass_through (w : World) (url : string)
    (rules : list TransformationRule) :
  (forall r, In r rules -> applicable newURL url r = false) ->
  transformUrl newURL requestUrl url rules w
  = (Normal {| transformedUrl := Some url;
               originalUrl := url;
               appliedRule := None;
               proxyHealthy := true;
               error := None |}, w).
Proof.
  intros H. unfold transformUrl, bindA, liftC.
  rewrite (findMatchingRule_none _ _ H). reflexivity.
Qed.

(** C5: when a rule matched, the result names that rule and carries the
    verdict of the health check for the origin of the expanded URL.  On
    a healthy verdict the transformed URL is present and there is no
    error; on an unhealthy one the transformed URL is [null] and the
    error is a non-empty message that holds the name of the rule.  So
    exactly one of the two is present. *)
Theorem transformUrl_matched_result (w : World) (url : string)
    (rules : list TransformationRule) (rule : TransformationRule) :
  findMatchingRule newURL url rules = Normal (Some rule) ->
  exists transformed origin result w',
    applyTransformation newURL url rule = Normal transformed
    /\ extractProxyBaseUrl newURL transformed = Normal origin
    /\ transformUrl newURL requestUrl url rules w = (Normal result, w')
    /\ checkProxyHealth newURL requestUrl origin rule w
       = (Normal (proxyHealthy result), w')
    /\ originalUrl result = url
    /\ appliedRule result = Some (name rule)
    /\ match proxyHealthy result with
       | true => transformedUrl result = Some transformed
                 /\ error result = None
       | false =>
           transformedUrl result = None
           /\ exists message,
               error result = Some message
               /\ message <> EmptyString
               /\ exists before after,
                   message = before ++ name rule ++ after
       end.
Proof.
  intros M.
  exists (completed EmptyString (applyTransformation newURL url rule)).
  exists (completed EmptyString
            (extractProxyBaseUrl newURL
               (completed EmptyString (applyTransformation newURL url rule)))).
  destruct (checkProxyHealth_post newURL requestUrl
              (completed EmptyString
                 (extractProxyBaseUrl newURL
                    (completed EmptyString
                       (applyTransformation newURL url rule))))
              rule w) as (verdict & w' & C & _).
  unfold transformUrl, bindA, liftC. rewrite M.
  rewrite applyTransformation_returns. cbn [completed].
  rewrite extractProxyBaseUrl_returns. cbn [completed].
  rewrite C. destruct verdict; cbn [negb]; unfold retA.
  - refine (ex_intro _ _ (ex_intro _ w' _)).
    repeat (split; [reflexivity|]). reflexivity.
  - refine (ex_intro _ _ (ex_intro _ w' _)).
    repeat (split; [reflexivity|]).
    refine (ex_intro _ _ (conj eq_refl _)).
    apply unavailable_message.
Qed.

End EngineFacts.

Lemma transformUrl_pass_through_witness :
  transformUrl parseSimpleURL (respondAfter 200 10)
    "https://medium.com/p/1" getDefaultTransformationRules
    (initialWorld (newUrlTransformer 5 5000) 1000)
  = (Normal {| transformedUrl := Some "https://medium.com/p/1";
               originalUrl := "https://medium.com/p/1";
               appliedRule := None;
               proxyHealthy := true;
               error := None |},
     initialWorld (newUrlTransformer 5 5000) 1000).
Proof.
  apply (transformUrl_pass_through parseSimpleURL (respondAfter 200 10)).
  intros r [<-|[<-|[<-|[]]]]; reflexivity.
Defined.

Lemma transformUrl_matched_result_witness :
  findMatchingRule parseSimpleURL "https://medium.com/p/1"
    [ladderRule] = Normal (Some ladderRule)
  /\ exists result w',
      transformUrl parseSimpleURL (rejectAfter 10)
        "https://medium.com/p/1" [ladderRule]
        (initialWorld (newUrlTransformer 5 5000) 1000)
      = (Normal result, w')
      /\ appliedRule result = Some (name ladderRule)
      /\ proxyHealthy result = false
      /\ transformedUrl result = None.
Proof.
  split; [reflexivity|].
  destruct (transformUrl_matched_result parseSimpleURL (rejectAfter 10)
              (initialWorld (newUrlTransformer 5 5000) 1000)
              "https://medium.com/p/1" [ladderRule] ladderRule eq_refl)
    as (transformed & origin & result & w' & _ & _ & T & _ & _ & A & _).
  exists result, w'. split; [exact T|]. split; [exact A|].
  vm_compute in T. injection T as <- _. split; reflexivity.
Defined.

(** ** Auto-processing gate *)

Section AutoProcessingFacts.

Variable newURL : string -> Completion URL.
Variable requestUrl : World -> string -> Settled.
Variable getFrontMatterInfo : string -> FrontMatterInfo.
Variable yamlArticleProcessed : string -> Completion bool.
Variable getMarkdownContent : string -> Completion (option string).
Variable extractUrlFromFrontmatter : string -> option string.
Variable extractUrlFromContent : string -> option string.
Variable updateFrontmatterWithProxyInfo :
  string -> string -> string -> string -> gmap string string ->
  gmap string string.
Variable markFileAsProcessed :
  string -> gmap string string -> gmap string string.
Variable numberDivide : nat -> nat -> Q.

Local Abbreviation isProcessed :=
  (isFileProcessed getFrontMatterInfo yamlArticleProcessed).
Local Abbreviation autoProcess :=
  (autoProcessFileIfLonger newURL requestUrl getFrontMatterInfo
     yamlArticleProcessed getMarkdownContent extractUrlFromFrontmatter
     extractUrlFromContent updateFrontmatterWithProxyInfo
     markFileAsProcessed numberDivide).

(** Reading the marker returns a boolean and changes nothing. *)
Lemma isFileProcessed_pure (file : string) (pw : ParserWorld) :
  exists b, isProcessed file pw = (Normal b, pw).
Proof.
  unfold isFileProcessed, tryCatchA, bindA, vaultRead, retA, liftC.
  destruct (vault pw !! file) as [content|]; [|eauto].
  destruct (negb (fmExists (getFrontMatterInfo content))); [eauto|].
  destruct (yamlArticleProcessed _); eauto.
Qed.

Lemma truthy_Some (s : string) : s <> EmptyString -> truthy (Some s) = true.
Proof.
  intros H. unfold truthy. apply negb_true_iff, String.eqb_neq. exact H.
Qed.

(** A run that reaches the ratio gate and is stopped by it returns
    [false] and writes nothing. *)
Lemma autoProcessFileIfLonger_gate_closed (file : string) (ratio : Q)
    (pw pw1 : ParserWorld) (content url proxied markdown : string)
    (result : IfNeeded.Result) :
  fst (isProcessed file pw) = Normal false ->
  vault pw !! file = Some content ->
  pickedUrl extractUrlFromFrontmatter extractUrlFromContent content
  = Some url ->
  url <> EmptyString ->
  transformUrlIfNeeded newURL requestUrl url pw = (Normal result, pw1) ->
  IfNeeded.url result = Some proxied -> proxied <> EmptyString ->
  getMarkdownContent proxied = Normal (Some markdown) ->
  markdown <> EmptyString ->
  shouldMerge numberDivide false
    (getBodyContentLength getFrontMatterInfo content)
    (String.length markdown) ratio = false ->
  autoProcess file ratio pw = (Normal false, pw1).
Proof.
  intros P V U Un T X Xn G Gn S.
  destruct (isFileProcessed_pure file pw) as [b E].
  rewrite E in P. injection P as ->.
  unfold autoProcessFileIfLonger, tryCatchA. unfold bindA at 1. rewrite E.
  unfold bindA at 1, vaultRead. rewrite V.
  rewrite U, (truthy_Some _ Un). cbn [negb].
  unfold bindA at 1. rewrite T, X, (truthy_Some _ Xn). cbn [negb].
  unfold bindA at 1, liftC. rewrite G, (truthy_Some _ Gn). cbn [negb].
  unfold shouldMerge in S. rewrite S. reflexivity.
Qed.

(** A run that passes the ratio gate updates the preamble when a rule
    was applied, appends the article below the separator, marks the
    document and returns [true]. *)
Lemma autoProcessFileIfLonger_gate_open (file : string) (ratio : Q)
    (pw pw1 : ParserWorld) (content url proxied markdown current : string)
    (result : IfNeeded.Result) :
  fst (isProcessed file pw) = Normal false ->
  vault pw !! file = Some content ->
  pickedUrl extractUrlFromFrontmatter extractUrlFromContent content
  = Some url ->
  url <> EmptyString ->
  transformUrlIfNeeded newURL requestUrl url pw = (Normal result, pw1) ->
  IfNeeded.url result = Some proxied -> proxied <> EmptyString ->
  getMarkdownContent proxied = Normal (Some markdown) ->
  markdown <> EmptyString ->
  shouldMerge numberDivide false
    (getBodyContentLength getFrontMatterInfo content)
    (String.length markdown) ratio = true ->
  let updated :=
    match IfNeeded.appliedRule result with
    | Some rule =>
        if truthy (Some rule)
        then updateFrontmatterWithProxyInfo file
               (IfNeeded.originalUrl result) proxied rule (vault pw1)
        else vault pw1
    | None => vault pw1
    end in
  updated !! file = Some current ->
  autoProcess file ratio pw
  = (Normal true,
     setVault
       (markFileAsProcessed file
          (<[file := current ++ separator ++ markdown]> updated))
       pw1).
Proof.
  intros P V U Un T X Xn G Gn S updated C.
  destruct (isFileProcessed_pure file pw) as [b E].
  rewrite E in P. injection P as ->.
  unfold autoProcessFileIfLonger, tryCatchA. unfold bindA at 1. rewrite E.
  unfold bindA at 1, vaultRead. rewrite V.
  rewrite U, (truthy_Some _ Un). cbn [negb].
  unfold bindA at 1. rewrite T, X, (truthy_Some _ Xn). cbn [negb].
  unfold bindA at 1, liftC. rewrite G, (truthy_Some _ Gn). cbn [negb].
  unfold shouldMerge in S. rewrite S.
  subst updated. unfold bindA, vaultAppend, retA, setVault.
  destruct (IfNeeded.appliedRule result) as [rule|];
    [destruct (truthy (Some rule))|]; cbn [vault] in *; rewrite C;
    reflexivity.
Qed.

(** A call on a document whose marker reads [true] returns [false] and
    changes nothing, whatever the content delegate would answer. *)
Lemma autoProcessFileIfLonger_processed (file : string) (ratio : Q)
    (pw : ParserWorld) :
  fst (isProcessed file pw) = Normal true ->
  autoProcess file ratio pw = (Normal false, pw).
Proof.
  intros P. destruct (isFileProcessed_pure file pw) as [b E].
  rewrite E in P. injection P as ->.
  unfold autoProcessFileIfLonger, tryCatchA, bindA. rewrite E.
  reflexivity.
Qed.

End AutoProcessingFacts.

Section ProcessedIsTerminal.

Variable newURL : string -> Completion URL.
Variable requestUrl : World -> string -> Settled.
Variable getFrontMatterInfo : string -> FrontMatterInfo.
Variable yamlArticleProcessed : string -> Completion bool.
Variable extractUrlFromFrontmatter : string -> option string.
Variable extractUrlFromContent : string -> option string.
Variable updateFrontmatterWithProxyInfo :
  string -> string -> string -> string -> gmap string string ->
  gmap string string.
Variable markFileAsProcessed :
  string -> gmap string string -> gmap string string.
Variable numberDivide : nat -> nat -> Q.

(** C4: on a document whose marker reads [true] the method returns
    [false] whatever the threshold, the body and the content behind the
    URL are, and it leaves the vault and the transformer as they were:
    nothing is fetched, merged or appended.  The marker therefore still
    reads [true], and every later pass of the timer, with any threshold
    and any fetched content, again returns [false] and writes nothing.
    The decision is [false] for every pair of lengths and every
    threshold. *)
Theorem autoProcess_processed_is_terminal (file : string)
    (pw : ParserWorld) :
  fst (isFileProcessed getFrontMatterInfo yamlArticleProcessed file pw)
  = Normal true ->
  (forall minContentRatio getMarkdownContent,
      autoProcessFileIfLonger newURL requestUrl getFrontMatterInfo
        yamlArticleProcessed getMarkdownContent extractUrlFromFrontmatter
        extractUrlFromContent updateFrontmatterWithProxyInfo
        markFileAsProcessed numberDivide file minContentRatio pw
      = (Normal false, pw))
  /\ (forall passes,
        scheduledPasses newURL requestUrl getFrontMatterInfo
          yamlArticleProcessed extractUrlFromFrontmatter
          extractUrlFromContent updateFrontmatterWithProxyInfo
          markFileAsProcessed numberDivide file passes pw
        = (Normal (map (fun _ => false) passes), pw))
  /\ (forall existingBodyLength fetchedLength minContentRatio,
        shouldMerge numberDivide true existingBodyLength fetchedLength
          minContentRatio = false).
Proof.
  intros P. split; [|split].
  - intros ratio fetch. now apply autoProcessFileIfLonger_processed.
  - induction passes as [|[ratio fetch] later IH]; [reflexivity|].
    cbn [scheduledPasses map]. unfold bindA at 1.
    rewrite (autoProcessFileIfLonger_processed _ _ _ _ _ _ _ _ _ _ _ _ _ P).
    unfold bindA at 1. rewrite IH. reflexivity.
  - reflexivity.
Qed.

End ProcessedIsTerminal.


Lemma autoProcess_processed_is_terminal_witness :
  fst (isFileProcessed noteFrontMatterInfo noteArticleProcessed
         "Clippings/note.md" noteWorld) = Normal true
  /\ autoProcessFileIfLonger parseSimpleURL (respondAfter 200 10)
       noteFrontMatterInfo noteArticleProcessed
       (fun _ => Normal (Some "A long article."))
       (fun _ => None) (fun _ => Some "https://medium.com/p/1")
       (fun _ _ _ _ documents => documents) (fun _ documents => documents)
       exactDivide "Clippings/note.md" 2 noteWorld
     = (Normal false, noteWorld).
Proof.
  split; [vm_compute; reflexivity|].
  apply (autoProcess_processed_is_terminal parseSimpleURL
           (respondAfter 200 10) noteFrontMatterInfo noteArticleProcessed
           (fun _ => None) (fun _ => Some "https://medium.com/p/1")
           (fun _ _ _ _ documents => documents) (fun _ documents => documents)
           exactDivide "Clippings/note.md" noteWorld).
  vm_compute. reflexivity.
Defined.

(** C1, as the code has it: with the marker unset, an empty existing body
    and the threshold 2.0, the decision is [true] exactly when the
    fetched content is at least two code units long, the ratio being the
    fetched length itself. *)
Theorem shouldMerge_empty_body (numberDivide : nat -> nat -> Q)
    (fetchedLength : nat) :
  shouldMerge numberDivide false 0 fetchedLength 2
  = (2 <=? fetchedLength)%nat.
Proof.
  unfold shouldMerge, contentRatio.
  change (0 <? 0)%nat with false. cbv iota.
  unfold Qle_bool. cbn [Qnum Qden inject_Z].
  destruct (Nat.leb_spec 2 fetchedLength).
  - apply Z.leb_le. lia.
  - apply Z.leb_gt. lia.
Qed.

(** C1 as stated fails for a fetched content of one code unit. *)
Lemma shouldMerge_empty_body_counterexample :
  ~ (forall fetchedLength : nat,
       (0 < fetchedLength)%nat ->
       shouldMerge exactDivide false 0 fetchedLength 2 = true).
Proof.
  intros H. specialize (H 1%nat (Nat.lt_0_1)). vm_compute in H.
  discriminate.
Qed.

(** ** Concrete runs *)

Example replace_first_only :
  JsString.replace "a{url}b{url}" "{url}" "X" = "aXb{url}".
Proof. reflexivity. Qed.

Example replace_dollar_patterns :
  JsString.replace "p/{url}" "{url}" "a$&b$$c$1" = "p/a{url}b$c$1".
Proof. reflexivity. Qed.

Example matchesPattern_lookalike_host :
  matchesPattern parseSimpleURL "https://evilmedium.com/x" "*.medium.com"
  = Normal false.
Proof. reflexivity. Qed.

Example matchesPattern_universal_malformed :
  matchesPattern parseSimpleURL "no scheme here" "*" = Normal false.
Proof. reflexivity. Qed.

Example findMatchingRule_defaults_switched_on :
  option_map id
    (completed None
       (findMatchingRule parseSimpleURL "https://blog.medium.com/p/1"
          (map switchedOn getDefaultTransformationRules)))
  = Some "freedium-medium"
  /\ option_map id
       (completed None
          (findMatchingRule parseSimpleURL "https://example.org/p/1"
             (map switchedOn getDefaultTransformationRules)))
     = Some "archive-today".
Proof. split; reflexivity. Qed.

Example shouldMerge_ratio_boundary :
  shouldMerge exactDivide false 100 199 2 = false
  /\ shouldMerge exactDivide false 100 200 2 = true
  /\ shouldMerge exactDivide false 0 50 2 = true.
Proof. repeat split; reflexivity. Qed.

Example checkProxyHealth_expired_entry_probes_again :
  let requestUrl := respondAfter 200 10 in
  let w0 := initialWorld (newUrlTransformer 5 5000) 1000 in
  let w1 :=
    snd (checkProxyHealth parseSimpleURL requestUrl "https://12ft.io"
           ladderRule w0) in
  sent w1 = ["https://12ft.io/https://example.com/test"]
  /\ sent (snd (checkProxyHealth parseSimpleURL requestUrl
                  "https://12ft.io" ladderRule (atTime 301010 w1)))
     = ["https://12ft.io/https://example.com/test";
        "https://12ft.io/https://example.com/test"]
  /\ sent (snd (checkProxyHealth parseSimpleURL requestUrl
                  "https://12ft.io" ladderRule (atTime 301009 w1)))
     = ["https://12ft.io/https://example.com/test"].
Proof. repeat split; vm_compute; reflexivity. Qed.

Example checkProxyHealth_retries_bare_origin :
  let w0 := initialWorld (newUrlTransformer 5 5000) 1000 in
  checkProxyHealth parseSimpleURL (rejectAfter 10) "https://12ft.io"
    ladderRule w0
  = (Normal false,
     recorded "https://12ft.io" false
       {| this := this w0; now := 1020;
          sent := ["https://12ft.io";
                   "https://12ft.io/https://example.com/test"];
          aborted := [] |}).
Proof. vm_compute. reflexivity. Qed.

Example autoProcessFileIfLonger_merges_once :
  let run :=
    autoProcessFileIfLonger parseSimpleURL (respondAfter 200 10)
      noteFrontMatterInfo noteArticleProcessed
      (fun _ => Normal (Some article))
      (fun _ => None) (fun content => Some content)
      (fun _ _ _ _ documents => documents) markClipping
      exactDivide "Clippings/new.md" 2 in
  fst (run clippingWorld) = Normal true
  /\ vault (snd (run clippingWorld)) !! "Clippings/new.md"
     = Some ("---" ++ newline ++ "article_processed: true" ++ newline
             ++ "---" ++ newline ++ newline ++ clipping
             ++ separator ++ article)
  /\ run (snd (run clippingWorld))
     = (Normal false, snd (run clippingWorld)).
Proof. repeat split; vm_compute; reflexivity. Qed.

(** * Further properties *)

(** ** Health cache: refresh, frame and short circuit *)

Section CacheFacts.

Variable newURL : string -> Completion URL.
Variable requestUrl : World -> string -> Settled.

Local Open Scope list_scope.

Local Abbreviation probe := (checkProxyHealthWithTimeout requestUrl).
Local Abbreviation check := (checkProxyHealth newURL requestUrl).

Lemma probe_returns (url : string) (w : World) :
  exists ok, probe url w = (Normal ok, snd (probe url w))
             /\ this (snd (probe url w)) = this w
             /\ sent (snd (probe url w)) = url :: sent w.
Proof. rewrite probe_run. eexists. repeat split. Qed.

(** The transformer after a call holds the cache of before with at most
    the entry of the origin replaced, and the same settings. *)
Lemma checkProxyHealth_cache (key : string) (rule : TransformationRule)
    (w : World) :
  exists verdict w',
    check key rule w = (Normal verdict, w')
    /\ cacheTtlMs (this w') = cacheTtlMs (this w)
    /\ timeoutMs (this w') = timeoutMs (this w)
    /\ (healthCache (this w') = healthCache (this w)
        \/ healthCache (this w')
           = <[key := {| healthy := verdict; lastChecked := now w' |}]>
               (healthCache (this w))).
Proof.
  assert (match healthCache (this w) !! key with
          | None => True
          | Some entry => cacheTtlMs (this w) <= now w - lastChecked entry
          end ->
          exists verdict w',
            check key rule w = (Normal verdict, w')
            /\ cacheTtlMs (this w') = cacheTtlMs (this w)
            /\ timeoutMs (this w') = timeoutMs (this w)
            /\ (healthCache (this w') = healthCache (this w)
                \/ healthCache (this w')
                   = <[key := {| healthy := verdict;
                                 lastChecked := now w' |}]>
                       (healthCache (this w)))) as Stale.
  { intros M.
    rewrite (checkProxyHealth_miss newURL requestUrl key rule w M).
    eexists _, _. split; [reflexivity|].
    rewrite !probe_run. cbn [fst snd completed].
    destruct (match outcome _ with Normal _ => _ | Throw _ => _ end);
      cbn [recorded this cacheTtlMs timeoutMs healthCache now];
      repeat split; right; reflexivity. }
  destruct (healthCache (this w) !! key) as [entry|] eqn:L.
  - destruct (Z.lt_ge_cases (now w - lastChecked entry) (cacheTtlMs (this w)))
      as [F|F]; [|exact (Stale F)].
    exists (healthy entry), w.
    rewrite (checkProxyHealth_hit newURL requestUrl _ _ _ _ L F).
    repeat split. left. reflexivity.
  - exact (Stale I).
Qed.

(** X1: an entry that is missing or at least as old as the TTL is not
    used: the call runs one probing round, the test URL first and the bare
    origin only when that failed, records the origin as down exactly
    when both requests failed, and overwrites the entry with the verdict
    stamped with the clock at the end of the round. *)
Theorem checkProxyHealth_refreshes_stale_entry (key : string)
    (rule : TransformationRule) (w : World) :
  match healthCache (this w) !! key with
  | None => True
  | Some entry => cacheTtlMs (this w) <= now w - lastChecked entry
  end ->
  exists test verdict w',
    applyTransformation newURL TEST_URL rule = Normal test
    /\ check key rule w = (Normal verdict, w')
    /\ healthCache (this w') !! key
       = Some {| healthy := verdict; lastChecked := now w' |}
    /\ (verdict = false <->
        fst (probe test w) = Normal false
        /\ fst (probe key (snd (probe test w))) = Normal false)
    /\ (fst (probe test w) = Normal true /\ sent w' = test :: sent w
        \/ fst (probe test w) = Normal false
           /\ sent w' = key :: test :: sent w).
Proof.
  intros M. pose proof (checkProxyHealth_miss newURL requestUrl key rule w M)
    as E. cbv zeta in E.
  exists (completed EmptyString (applyTransformation newURL TEST_URL rule)).
  set (test := completed EmptyString
                 (applyTransformation newURL TEST_URL rule)) in *.
  rewrite E. clear E. eexists _, _.
  split; [apply applyTransformation_returns|]. split; [reflexivity|].
  split; [apply lookup_insert_eq|].
  destruct (probe_returns test w) as (ok1 & P1 & _ & S1).
  destruct (probe_returns key (snd (probe test w))) as (ok2 & P2 & _ & S2).
  rewrite P1 in *. cbn [fst snd completed] in *.
  destruct ok1.
  - split.
    + split; [discriminate | intros [[=] _]].
    + left. split; [reflexivity|]. cbn [recorded sent]. exact S1.
  - rewrite P2. cbn [fst snd completed]. split.
    + split; [intros ->; split; reflexivity | intros [_ [= ->]]; reflexivity].
    + right. split; [reflexivity|]. cbn [recorded sent].
      rewrite S2, S1. reflexivity.
Qed.

(** X2: a call for one origin leaves the entry of every other origin,
    the TTL and the timeout as they were. *)
Theorem checkProxyHealth_touches_one_entry (key other : string)
    (rule : TransformationRule) (w : World) :
  other <> key ->
  let w' := snd (check key rule w) in
  healthCache (this w') !! other = healthCache (this w) !! other
  /\ cacheTtlMs (this w') = cacheTtlMs (this w)
  /\ timeoutMs (this w') = timeoutMs (this w).
Proof.
  intros N. cbv zeta.
  destruct (checkProxyHealth_cache key rule w)
    as (verdict & w' & -> & T & O & [C|C]); cbn [snd]; rewrite C.
  - auto.
  - rewrite lookup_insert_ne by congruence. auto.
Qed.

(** X3: once an origin is cached as down, [transformUrl] answers every
    URL whose matching rule expands to that origin with the proxy-down
    result for as long as the entry is younger than the TTL, and sends no
    request for it: the world is left as it was. *)
Theorem transformUrl_down_proxy_short_circuits (w : World) (url : string)
    (rules : list TransformationRule) (rule : TransformationRule)
    (origin : string) (entry : ProxyHealthEntry) :
  findMatchingRule newURL url rules = Normal (Some rule) ->
  proxyOrigin newURL url rule = Normal origin ->
  healthCache (this w) !! origin = Some entry ->
  healthy entry = false ->
  now w - lastChecked entry < cacheTtlMs (this w) ->
  exists message,
    transformUrl newURL requestUrl url rules w
    = (Normal {| transformedUrl := None;
                 originalUrl := url;
                 appliedRule := Some (name rule);
                 proxyHealthy := false;
                 error := Some message |}, w).
Proof.
  intros M O L H F. unfold transformUrl, bindA, liftC. rewrite M.
  unfold proxyOrigin in O.
  rewrite applyTransformation_returns in *. cbn [bindC completed] in *.
  rewrite O. rewrite (checkProxyHealth_hit newURL requestUrl _ _ _ _ L F).
  rewrite H. cbn [negb]. eexists. reflexivity.
Qed.

End CacheFacts.

Lemma checkProxyHealth_refreshes_stale_entry_witness :
  let w := atTime 400000
             (snd (checkProxyHealth parseSimpleURL (respondAfter 200 10)
                     "https://12ft.io" ladderRule
                     (initialWorld (newUrlTransformer 5 5000) 1000))) in
  exists test verdict w',
    applyTransformation parseSimpleURL TEST_URL ladderRule = Normal test
    /\ checkProxyHealth parseSimpleURL (rejectAfter 10) "https://12ft.io"
         ladderRule w = (Normal verdict, w')
    /\ healthCache (this w') !! "https://12ft.io"
       = Some {| healthy := verdict; lastChecked := now w' |}
    /\ (verdict = false <->
        fst (checkProxyHealthWithTimeout (rejectAfter 10) test w)
        = Normal false
        /\ fst (checkProxyHealthWithTimeout (rejectAfter 10)
                  "https://12ft.io"
                  (snd (checkProxyHealthWithTimeout (rejectAfter 10) test w)))
           = Normal false)
    /\ (fst (checkProxyHealthWithTimeout (rejectAfter 10) test w)
        = Normal true /\ sent w' = (test :: sent w)%list
        \/ fst (checkProxyHealthWithTimeout (rejectAfter 10) test w)
           = Normal false
           /\ sent w' = ("https://12ft.io" :: test :: sent w)%list).
Proof.
  apply (checkProxyHealth_refreshes_stale_entry parseSimpleURL
           (rejectAfter 10) "https://12ft.io" ladderRule).
  vm_compute. discriminate.
Defined.

Lemma checkProxyHealth_touches_one_entry_witness :
  let w := snd (checkProxyHealth parseSimpleURL (respondAfter 200 10)
                  "https://archive.is" ladderRule
                  (initialWorld (newUrlTransformer 5 5000) 1000)) in
  let w' := snd (checkProxyHealth parseSimpleURL (rejectAfter 10)
                   "https://12ft.io" ladderRule w) in
  healthCache (this w') !! "https://archive.is"
  = healthCache (this w) !! "https://archive.is"
  /\ cacheTtlMs (this w') = cacheTtlMs (this w)
  /\ timeoutMs (this w') = timeoutMs (this w).
Proof.
  apply (checkProxyHealth_touches_one_entry parseSimpleURL (rejectAfter 10)
           "https://12ft.io" "https://archive.is" ladderRule).
  discriminate.
Defined.

Lemma transformUrl_down_proxy_short_circuits_witness :
  let w := snd (transformUrl parseSimpleURL (rejectAfter 10)
                  "https://medium.com/p/1" [ladderRule]
                  (initialWorld (newUrlTransformer 5 5000) 1000)) in
  exists message,
    transformUrl parseSimpleURL (respondAfter 200 10)
      "https://example.org/other" [ladderRule] w
    = (Normal {| transformedUrl := None;
                 originalUrl := "https://example.org/other";
                 appliedRule := Some (name ladderRule);
                 proxyHealthy := false;
                 error := Some message |}, w).
Proof.
  apply (transformUrl_down_proxy_short_circuits parseSimpleURL
           (respondAfter 200 10) _ "https://example.org/other" [ladderRule]
           ladderRule "https://12ft.io"
           {| healthy := false; lastChecked := 1020 |});
    vm_compute; reflexivity.
Defined.

(** ** [testAllProxies] *)

Section DiagnosticsFacts.

Variable newURL : string -> Completion URL.
Variable requestUrl : World -> string -> Settled.

Local Open Scope list_scope.

Local Abbreviation check := (checkProxyHealth newURL requestUrl).
Local Abbreviation testFrom := (testAllProxiesFrom newURL requestUrl).

Lemma Map_set_keys (key : string) (value : bool)
    (entries : list (string * bool)) (n : string) :
  In n (map fst (Map_set key value entries))
  <-> n = key \/ In n (map fst entries).
Proof.
  induction entries as [|[k v] rest IH]; simpl.
  - intuition.
  - destruct (String.eqb_spec k key) as [->|N]; simpl; [intuition|].
    rewrite IH. intuition.
Qed.

Lemma Map_set_NoDup (key : string) (value : bool)
    (entries : list (string * bool)) :
  List.NoDup (map fst entries) -> List.NoDup (map fst (Map_set key value entries)).
Proof.
  induction entries as [|[k v] rest IH]; simpl; intros H.
  - constructor; [intros [] | constructor].
  - destruct (String.eqb_spec k key) as [->|N]; simpl; [exact H|].
    inversion H as [|? ? Hk Hr]; subst. constructor; [|exact (IH Hr)].
    rewrite Map_set_keys. intros [E|I]; [congruence | exact (Hk I)].
Qed.

(** The origin of the test URL of a rule, as the loop computes it. *)
Lemma proxyOrigin_returns (url : string) (rule : TransformationRule) :
  proxyOrigin newURL url rule
  = Normal (completed EmptyString
              (extractProxyBaseUrl newURL
                 (completed EmptyString
                    (applyTransformation newURL url rule)))).
Proof.
  unfold proxyOrigin. rewrite applyTransformation_returns at 1.
  cbn [bindC]. apply extractProxyBaseUrl_returns.
Qed.

(** One turn of the loop for an enabled rule. *)
Lemma testAllProxiesFrom_step (rule : TransformationRule)
    (later : list TransformationRule) (results : list (string * bool))
    (w : World) (origin : string) :
  enabled rule = true ->
  proxyOrigin newURL TEST_URL rule = Normal origin ->
  testFrom (rule :: later) results w
  = testFrom later
      (Map_set (name rule)
         (completed false (fst (check origin rule (snd (deleteCache origin w)))))
         results)
      (snd (check origin rule (snd (deleteCache origin w)))).
Proof.
  intros E O. rewrite proxyOrigin_returns in O. injection O as O.
  cbn [testAllProxiesFrom]. rewrite E. cbn [negb].
  unfold bindA at 1, liftC. rewrite applyTransformation_returns.
  unfold bindA at 1. rewrite extractProxyBaseUrl_returns.
  cbn [completed]. rewrite O.
  unfold bindA at 1. unfold deleteCache at 1.
  unfold bindA at 1.
  destruct (checkProxyHealth_post newURL requestUrl origin rule
              (snd (deleteCache origin w))) as (verdict & w' & C & _).
  unfold deleteCache in C at 1. cbn [snd] in C.
  unfold deleteCache. cbn [snd]. rewrite C. reflexivity.
Qed.

Lemma testAllProxiesFrom_skip (rule : TransformationRule)
    (later : list TransformationRule) (results : list (string * bool))
    (w : World) :
  enabled rule = false ->
  testFrom (rule :: later) results w = testFrom later results w.
Proof. intros E. cbn [testAllProxiesFrom]. rewrite E. reflexivity. Qed.

Lemma testAllProxiesFrom_keys (rules : list TransformationRule)
    (results : list (string * bool)) (w : World) :
  exists results' w',
    testFrom rules results w = (Normal results', w')
    /\ (List.NoDup (map fst results) -> List.NoDup (map fst results'))
    /\ forall n,
        In n (map fst results')
        <-> In n (map fst results)
            \/ exists rule, In rule rules /\ enabled rule = true
                            /\ name rule = n.
Proof.
  revert results w. induction rules as [|rule later IH]; intros results w.
  - exists results, w. split; [reflexivity|]. split; [auto|].
    intros n. split; [auto | intros [H|(r & [] & _)]; exact H].
  - destruct (enabled rule) eqn:E.
    + pose (origin := completed EmptyString
                        (extractProxyBaseUrl newURL
                           (completed EmptyString
                              (applyTransformation newURL TEST_URL rule)))).
      rewrite (testAllProxiesFrom_step rule later results w origin E
                 (proxyOrigin_returns TEST_URL rule)).
      destruct (IH (Map_set (name rule)
                      (completed false
                         (fst (check origin rule
                                 (snd (deleteCache origin w)))))
                      results)
                   (snd (check origin rule (snd (deleteCache origin w)))))
        as (results' & w' & R & D & K).
      exists results', w'. split; [exact R|].
      split; [intros H; apply D, Map_set_NoDup, H|].
      intros n. rewrite K, Map_set_keys. split.
      * intros [[->|H]|(r & I & Er & Nr)]; eauto 7 using in_eq, in_cons.
      * intros [H|(r & [<-|I] & Er & Nr)]; eauto 7.
    + rewrite (testAllProxiesFrom_skip rule later results w E).
      destruct (IH results w) as (results' & w' & R & D & K).
      exists results', w'. split; [exact R|]. split; [exact D|].
      intros n. rewrite K. split.
      * intros [H|(r & I & Er & Nr)]; eauto 7 using in_cons.
      * intros [H|(r & [<-|I] & Er & Nr)]; [auto | congruence | eauto 7].
Qed.

(** X4: [testAllProxies] never throws, and the map it returns holds one
    entry for each name of an enabled rule and none for any other name;
    disabled rules are skipped. *)
Theorem testAllProxies_reports_enabled_rules
    (rules : list TransformationRule) (w : World) :
  exists results w',
    testAllProxies newURL requestUrl rules w = (Normal results, w')
    /\ List.NoDup (map fst results)
    /\ forall n,
        In n (map fst results)
        <-> exists rule, In rule rules /\ enabled rule = true
                         /\ name rule = n.
Proof.
  destruct (testAllProxiesFrom_keys rules [] w) as (results & w' & R & D & K).
  exists results, w'. split; [exact R|]. split; [apply D; constructor|].
  intros n. rewrite K. simpl. intuition.
Qed.

(** After the entry of an origin was deleted, the check sends the
    requests of a probing round. *)
Lemma checkProxyHealth_after_delete (origin : string)
    (rule : TransformationRule) (w : World) :
  origin <> "__proto__" ->
  exists k,
    length (sent (snd (check origin rule (snd (deleteCache origin w)))))
    = (length (sent w) + k)%nat
    /\ (1 <= k <= 2)%nat.
Proof.
  intros N. unfold deleteCache. cbn [snd].
  destruct (String.eqb_spec origin "__proto__") as [|_]; [contradiction|].
  match goal with |- context [check origin rule ?w1] =>
    pose proof (checkProxyHealth_miss newURL requestUrl origin rule w1) as M
  end.
  cbn [this healthCache] in M. rewrite lookup_delete_eq in M.
  specialize (M I). cbv zeta in M. rewrite M. clear M.
  rewrite !probe_run. cbn [fst snd completed].
  destruct (match outcome _ with Normal _ => _ | Throw _ => _ end);
    cbn [recorded sent length].
  - exists 1%nat. lia.
  - exists 2%nat. lia.
Qed.

Lemma testAllProxiesFrom_sent (rules : list TransformationRule)
    (results : list (string * bool)) (w : World) :
  (forall rule, In rule rules -> enabled rule = true ->
                proxyOrigin newURL TEST_URL rule <> Normal "__proto__") ->
  exists k,
    length (sent (snd (testFrom rules results w)))
    = (length (sent w) + k)%nat
    /\ (length (List.filter enabled rules) <= k
        <= 2 * length (List.filter enabled rules))%nat.
Proof.
  revert results w. induction rules as [|rule later IH]; intros results w H.
  - exists 0%nat. simpl. lia.
  - assert (forall r, In r later -> enabled r = true ->
                      proxyOrigin newURL TEST_URL r <> Normal "__proto__")
      as H' by (intros r I; apply H; right; exact I).
    cbn [List.filter]. destruct (enabled rule) eqn:E.
    + pose (origin := completed EmptyString
                        (extractProxyBaseUrl newURL
                           (completed EmptyString
                              (applyTransformation newURL TEST_URL rule)))).
      rewrite (testAllProxiesFrom_step rule later results w origin E
                 (proxyOrigin_returns TEST_URL rule)).
      assert (origin <> "__proto__") as N.
      { intros C. apply (H rule (in_eq _ _) E).
        rewrite proxyOrigin_returns. fold origin. rewrite C. reflexivity. }
      destruct (checkProxyHealth_after_delete origin rule w N)
        as (k1 & S1 & B1).
      destruct (IH (Map_set (name rule)
                      (completed false
                         (fst (check origin rule
                                 (snd (deleteCache origin w)))))
                      results)
                   (snd (check origin rule (snd (deleteCache origin w)))) H')
        as (k2 & S2 & B2).
      exists (k1 + k2)%nat. rewrite S2, S1. cbn [length]. lia.
    + rewrite (testAllProxiesFrom_skip rule later results w E).
      exact (IH results w H').
Qed.

(** X5: [testAllProxies] probes afresh for every enabled rule, whatever
    the cache holds: with [n] enabled rules it sends at least [n] and at
    most [2 n] requests.  (A rule whose test URL does not parse and is
    the text [__proto__] is left aside: the entry under that key cannot be
    deleted.) *)
Theorem testAllProxies_probes_every_enabled_rule
    (rules : list TransformationRule) (w : World) :
  (forall rule, In rule rules -> enabled rule = true ->
                proxyOrigin newURL TEST_URL rule <> Normal "__proto__") ->
  exists k,
    length (sent (snd (testAllProxies newURL requestUrl rules w)))
    = (length (sent w) + k)%nat
    /\ (length (List.filter enabled rules) <= k
        <= 2 * length (List.filter enabled rules))%nat.
Proof. apply testAllProxiesFrom_sent. Qed.

End DiagnosticsFacts.

Lemma testAllProxies_probes_every_enabled_rule_witness :
  let rules := ladderRule :: getDefaultTransformationRules in
  let w := snd (checkProxyHealth parseSimpleURL (respondAfter 200 10)
                  "https://12ft.io" ladderRule
                  (initialWorld (newUrlTransformer 5 5000) 1000)) in
  exists k,
    length (sent (snd (testAllProxies parseSimpleURL (respondAfter 200 10)
                         rules w)))
    = (length (sent w) + k)%nat
    /\ (length (List.filter enabled rules) <= k
        <= 2 * length (List.filter enabled rules))%nat.
Proof.
  apply (testAllProxies_probes_every_enabled_rule parseSimpleURL
           (respondAfter 200 10)).
  intros rule [<-|[<-|[<-|[<-|[]]]]] E; vm_compute; discriminate.
Defined.

Example testAllProxies_same_name_last_wins :
  fst (testAllProxies parseSimpleURL
         (fun w url =>
            if JsString.startsWith url "https://12ft.io"
            then respondAfter 200 10 w url else rejectAfter 10 w url)
         [ladderRule;
          {| id := "other"; name := name ladderRule; enabled := true;
             matchers := ["*"]; transformationType := Prefix;
             template := "https://down.example/{url}"; priority := 1 |}]
         (initialWorld (newUrlTransformer 5 5000) 1000))
  = Normal [("12ft Ladder (General Paywall Bypass)", false)].
Proof. vm_compute. reflexivity. Qed.

(** ** URL extraction from the body of a note *)

Section ExtractionFacts.

Local Open Scope nat_scope.

Lemma splitAtFirst_spec (stop : ascii -> bool) (s : string) :
  s = fst (splitAtFirst stop s) ++ snd (splitAtFirst stop s)
  /\ everyChar (fun c => negb (stop c)) (fst (splitAtFirst stop s)) = true
  /\ (snd (splitAtFirst stop s) = EmptyString
      \/ exists c rest, snd (splitAtFirst stop s) = String c rest
                        /\ stop c = true).
Proof.
  induction s as [|c s (E & K & T)]; simpl.
  - auto.
  - destruct (stop c) eqn:S; simpl.
    + repeat split. right. eauto.
    + destruct (splitAtFirst stop s) as [run rest]. simpl in *.
      rewrite S. simpl. split; [congruence | auto].
Qed.

Lemma splitAtFirst_app (stop : ascii -> bool) (run rest : string) :
  everyChar (fun c => negb (stop c)) run = true ->
  (rest = EmptyString
   \/ exists c tail, rest = String c tail /\ stop c = true) ->
  splitAtFirst stop (run ++ rest) = (run, rest).
Proof.
  intros K T. induction run as [|c run IH]; simpl in *.
  - destruct T as [->|(c & tail & -> & S)]; simpl; [reflexivity|].
    now rewrite S.
  - apply andb_prop in K as [Kc K]. apply negb_true_iff in Kc.
    rewrite Kc, (IH K). reflexivity.
Qed.

Lemma firstMatch_unfold (matchAt : string -> option string) (s : string) :
  firstMatch matchAt s
  = match matchAt s with
    | Some found => Some found
    | None =>
        match s with
        | EmptyString => None
        | String _ rest => firstMatch matchAt rest
        end
    end.
Proof. destruct s; reflexivity. Qed.

(** The first match starts at the leftmost position where the pattern
    matches. *)
Lemma firstMatch_Some (matchAt : string -> option string) (s found : string) :
  firstMatch matchAt s = Some found ->
  exists before rest,
    s = before ++ rest /\ matchAt rest = Some found
    /\ forall b r, s = b ++ r -> String.length b < String.length before ->
                   matchAt r = None.
Proof.
  induction s as [|c s IH]; rewrite firstMatch_unfold.
  - destruct (matchAt EmptyString) eqn:M; [|discriminate].
    intros [= ->]. exists EmptyString, EmptyString.
    repeat split; [exact M | simpl; intros; lia].
  - destruct (matchAt (String c s)) eqn:M.
    + intros [= ->]. exists EmptyString, (String c s).
      repeat split; [exact M | simpl; intros; lia].
    + intros H. destruct (IH H) as (before & rest & -> & F & L).
      exists (String c before), rest. repeat split; [exact F|].
      intros [|c' b] r E Hl; simpl in *.
      * now subst r.
      * injection E as _ E. apply (L b r E). lia.
Qed.

Lemma firstMatch_None (matchAt : string -> option string) (s : string) :
  firstMatch matchAt s = None <->
  forall b r, s = b ++ r -> matchAt r = None.
Proof.
  induction s as [|c s IH]; rewrite firstMatch_unfold.
  - split.
    + destruct (matchAt EmptyString) eqn:M; [discriminate|].
      intros _ [|c b] r E; simpl in E; [now subst r | discriminate].
    + intros H. now rewrite (H EmptyString EmptyString eq_refl).
  - split.
    + destruct (matchAt (String c s)) eqn:M; [discriminate|].
      intros H [|c' b] r E; simpl in E; [now subst r|].
      injection E as _ E. exact (proj1 IH H b r E).
    + intros H. rewrite (H EmptyString (String c s) eq_refl).
      apply IH. intros b r E. apply (H (String c b) r). simpl. now rewrite E.
Qed.

Lemma firstMatch_found (matchAt : string -> option string)
    (before rest found : string) :
  matchAt rest = Some found ->
  (forall b r, before ++ rest = b ++ r ->
               String.length b < String.length before -> matchAt r = None) ->
  firstMatch matchAt (before ++ rest) = Some found.
Proof.
  intros M L. destruct (firstMatch matchAt (before ++ rest)) as [x|] eqn:F.
  - destruct (firstMatch_Some _ _ _ F) as (b & r & E & Mr & Lr).
    destruct (Nat.lt_trichotomy (String.length b) (String.length before))
      as [H|[H|H]].
    + rewrite (L b r E H) in Mr. discriminate.
    + destruct (string_app_inj_length _ _ _ _ E (eq_sym H)) as [_ ->].
      congruence.
    + rewrite (Lr before rest eq_refl H) in M. discriminate.
  - rewrite firstMatch_None in F. rewrite (F before rest eq_refl) in M.
    discriminate.
Qed.

Lemma markdownLinkAt_intro (text target after : string) :
  linkParts text target ->
  MetadataLinkParser.markdownLinkAt (markdownLink text target ++ after)
  = Some target.
Proof.
  intros (Nt & Ng & Kt & Kg). unfold markdownLink.
  rewrite !string_app_assoc.
  change ("[" ++ text ++ "](" ++ target ++ ")" ++ after)
    with (String "[" (text ++ "](" ++ target ++ ")" ++ after)).
  unfold MetadataLinkParser.markdownLinkAt.
  change (Ascii.eqb "[" "[") with true. cbv iota.
  rewrite (splitAtFirst_app (fun c => Ascii.eqb c "]") text
             ("](" ++ target ++ ")" ++ after)); [|exact Kt | right; eauto].
  apply String.eqb_neq in Nt. rewrite Nt.
  unfold JsString.startsWith. rewrite prefix_app.
  replace (JsString.substringFrom ("](" ++ target ++ ")" ++ after) 2)
    with (target ++ ")" ++ after)
    by (symmetry; exact (substringFrom_app "](" _)).
  rewrite (splitAtFirst_app (fun c => Ascii.eqb c ")") target
             (")" ++ after)); [|exact Kg | right; eauto].
  apply String.eqb_neq in Ng. rewrite Ng.
  rewrite prefix_app. reflexivity.
Qed.

Lemma markdownLinkAt_elim (s target : string) :
  MetadataLinkParser.markdownLinkAt s = Some target ->
  exists text after,
    s = markdownLink text target ++ after /\ linkParts text target.
Proof.
  unfold MetadataLinkParser.markdownLinkAt.
  destruct s as [|c rest]; [discriminate|].
  destruct (Ascii.eqb_spec c "[") as [->|]; [|discriminate].
  destruct (splitAtFirst_spec (fun c => Ascii.eqb c "]") rest)
    as (E1 & K1 & _).
  destruct (splitAtFirst (fun c => Ascii.eqb c "]") rest)
    as [text afterText]. simpl in E1, K1.
  destruct (String.eqb_spec text EmptyString) as [|N1]; [discriminate|].
  destruct (JsString.startsWith afterText "](") eqn:P; [|discriminate].
  apply prefix_inv in P as [r ->].
  replace (JsString.substringFrom ("](" ++ r) 2) with r
    by (symmetry; exact (substringFrom_app "](" r)).
  destruct (splitAtFirst_spec (fun c => Ascii.eqb c ")") r) as (E2 & K2 & _).
  destruct (splitAtFirst (fun c => Ascii.eqb c ")") r)
    as [target' afterTarget]. simpl in E2, K2.
  destruct (String.eqb_spec target' EmptyString) as [|N2]; [discriminate|].
  destruct (JsString.startsWith afterTarget ")") eqn:Q; [|discriminate].
  apply prefix_inv in Q as [after ->]. intros [= ->].
  exists text, after. split.
  - unfold markdownLink. rewrite !string_app_assoc. simpl.
    rewrite E1, E2. reflexivity.
  - repeat split; assumption.
Qed.

Lemma plainUrlAt_intro (url after : string) :
  plainUrlParts url after ->
  MetadataLinkParser.plainUrlAt (url ++ after) = Some url.
Proof.
  intros (scheme & run & -> & S & N & K & T).
  unfold MetadataLinkParser.plainUrlAt. rewrite string_app_assoc.
  apply String.eqb_neq in N.
  destruct S as [->| ->].
  - change (JsString.startsWith ("https://" ++ run ++ after) "https://")
      with (String.prefix "https://" ("https://" ++ run ++ after)).
    rewrite prefix_app.
    replace (JsString.substringFrom ("https://" ++ run ++ after)
               (String.length "https://")) with (run ++ after)
      by (symmetry; exact (substringFrom_app "https://" _)).
    rewrite (splitAtFirst_app isWhiteSpace run after K T), N. reflexivity.
  - change (JsString.startsWith ("http://" ++ run ++ after) "https://")
      with false.
    change (JsString.startsWith ("http://" ++ run ++ after) "http://")
      with (String.prefix "http://" ("http://" ++ run ++ after)).
    rewrite prefix_app.
    replace (JsString.substringFrom ("http://" ++ run ++ after)
               (String.length "http://")) with (run ++ after)
      by (symmetry; exact (substringFrom_app "http://" _)).
    rewrite (splitAtFirst_app isWhiteSpace run after K T), N. reflexivity.
Qed.

Lemma plainUrlAt_elim (s url : string) :
  MetadataLinkParser.plainUrlAt s = Some url ->
  exists after, s = url ++ after /\ plainUrlParts url after.
Proof.
  unfold MetadataLinkParser.plainUrlAt.
  assert (forall scheme r,
            s = scheme ++ r ->
            (scheme = "https://" \/ scheme = "http://") ->
            (let (run, _) := splitAtFirst isWhiteSpace r in
             if String.eqb run EmptyString then None
             else Some (scheme ++ run)) = Some url ->
            exists after, s = url ++ after /\ plainUrlParts url after) as G.
  { intros scheme r -> S.
    destruct (splitAtFirst_spec isWhiteSpace r) as (E & K & T).
    destruct (splitAtFirst isWhiteSpace r) as [run after]. simpl in E, K, T.
    destruct (String.eqb_spec run EmptyString) as [|N]; [discriminate|].
    intros [= <-]. exists after. split.
    - rewrite string_app_assoc. now rewrite E.
    - exists scheme, run. auto. }
  destruct (JsString.startsWith s "https://") eqn:P1.
  - apply prefix_inv in P1 as [r ->].
    rewrite (substringFrom_app "https://" r). apply G; auto.
  - destruct (JsString.startsWith s "http://") eqn:P2; [|discriminate].
    apply prefix_inv in P2 as [r ->].
    rewrite (substringFrom_app "http://" r). apply G; auto.
Qed.

Lemma truthy_target (text target : string) :
  linkParts text target -> truthy (Some target) = true.
Proof. intros (_ & N & _). apply truthy_Some. exact N. Qed.

(** X6: when the body holds a markdown link, the target of the leftmost
    such link is returned, whatever stands in front of it, be it a plain
    URL; the target is taken as it is written and need not be a URL. *)
Theorem extractUrlFromContent_leftmost_link
    (content before text target after : string) :
  content = before ++ markdownLink text target ++ after ->
  linkParts text target ->
  (forall b t g a,
      content = b ++ markdownLink t g ++ a -> linkParts t g ->
      String.length before <= String.length b) ->
  MetadataLinkParser.extractUrlFromContent content = Some target.
Proof.
  intros -> P L. unfold MetadataLinkParser.extractUrlFromContent.
  rewrite (firstMatch_found MetadataLinkParser.markdownLinkAt before
             (markdownLink text target ++ after) target).
  - cbv zeta. now rewrite (truthy_target _ _ P).
  - now apply markdownLinkAt_intro.
  - intros b r E Hl.
    destruct (MetadataLinkParser.markdownLinkAt r) as [g|] eqn:M;
      [|reflexivity].
    destruct (markdownLinkAt_elim _ _ M) as (t & a & -> & Pg).
    specialize (L b t g a E Pg). lia.
Qed.

(** X7: every result is the target of a markdown link of the body, or,
    when the body holds no markdown link, a text of the body that starts
    with [http://] or [https://] and runs up to the next white space or
    the end; it is never the empty string. *)
Theorem extractUrlFromContent_sound (content url : string) :
  MetadataLinkParser.extractUrlFromContent content = Some url ->
  url <> EmptyString
  /\ ((exists before text after,
         content = before ++ markdownLink text url ++ after
         /\ linkParts text url)
      \/ ((forall b t g a, linkParts t g ->
                           content <> b ++ markdownLink t g ++ a)
          /\ exists before after,
               content = before ++ url ++ after
               /\ plainUrlParts url after)).
Proof.
  unfold MetadataLinkParser.extractUrlFromContent. cbv zeta.
  destruct (firstMatch MetadataLinkParser.markdownLinkAt content)
    as [g|] eqn:M.
  - destruct (firstMatch_Some _ _ _ M) as (before & rest & -> & A & _).
    destruct (markdownLinkAt_elim _ _ A) as (text & after & -> & P).
    rewrite (truthy_target _ _ P). intros [= <-].
    split; [apply P|]. left. eauto.
  - cbn [truthy].
    destruct (firstMatch MetadataLinkParser.plainUrlAt content)
      as [u|] eqn:U; [|discriminate].
    destruct (firstMatch_Some _ _ _ U) as (before & rest & -> & A & _).
    destruct (plainUrlAt_elim _ _ A) as (after & -> & P).
    assert (u <> EmptyString) as N.
    { destruct P as (scheme & run & -> & [->| ->] & _); discriminate. }
    rewrite (truthy_Some _ N). intros [= <-]. split; [exact N|]. right.
    split; [|eauto].
    intros b t g a Pg E. rewrite firstMatch_None in M.
    specialize (M b (markdownLink t g ++ a) E).
    rewrite (markdownLinkAt_intro _ _ _ Pg) in M. discriminate.
Qed.

(** X8: the result is [null] exactly when the body holds neither a
    markdown link nor [http://] or [https://] followed by a character
    that is not white space. *)
Theorem extractUrlFromContent_null (content : string) :
  MetadataLinkParser.extractUrlFromContent content = None
  <-> (forall b t g a, linkParts t g ->
                       content <> b ++ markdownLink t g ++ a)
      /\ (forall b url a, plainUrlParts url a -> content <> b ++ url ++ a).
Proof.
  unfold MetadataLinkParser.extractUrlFromContent. cbv zeta. split.
  - destruct (firstMatch MetadataLinkParser.markdownLinkAt content)
      as [g|] eqn:M.
    + destruct (firstMatch_Some _ _ _ M) as (before & rest & -> & A & _).
      destruct (markdownLinkAt_elim _ _ A) as (text & after & -> & P).
      rewrite (truthy_target _ _ P). discriminate.
    + cbn [truthy].
      destruct (firstMatch MetadataLinkParser.plainUrlAt content)
        as [u|] eqn:U.
      * destruct (firstMatch_Some _ _ _ U) as (before & rest & -> & A & _).
        destruct (plainUrlAt_elim _ _ A) as (after & -> & P).
        assert (u <> EmptyString) as N.
        { destruct P as (scheme & run & -> & [->| ->] & _); discriminate. }
        rewrite (truthy_Some _ N). discriminate.
      * intros _. rewrite firstMatch_None in M, U. split.
        -- intros b t g a Pg E.
           specialize (M b (markdownLink t g ++ a) E).
           rewrite (markdownLinkAt_intro _ _ _ Pg) in M. discriminate.
        -- intros b url a P E. specialize (U b (url ++ a) E).
           rewrite (plainUrlAt_intro _ _ P) in U. discriminate.
  - intros [L P].
    assert (firstMatch MetadataLinkParser.markdownLinkAt content = None)
      as ->.
    { apply firstMatch_None. intros b r ->.
      destruct (MetadataLinkParser.markdownLinkAt r) as [g|] eqn:M;
        [|reflexivity].
      destruct (markdownLinkAt_elim _ _ M) as (t & a & -> & Pg).
      now destruct (L b t g a Pg). }
    assert (firstMatch MetadataLinkParser.plainUrlAt content = None) as ->.
    { apply firstMatch_None. intros b r ->.
      destruct (MetadataLinkParser.plainUrlAt r) as [u|] eqn:M;
        [|reflexivity].
      destruct (plainUrlAt_elim _ _ M) as (a & -> & Pu).
      now destruct (P b u a Pu). }
    reflexivity.
Qed.

End ExtractionFacts.

Lemma extractUrlFromContent_leftmost_link_witness :
  MetadataLinkParser.extractUrlFromContent
    ("at https://a.io: " ++ markdownLink "my notes" "notes/filed.md" ++ ".")
  = Some "notes/filed.md".
Proof.
  apply (extractUrlFromContent_leftmost_link _ "at https://a.io: "
           "my notes" "notes/filed.md" ".").
  - reflexivity.
  - repeat split; discriminate.
  - intros b t g a E P.
    destruct (Nat.le_gt_cases 17 (String.length b)) as [H|H]; [exact H|].
    exfalso.
    assert (MetadataLinkParser.markdownLinkAt (markdownLink t g ++ a)
            = Some g) as M by now apply markdownLinkAt_intro.
    clear P. revert E M. generalize (markdownLink t g ++ a). intros r E M.
    match type of E with
    | ?l = _ => let l' := eval vm_compute in l in change l with l' in E
    end.
    do 17 (destruct b as [|? b];
           [rewrite string_app_nil_l in E; subst r; vm_compute in M;
            discriminate|];
           rewrite string_app_cons in E; injection E as <- E).
    simpl in H. lia.
Defined.

Lemma extractUrlFromContent_sound_witness :
  MetadataLinkParser.extractUrlFromContent
    "Read https://medium.com/p/1 tonight" = Some "https://medium.com/p/1"
  /\ "https://medium.com/p/1" <> EmptyString.
Proof.
  split; [reflexivity|].
  apply (extractUrlFromContent_sound "Read https://medium.com/p/1 tonight").
  reflexivity.
Defined.

(** ** The length of the body and the empty-body arm of the ratio *)

Section BodyLengthFacts.

Local Open Scope nat_scope.

Lemma everyChar_app (keep : ascii -> bool) (a b : string) :
  everyChar keep (a ++ b) = everyChar keep a && everyChar keep b.
Proof.
  induction a as [|c a IH]; simpl; [reflexivity|].
  now rewrite IH, andb_assoc.
Qed.

Lemma trimStart_white (gap s : string) :
  everyChar isWhiteSpace gap = true -> trimStart (gap ++ s) = trimStart s.
Proof.
  induction gap as [|c gap IH]; simpl; [reflexivity|].
  intros H. apply andb_prop in H as [-> H]. exact (IH H).
Qed.

Lemma trimStart_split (s : string) :
  exists gap,
    s = gap ++ trimStart s /\ everyChar isWhiteSpace gap = true
    /\ (trimStart s = EmptyString
        \/ exists c rest, trimStart s = String c rest
                          /\ isWhiteSpace c = false).
Proof.
  induction s as [|c s (gap & E & K & T)]; simpl.
  - exists EmptyString. auto.
  - destruct (isWhiteSpace c) eqn:W.
    + exists (String c gap). simpl. rewrite W, K. split; [congruence | auto].
    + exists EmptyString. repeat split. right. eauto.
Qed.

Lemma trimEnd_cons (c : ascii) (s : string) :
  isWhiteSpace c = false -> trimEnd (String c s) = String c (trimEnd s).
Proof. intros W. simpl. rewrite W. now destruct (trimEnd s). Qed.

Lemma trimEnd_empty (s : string) :
  trimEnd s = EmptyString -> everyChar isWhiteSpace s = true.
Proof.
  induction s as [|c s IH]; simpl; [reflexivity|].
  destruct (trimEnd s); [|discriminate].
  destruct (isWhiteSpace c); [|discriminate].
  intros _. now apply IH.
Qed.

Lemma string_length_zero (s : string) : String.length s = 0 -> s = EmptyString.
Proof. destruct s; [reflexivity | discriminate]. Qed.

(** A string that [trim] empties holds nothing but white space. *)
Lemma trim_empty (s : string) :
  String.length (trim s) = 0 -> everyChar isWhiteSpace s = true.
Proof.
  intros H. apply string_length_zero in H. unfold trim in H.
  apply trimEnd_empty in H.
  destruct (trimStart_split s) as (gap & E & K & [T|(c & rest & T & W)]).
  - rewrite E, T, string_app_nil_r. exact K.
  - rewrite T in H. simpl in H. rewrite W in H. discriminate.
Qed.

Lemma body_after_preamble (tail gap : string) :
  everyChar isWhiteSpace gap = true ->
  3 <= String.length (trim (gap ++ "---" ++ tail)).
Proof.
  intros K. unfold trim. rewrite (trimStart_white _ _ K).
  change ("---" ++ tail) with (String "-" (String "-" (String "-" tail))).
  change (trimStart (String "-" (String "-" (String "-" tail))))
    with (String "-" (String "-" (String "-" tail))).
  rewrite !trimEnd_cons by reflexivity. simpl. lia.
Qed.

Variable getFrontMatterInfo : string -> FrontMatterInfo.

Lemma getBodyContentLength_bound (content : string) :
  fmExists (getFrontMatterInfo content) = true ->
  closingDelimiterFollows getFrontMatterInfo content ->
  3 <= getBodyContentLength getFrontMatterInfo content.
Proof.
  intros X C. destruct (C X) as (head & gap & tail & E & L & K).
  unfold getBodyContentLength. rewrite X, <- L.
  rewrite E at 1. rewrite substringFrom_app.
  now apply body_after_preamble.
Qed.

(** X9: for a note with a preamble the length that the gate takes for
    the body counts from the offset [to] of the preamble, which leaves
    the closing dashes in: the length is at least 3 and never 0. *)
Theorem getBodyContentLength_with_preamble (content : string) :
  fmExists (getFrontMatterInfo content) = true ->
  closingDelimiterFollows getFrontMatterInfo content ->
  3 <= getBodyContentLength getFrontMatterInfo content.
Proof. apply getBodyContentLength_bound. Qed.

Lemma white_has_no_link (s : string) :
  everyChar isWhiteSpace s = true ->
  MetadataLinkParser.extractUrlFromContent s = None.
Proof.
  intros K.
  assert (forall b r, s = b ++ r ->
            r = EmptyString
            \/ exists c rest, r = String c rest /\ isWhiteSpace c = true)
    as Suffix.
  { intros b r ->. rewrite everyChar_app in K.
    apply andb_prop in K as [_ K]. destruct r as [|c rest]; [auto|].
    simpl in K. apply andb_prop in K as [W _]. right. eauto. }
  unfold MetadataLinkParser.extractUrlFromContent.
  assert (firstMatch MetadataLinkParser.markdownLinkAt s = None) as ->.
  { apply firstMatch_None. intros b r E.
    destruct (Suffix b r E) as [->|(c & rest & -> & W)]; [reflexivity|].
    unfold MetadataLinkParser.markdownLinkAt.
    destruct (Ascii.eqb_spec c "[") as [->|]; [discriminate | reflexivity]. }
  assert (firstMatch MetadataLinkParser.plainUrlAt s = None) as ->.
  { apply firstMatch_None. intros b r E.
    destruct (Suffix b r E) as [->|(c & rest & -> & W)]; [reflexivity|].
    assert (forall p, String.prefix (String "h" p) (String c rest) = false)
      as F.
    { intros p. destruct (String.prefix _ _) eqn:P; [|reflexivity].
      apply prefix_inv in P as [r P]. simpl in P.
      injection P as -> _. discriminate. }
    unfold MetadataLinkParser.plainUrlAt, JsString.startsWith.
    now rewrite !F. }
  reflexivity.
Qed.

Variable newURL : string -> Completion URL.
Variable requestUrl : World -> string -> Settled.
Variable yamlArticleProcessed : string -> Completion bool.
Variable getMarkdownContent : string -> Completion (option string).
Variable parseYaml : string -> Completion (option (string -> option string)).
Variable updateFrontmatterWithProxyInfo :
  string -> string -> string -> string -> gmap string string ->
  gmap string string.
Variable markFileAsProcessed :
  string -> gmap string string -> gmap string string.
Variable numberDivide : nat -> nat -> Q.

(** X10: a note whose body has length 0 holds no URL, neither in a
    preamble nor in its text, so the method returns [false] for it before
    any transformation, fetch or write: the arm of the ratio for an
    empty body is never evaluated. *)
Theorem autoProcessFileIfLonger_empty_body (file content : string)
    (ratio : Q) (pw : ParserWorld) :
  vault pw !! file = Some content ->
  closingDelimiterFollows getFrontMatterInfo content ->
  getBodyContentLength getFrontMatterInfo content = 0 ->
  pickedUrl (extractUrlFromFrontmatter getFrontMatterInfo parseYaml)
    MetadataLinkParser.extractUrlFromContent content = None
  /\ autoProcessFileIfLonger newURL requestUrl getFrontMatterInfo
       yamlArticleProcessed getMarkdownContent
       (extractUrlFromFrontmatter getFrontMatterInfo parseYaml)
       MetadataLinkParser.extractUrlFromContent
       updateFrontmatterWithProxyInfo markFileAsProcessed numberDivide
       file ratio pw
     = (Normal false, pw).
Proof.
  intros V C Z.
  assert (fmExists (getFrontMatterInfo content) = false) as X.
  { destruct (fmExists (getFrontMatterInfo content)) eqn:X; [|reflexivity].
    pose proof (getBodyContentLength_bound content X C). lia. }
  assert (pickedUrl (extractUrlFromFrontmatter getFrontMatterInfo parseYaml)
            MetadataLinkParser.extractUrlFromContent content = None) as P.
  { unfold pickedUrl, extractUrlFromFrontmatter. rewrite X. cbn [negb truthy].
    apply white_has_no_link, trim_empty.
    unfold getBodyContentLength in Z. rewrite X in Z. exact Z. }
  split; [exact P|].
  destruct (isFileProcessed_pure getFrontMatterInfo yamlArticleProcessed
              file pw) as [b E].
  unfold autoProcessFileIfLonger, tryCatchA. unfold bindA at 1. rewrite E.
  destruct b; [reflexivity|].
  unfold bindA at 1, vaultRead. rewrite V, P. reflexivity.
Qed.

End BodyLengthFacts.


Lemma getBodyContentLength_with_preamble_witness :
  (3 <= getBodyContentLength noteFrontMatterInfo processedNote)%nat.
Proof.
  apply (getBodyContentLength_with_preamble noteFrontMatterInfo processedNote).
  - reflexivity.
  - intros _.
    exists ("---" ++ newline ++ "article_processed: true" ++ newline),
      EmptyString, (newline ++ "Some notes.").
    repeat split.
Defined.

Lemma autoProcessFileIfLonger_empty_body_witness :
  pickedUrl (extractUrlFromFrontmatter noteFrontMatterInfo
               (fun _ => Normal None))
    MetadataLinkParser.extractUrlFromContent blankNote = None
  /\ autoProcessFileIfLonger parseSimpleURL (respondAfter 200 10)
       noteFrontMatterInfo noteArticleProcessed
       (fun _ => Normal (Some "A long article."))
       (extractUrlFromFrontmatter noteFrontMatterInfo (fun _ => Normal None))
       MetadataLinkParser.extractUrlFromContent
       (fun _ _ _ _ documents => documents) markClipping
       exactDivide "Clippings/blank.md" 2 blankWorld
     = (Normal false, blankWorld).
Proof.
  apply (autoProcessFileIfLonger_empty_body noteFrontMatterInfo
           parseSimpleURL (respondAfter 200 10) noteArticleProcessed
           (fun _ => Normal (Some "A long article."))
           (fun _ => Normal None)
           (fun _ _ _ _ documents => documents) markClipping
           exactDivide "Clippings/blank.md" blankNote 2 blankWorld).
  - vm_compute. reflexivity.
  - intros X. vm_compute in X. discriminate.
  - vm_compute. reflexivity.
Defined.


(** ** The configuration manager *)

Section ConfigFacts.

Import TransformationConfigManager.

Local Open Scope list_scope.

Lemma findIndex_absent {A : Type} (p : A -> bool) (l : list A) :
  (forall x, In x l -> p x = false) -> findIndex p l = -1.
Proof.
  induction l as [|x l IH]; intros H; simpl; [reflexivity|].
  rewrite (H x) by now left.
  rewrite IH by (intros y Hy; apply H; now right). reflexivity.
Qed.

Lemma findIndex_first {A : Type} (p : A -> bool) (before after : list A)
    (x : A) :
  (forall y, In y before -> p y = false) -> p x = true ->
  findIndex p (before ++ x :: after) = Z.of_nat (length before).
Proof.
  intros H Hx. induction before as [|y before IH]; simpl.
  - now rewrite Hx.
  - rewrite (H y) by now left.
    rewrite IH by (intros z Hz; apply H; now right).
    destruct (Z.eqb_spec (Z.of_nat (length before)) (-1)); lia.
Qed.

Lemma filter_keeps_others (ruleId : string) (l : list TransformationRule) :
  ~ In ruleId (map id l) ->
  List.filter (fun r => negb (String.eqb (id r) ruleId)) l = l.
Proof.
  induction l as [|r l IH]; simpl; intros N; [reflexivity|].
  destruct (String.eqb_spec (id r) ruleId) as [E|_]; [tauto|].
  simpl. f_equal. apply IH. tauto.
Qed.

Lemma default_ids_merged (loaded : list TransformationRule)
    (dr : TransformationRule) :
  In dr getDefaultTransformationRules ->
  In (id dr)
    (map id
       (loaded
        ++ List.filter
             (fun r =>
                negb (bool_decide
                        (id r ∈ (list_to_set (map id loaded) : gset string))))
             getDefaultTransformationRules)).
Proof.
  intros D. rewrite map_app, in_app_iff.
  destruct (bool_decide (id dr ∈ (list_to_set (map id loaded) : gset string)))
    eqn:B.
  - left. apply bool_decide_eq_true in B.
    apply elem_of_list_to_set in B. now apply list_elem_of_In.
  - right. apply in_map, filter_In. split; [exact D|]. now rewrite B.
Qed.

Lemma merged_rules (loadedConfig : LoadedConfig)
    (loaded : list TransformationRule) :
  loadedRules loadedConfig = Some loaded ->
  exists merged,
    mergeWithDefaults loadedConfig = Normal merged
    /\ rules merged
       = loaded
         ++ List.filter
              (fun r =>
                 negb (bool_decide
                         (id r ∈ (list_to_set (map id loaded)
                                   : gset string))))
              getDefaultTransformationRules.
Proof.
  intros L. unfold mergeWithDefaults. rewrite L. eexists. split; reflexivity.
Qed.

(** X11: merging keeps the stored rules, in their order and as they are,
    in front; what it adds are default rules whose identifiers the file
    does not use; and the result has a rule for every default
    identifier. *)
Theorem mergeWithDefaults_completes_defaults (loadedConfig : LoadedConfig)
    (loaded : list TransformationRule) :
  loadedRules loadedConfig = Some loaded ->
  exists merged added,
    mergeWithDefaults loadedConfig = Normal merged
    /\ rules merged = loaded ++ added
    /\ (forall r, In r added ->
          In r getDefaultTransformationRules
          /\ ~ In (id r) (map id loaded))
    /\ (forall dr, In dr getDefaultTransformationRules ->
          In (id dr) (map id (rules merged))).
Proof.
  intros L. destruct (merged_rules _ _ L) as (merged & M & R).
  exists merged. eexists. split; [exact M|]. split; [exact R|]. split.
  - intros r Hr. apply filter_In in Hr as [D B]. split; [exact D|].
    intros I. apply negb_true_iff, bool_decide_eq_false in B. apply B.
    apply elem_of_list_to_set. now apply list_elem_of_In.
  - intros dr D. rewrite R. now apply default_ids_merged.
Qed.

(** X12: when no two stored rules share an identifier, no two rules of
    the merged configuration do. *)
Theorem mergeWithDefaults_distinct_ids (loadedConfig : LoadedConfig)
    (loaded : list TransformationRule) :
  loadedRules loadedConfig = Some loaded ->
  List.NoDup (map id loaded) ->
  exists merged,
    mergeWithDefaults loadedConfig = Normal merged
    /\ List.NoDup (map id (rules merged)).
Proof.
  intros L N. destruct (merged_rules _ _ L) as (merged & M & R).
  exists merged. split; [exact M|]. rewrite R, map_app.
  set (S := (list_to_set (map id loaded) : gset string)).
  assert (forall x, x ∈ S <-> In x (map id loaded)) as HS.
  { intros x. unfold S. rewrite elem_of_list_to_set. apply list_elem_of_In. }
  clearbody S.
  assert (forall l, List.NoDup (map id l) ->
            List.NoDup
              (map id loaded
               ++ map id
                    (List.filter
                       (fun r => negb (bool_decide (id r ∈ S))) l))) as G.
  { induction l as [|r l IH]; intros Nl; simpl.
    - now rewrite app_nil_r.
    - inversion Nl as [|? ? Hr Nl']; subst.
      destruct (bool_decide (id r ∈ S)) eqn:B; simpl; [now apply IH|].
      apply NoDup_Add with (a := id r) (l := map id loaded ++ map id
        (List.filter (fun r => negb (bool_decide (id r ∈ S))) l)).
      + apply Add_app.
      + split; [now apply IH|].
        rewrite in_app_iff. intros [I|I].
        * apply bool_decide_eq_false in B. apply B, HS, I.
        * apply Hr. apply in_map_iff in I as (r' & E & I).
          apply filter_In in I as [I _]. rewrite <- E. now apply in_map. }
  apply G. vm_compute.
  repeat (constructor; [simpl; intuition discriminate|]). constructor.
Qed.

(** X13: merging is idempotent: a configuration that merging produced,
    read back with every field present, merges to itself. *)
Theorem mergeWithDefaults_idempotent (loadedConfig : LoadedConfig)
    (merged : TransformationConfig) :
  mergeWithDefaults loadedConfig = Normal merged ->
  mergeWithDefaults (asLoaded merged) = Normal merged.
Proof.
  intros M. unfold mergeWithDefaults in M.
  destruct (loadedRules loadedConfig) as [loaded|] eqn:L; [|discriminate].
  injection M as <-.
  unfold mergeWithDefaults, asLoaded. cbn [loadedRules rules].
  f_equal.
  match goal with
  | |- {| rules := ?l ++ List.filter ?f ?d; proxyHealthCacheTtlMinutes := _;
          proxyHealthTimeoutMs := _; autoProcessing := _ |} = _ =>
      assert (List.filter f d = []) as ->
  end.
  { match goal with
    | |- List.filter ?f ?d = [] =>
        assert (forall x, In x d -> f x = false) as F
    end.
    { intros dr D. apply negb_false_iff, bool_decide_eq_true.
      apply elem_of_list_to_set, list_elem_of_In.
      now apply default_ids_merged. }
    revert F. generalize getDefaultTransformationRules.
    induction l as [|x l IH]; intros F; simpl; [reflexivity|].
    rewrite (F x) by now left. apply IH. intros y Hy. apply F. now right. }
  rewrite app_nil_r. reflexivity.
Qed.

End ConfigFacts.


Section ManagerFacts.

Import TransformationConfigManager.

Local Open Scope list_scope.

Variable Vault : Type.
Variable getAbstractFileByPath : Vault -> string -> bool.
Variable vaultRead : Vault -> string -> Completion string.
Variable vaultModify : Vault -> string -> string -> Completion unit * Vault.
Variable vaultCreate : Vault -> string -> string -> Completion unit * Vault.
Variable JSON_parse : string -> Completion LoadedConfig.
Variable JSON_stringify : TransformationConfig -> string.

Local Abbreviation saveConfig :=
  (saveConfig Vault getAbstractFileByPath vaultModify vaultCreate
     JSON_stringify).
Local Abbreviation loadConfig :=
  (loadConfig Vault getAbstractFileByPath vaultRead vaultModify vaultCreate
     JSON_parse JSON_stringify).
Local Abbreviation addRule :=
  (addRule Vault getAbstractFileByPath vaultModify vaultCreate
     JSON_stringify).
Local Abbreviation updateRule :=
  (updateRule Vault getAbstractFileByPath vaultModify vaultCreate
     JSON_stringify).
Local Abbreviation deleteRule :=
  (deleteRule Vault getAbstractFileByPath vaultModify vaultCreate
     JSON_stringify).
Local Abbreviation toggleRule :=
  (toggleRule Vault getAbstractFileByPath vaultModify vaultCreate
     JSON_stringify).
Local Abbreviation reorderRules :=
  (reorderRules Vault getAbstractFileByPath vaultModify vaultCreate
     JSON_stringify).

(** The two ends of [saveConfig]: it returns with the configuration in
    memory, or it rethrows what the vault threw and leaves the memory as
    it was. *)
Lemma saveConfig_cases (configuration : TransformationConfig)
    (w : Manager Vault) :
  (exists files,
     saveConfig configuration w
     = (Returned tt, {| vault := files; config := Some configuration |}))
  \/ (exists error files,
        saveConfig configuration w
        = (Raised (HostError error),
           {| vault := files; config := config w |})).
Proof.
  unfold TransformationConfigManager.saveConfig.
  destruct (if getAbstractFileByPath (vault w) CONFIG_FILE_PATH
            then vaultModify (vault w) CONFIG_FILE_PATH
                   (JSON_stringify configuration)
            else vaultCreate (vault w) CONFIG_FILE_PATH
                   (JSON_stringify configuration)) as [[[]|error] files].
  - left. eauto.
  - right. eauto.
Qed.

(** An editing method changes the object in memory before it writes:
    the change is there whatever the write does. *)
Lemma edit_in_memory (changed : TransformationConfig) (w : Manager Vault) :
  config (snd (bindT (assign changed) (fun _ => saveConfig changed) w))
  = Some changed.
Proof.
  unfold bindT, assign.
  destruct (saveConfig_cases changed
              {| vault := vault w; config := Some changed |})
    as [(files & ->)|(error & files & ->)]; reflexivity.
Qed.

Lemma loadConfig_cases (w : Manager Vault) :
  exists configuration files,
    loadConfig w
    = (Returned configuration,
       {| vault := files; config := Some configuration |})
    /\ (configuration = getDefaultConfig
        \/ exists loadedConfig,
             mergeWithDefaults loadedConfig = Normal configuration)
    /\ (getAbstractFileByPath (vault w) CONFIG_FILE_PATH = true ->
        files = vault w).
Proof.
  unfold TransformationConfigManager.loadConfig, tryCatchT.
  destruct (getAbstractFileByPath (vault w) CONFIG_FILE_PATH) eqn:F;
    cbn [negb].
  - unfold bindT at 1, hostT at 1.
    destruct (vaultRead (vault w) CONFIG_FILE_PATH) as [content|e].
    2:{ exists getDefaultConfig, (vault w). repeat split. now left. }
    unfold bindT at 1, hostT at 1.
    destruct (JSON_parse content) as [loadedConfig|e].
    2:{ exists getDefaultConfig, (vault w). repeat split. now left. }
    unfold bindT at 1, hostT at 1.
    destruct (mergeWithDefaults loadedConfig) as [merged|e] eqn:M.
    2:{ exists getDefaultConfig, (vault w). repeat split. now left. }
    exists merged, (vault w). repeat split. right. eauto.
  - unfold bindT at 1.
    destruct (saveConfig_cases getDefaultConfig w)
      as [(files & ->)|(error & files & ->)];
      exists getDefaultConfig, files;
      (split; [reflexivity | split; [now left | discriminate]]).
Qed.

(** X14: [loadConfig] never throws, whatever the vault and the parser
    do; it leaves the configuration that it returns in memory, so that
    [getConfig] returns it from then on; and that configuration has a
    rule for every default identifier. *)
Theorem loadConfig_always_loads (w : Manager Vault) :
  exists configuration w',
    loadConfig w = (Returned configuration, w')
    /\ getConfig Vault w' = (Returned configuration, w')
    /\ forall dr, In dr getDefaultTransformationRules ->
         In (id dr) (map id (rules configuration)).
Proof.
  destruct (loadConfig_cases w) as (c & files & E & [->|[lc M]] & _).
  - eexists _, _. split; [exact E|]. split; [reflexivity|].
    intros dr D. now apply in_map.
  - eexists _, _. split; [exact E|]. split; [reflexivity|].
    unfold mergeWithDefaults in M.
    destruct (loadedRules lc) as [loaded|]; [|discriminate].
    injection M as <-. intros dr D. now apply default_ids_merged.
Qed.

(** X15: when the configuration file exists, [loadConfig] writes
    nothing: the vault is as it was, also when the file cannot be read or
    parsed (the defaults then live in memory only) and when merging
    added default rules. *)
Theorem loadConfig_keeps_existing_file (w : Manager Vault) :
  getAbstractFileByPath (vault w) CONFIG_FILE_PATH = true ->
  vault (snd (loadConfig w)) = vault w.
Proof.
  intros F. destruct (loadConfig_cases w) as (c & files & -> & _ & V).
  exact (V F).
Qed.

(** X16: [addRule] appends the rule to the configuration in memory
    before it writes; the rule is there afterwards whether the write
    succeeded or threw. *)
Theorem addRule_in_memory (rule : TransformationRule)
    (current : TransformationConfig) (w : Manager Vault) :
  config w = Some current ->
  config (snd (addRule rule w))
  = Some (withRules (rules current ++ [rule]) current).
Proof.
  intros C. unfold TransformationConfigManager.addRule.
  unfold bindT at 1, getConfig. rewrite C. apply edit_in_memory.
Qed.

Lemma updateRule_absent (ruleId : string) (updates : RuleUpdates)
    (current : TransformationConfig) (w : Manager Vault) :
  config w = Some current ->
  ~ In ruleId (map id (rules current)) ->
  updateRule ruleId updates w
  = (Raised (ErrorObject ("Rule with id " ++ ruleId ++ " not found")%string),
     w).
Proof.
  intros C N. unfold TransformationConfigManager.updateRule.
  unfold bindT at 1, getConfig. rewrite C.
  rewrite findIndex_absent; [reflexivity|].
  intros r Hr. apply String.eqb_neq. intros E. apply N.
  rewrite <- E. now apply in_map.
Qed.

(** X17: [updateRule] for an identifier that no rule has throws
    [Rule with id ... not found], and changes neither the memory nor
    the vault. *)
Theorem updateRule_unknown_id (ruleId : string) (updates : RuleUpdates)
    (current : TransformationConfig) (w : Manager Vault) :
  config w = Some current ->
  ~ In ruleId (map id (rules current)) ->
  updateRule ruleId updates w
  = (Raised (ErrorObject ("Rule with id " ++ ruleId ++ " not found")%string),
     w).
Proof. apply updateRule_absent. Qed.

(** X18: [toggleRule] switches the first rule that has the identifier,
    and nothing else: the rules before and after it, and its other
    fields, are as they were. *)
Theorem toggleRule_first_match (ruleId : string) (value : bool)
    (current : TransformationConfig)
    (before after : list TransformationRule) (rule : TransformationRule)
    (w : Manager Vault) :
  config w = Some current ->
  rules current = before ++ rule :: after ->
  ~ In ruleId (map id before) ->
  id rule = ruleId ->
  config (snd (toggleRule ruleId value w))
  = Some (withRules
            (before
             ++ {| id := id rule; name := name rule; enabled := value;
                   matchers := matchers rule;
                   transformationType := transformationType rule;
                   template := template rule;
                   priority := priority rule |} :: after)
            current).
Proof.
  intros C R N I.
  unfold TransformationConfigManager.toggleRule,
    TransformationConfigManager.updateRule.
  unfold bindT at 1, getConfig. rewrite C, R.
  rewrite findIndex_first.
  - destruct (Z.eqb_spec (Z.of_nat (length before)) (-1)); [lia|].
    rewrite Nat2Z.id.
    rewrite list_lookup_middle by reflexivity.
    rewrite edit_in_memory. do 2 f_equal.
    rewrite <- (Nat.add_0_r (length before)), insert_app_r. reflexivity.
  - intros r Hr. apply String.eqb_neq. intros E. apply N.
    rewrite <- E. now apply in_map.
  - now apply String.eqb_eq.
Qed.

Lemma deleteRule_memory (ruleId : string) (current : TransformationConfig)
    (w : Manager Vault) :
  config w = Some current ->
  config (snd (deleteRule ruleId w))
  = Some (withRules
            (List.filter (fun r => negb (String.eqb (id r) ruleId))
               (rules current))
            current).
Proof.
  intros C. unfold TransformationConfigManager.deleteRule.
  unfold bindT at 1, getConfig. rewrite C. apply edit_in_memory.
Qed.

(** X19: after [deleteRule] no rule has the identifier, whether the
    write succeeded or not: an [updateRule] for it that follows throws
    [Rule with id ... not found]. *)
Theorem deleteRule_then_updateRule (ruleId : string) (updates : RuleUpdates)
    (current : TransformationConfig) (w : Manager Vault) :
  config w = Some current ->
  updateRule ruleId updates (snd (deleteRule ruleId w))
  = (Raised (ErrorObject ("Rule with id " ++ ruleId ++ " not found")%string),
     snd (deleteRule ruleId w)).
Proof.
  intros C. eapply updateRule_absent.
  - exact (deleteRule_memory ruleId current w C).
  - cbn [withRules rules]. intros I.
    apply in_map_iff in I as (r & E & I).
    apply filter_In in I as [_ B].
    apply negb_true_iff, String.eqb_neq in B. contradiction.
Qed.

(** X20: [deleteRule] for an identifier that no rule has does not throw
    as [updateRule] does: it writes the configuration as it is and ends
    as that write ends. *)
Theorem deleteRule_unknown_id (ruleId : string)
    (current : TransformationConfig) (w : Manager Vault) :
  config w = Some current ->
  ~ In ruleId (map id (rules current)) ->
  deleteRule ruleId w = saveConfig current w.
Proof.
  intros C N. unfold TransformationConfigManager.deleteRule.
  unfold bindT at 1, getConfig. rewrite C.
  rewrite (filter_keeps_others ruleId (rules current) N).
  assert (withRules (rules current) current = current) as ->
    by now destruct current.
  unfold bindT, assign, TransformationConfigManager.saveConfig.
  cbn [vault config]. rewrite C. destruct w as [files memory].
  reflexivity.
Qed.

End ManagerFacts.


Section ReorderFacts.

Import TransformationConfigManager.

Local Open Scope list_scope.

Lemma newMap_other {V : Type} (entries : list (string * V))
    (m : gmap string V) (k : string) :
  ~ In k (map fst entries) ->
  fold_left (fun m entry => <[fst entry := snd entry]> m) entries m !! k
  = m !! k.
Proof.
  revert m. induction entries as [|[k' v'] entries IH]; intros m N; simpl.
  - reflexivity.
  - simpl in N. rewrite IH by tauto. apply lookup_insert_ne. tauto.
Qed.

Lemma newMap_found {V : Type} (entries : list (string * V))
    (m : gmap string V) (k : string) (v : V) :
  List.NoDup (map fst entries) -> In (k, v) entries ->
  fold_left (fun m entry => <[fst entry := snd entry]> m) entries m !! k
  = Some v.
Proof.
  revert m. induction entries as [|[k' v'] entries IH]; intros m N I; simpl.
  - destruct I.
  - inversion N as [|? ? Hk N']; subst. destruct I as [E|I].
    + injection E as -> ->. rewrite newMap_other by exact Hk.
      apply lookup_insert_eq.
    + now apply IH.
Qed.

(** With identifiers that are all different, the map built from the
    rules finds each rule under its identifier and nothing else. *)
Lemma ruleMap_lookup (rs : list TransformationRule) (x : string)
    (r : TransformationRule) :
  List.NoDup (map id rs) ->
  newMap (map (fun r => (id r, r)) rs) !! x = Some r
  <-> In r rs /\ id r = x.
Proof.
  intros N.
  assert (map fst (map (fun r => (id r, r)) rs) = map id rs) as F
    by (rewrite map_map; reflexivity).
  split.
  - intros L. destruct (in_dec string_dec x (map id rs)) as [I|I].
    + apply in_map_iff in I as (r' & E & I). subst x.
      unfold newMap in L. rewrite (newMap_found _ _ (id r') r') in L.
      * injection L as <-. auto.
      * now rewrite F.
      * apply in_map_iff. eauto.
    + unfold newMap in L. rewrite newMap_other in L by now rewrite F.
      rewrite lookup_empty in L. discriminate.
  - intros [I <-]. apply newMap_found; [now rewrite F|].
    apply in_map_iff. eauto.
Qed.

Lemma Array_includes_In (l : list string) (x : string) :
  Array_includes l x = true <-> In x l.
Proof.
  unfold Array_includes. rewrite existsb_exists. split.
  - intros (y & I & E). apply String.eqb_eq in E. now subst.
  - intros I. exists x. split; [exact I | apply String.eqb_refl].
Qed.

Lemma In_omap {A B : Type} (g : A -> option B) (l : list A) (y : B) :
  In y (omap g l) <-> exists x, In x l /\ g x = Some y.
Proof.
  rewrite <- list_elem_of_In, list_elem_of_omap.
  split; intros (x & I & E); exists x; split; auto;
    now apply list_elem_of_In.
Qed.

Lemma reordered_NoDup (g : string -> option TransformationRule)
    (ruleIds : list string) :
  (forall x r, g x = Some r -> id r = x) ->
  List.NoDup ruleIds -> List.NoDup (omap g ruleIds).
Proof.
  intros G N. induction N as [|x l Hx N IH]; simpl; [constructor|].
  destruct (g x) as [r|] eqn:E; [|exact IH].
  change (List.NoDup (r :: omap g l)).
  constructor; [|exact IH].
  intros I. apply In_omap in I as (x' & I & E').
  apply G in E, E'. congruence.
Qed.

Lemma reordered_ids (g : string -> option TransformationRule)
    (ruleIds : list string) :
  (forall x, In x ruleIds -> exists r, g x = Some r /\ id r = x) ->
  map id (omap g ruleIds) = ruleIds.
Proof.
  induction ruleIds as [|x l IH]; intros G; [reflexivity|].
  destruct (G x (or_introl eq_refl)) as (r & E & I).
  change (omap g (x :: l))
    with (match g x with Some y => y :: omap g l | None => omap g l end).
  rewrite E. simpl. rewrite I. f_equal.
  apply IH. intros y Hy. apply G. now right.
Qed.

Lemma filter_none {A : Type} (f : A -> bool) (l : list A) :
  (forall x, In x l -> f x = false) -> List.filter f l = [].
Proof.
  induction l as [|x l IH]; intros F; simpl; [reflexivity|].
  rewrite (F x) by now left. apply IH. intros y Hy. apply F. now right.
Qed.

Variable Vault : Type.
Variable getAbstractFileByPath : Vault -> string -> bool.
Variable vaultModify : Vault -> string -> string -> Completion unit * Vault.
Variable vaultCreate : Vault -> string -> string -> Completion unit * Vault.
Variable JSON_stringify : TransformationConfig -> string.

Local Abbreviation reorderRules :=
  (reorderRules Vault getAbstractFileByPath vaultModify vaultCreate
     JSON_stringify).

Lemma reorderRules_memory (ruleIds : list string)
    (current : TransformationConfig) (w : Manager Vault) :
  config w = Some current ->
  config (snd (reorderRules ruleIds w))
  = Some (withRules
            (omap (fun ruleId =>
                     newMap (map (fun r => (id r, r)) (rules current))
                     !! ruleId) ruleIds
             ++ List.filter
                  (fun r => negb (Array_includes ruleIds (id r)))
                  (rules current))
            current).
Proof.
  intros C. unfold TransformationConfigManager.reorderRules.
  unfold bindT at 1, getConfig. rewrite C.
  apply (edit_in_memory Vault getAbstractFileByPath vaultModify vaultCreate
           JSON_stringify).
Qed.

(** X21: when the identifiers of the rules are all different and the
    list of identifiers names none twice, [reorderRules] rearranges the
    rules: none is lost and none is doubled, also for identifiers that
    the list leaves out or that no rule has. *)
Theorem reorderRules_permutes (ruleIds : list string)
    (current : TransformationConfig) (w : Manager Vault) :
  config w = Some current ->
  List.NoDup (map id (rules current)) ->
  List.NoDup ruleIds ->
  exists reordered,
    config (snd (reorderRules ruleIds w))
    = Some (withRules reordered current)
    /\ Permutation reordered (rules current).
Proof.
  intros C N D. eexists. split; [exact (reorderRules_memory _ _ _ C)|].
  set (rs := rules current) in *.
  set (g := fun ruleId => newMap (map (fun r => (id r, r)) rs) !! ruleId).
  assert (forall x r, g x = Some r <-> In r rs /\ id r = x) as G
    by (intros x r; apply ruleMap_lookup, N).
  apply Stdlib.Sorting.Permutation.NoDup_Permutation.
  - apply List.NoDup_app.
    + apply reordered_NoDup; [|exact D]. intros x r E. now apply G.
    + apply List.NoDup_filter. exact (List.NoDup_map_inv _ _ N).
    + intros r I M. apply In_omap in I as (x & I & E).
      apply G in E as [_ <-]. apply filter_In in M as [_ M].
      apply negb_true_iff in M.
      apply Array_includes_In in I. congruence.
  - exact (List.NoDup_map_inv _ _ N).
  - intros r. rewrite in_app_iff, In_omap, filter_In. split.
    + intros [(x & _ & E)|[I _]]; [now apply G in E | exact I].
    + intros I. destruct (Array_includes ruleIds (id r)) eqn:B.
      * left. exists (id r). split; [now apply Array_includes_In|].
        now apply G.
      * right. auto.
Qed.

(** X22: when the list names exactly the identifiers of the rules, the
    rules come out in the order of the list. *)
Theorem reorderRules_follows_list (ruleIds : list string)
    (current : TransformationConfig) (w : Manager Vault) :
  config w = Some current ->
  List.NoDup (map id (rules current)) ->
  (forall x, In x ruleIds <-> In x (map id (rules current))) ->
  exists reordered,
    config (snd (reorderRules ruleIds w))
    = Some (withRules reordered current)
    /\ map id reordered = ruleIds.
Proof.
  intros C N S. eexists. split; [exact (reorderRules_memory _ _ _ C)|].
  rewrite filter_none, app_nil_r.
  - apply reordered_ids. intros x I. apply S, in_map_iff in I as (r & E & I).
    exists r. split; [|exact E]. now apply ruleMap_lookup.
  - intros r I. apply negb_false_iff, Array_includes_In, S.
    now apply in_map.
Qed.

End ReorderFacts.


Section ManagerRuns.

Import TransformationConfigManager.

Local Open Scope list_scope.

Lemma mergeWithDefaults_completes_defaults_witness :
  exists merged added,
    mergeWithDefaults storedFile = Normal merged
    /\ rules merged = [ladderRule] ++ added
    /\ (forall r, In r added ->
          In r getDefaultTransformationRules
          /\ ~ In (id r) (map id [ladderRule]))
    /\ (forall dr, In dr getDefaultTransformationRules ->
          In (id dr) (map id (rules merged))).
Proof.
  apply (mergeWithDefaults_completes_defaults storedFile [ladderRule]).
  reflexivity.
Defined.

Lemma mergeWithDefaults_distinct_ids_witness :
  exists merged,
    mergeWithDefaults storedFile = Normal merged
    /\ List.NoDup (map id (rules merged)).
Proof.
  apply (mergeWithDefaults_distinct_ids storedFile [ladderRule]).
  - reflexivity.
  - simpl. constructor; [simpl; tauto | constructor].
Defined.

Lemma mergeWithDefaults_idempotent_witness :
  mergeWithDefaults
    (asLoaded (withRules (ladderRule
                          :: firstn 1 getDefaultTransformationRules
                          ++ skipn 2 getDefaultTransformationRules)
                 getDefaultConfig))
  = Normal (withRules (ladderRule
                       :: firstn 1 getDefaultTransformationRules
                       ++ skipn 2 getDefaultTransformationRules)
              getDefaultConfig).
Proof.
  apply (mergeWithDefaults_idempotent storedFile).
  vm_compute. reflexivity.
Defined.

Lemma loadConfig_keeps_existing_file_witness :
  vault (snd (loadConfig SimpleVault simpleExists simpleRead simpleWrite
                simpleWrite rejectText identifiersOf (loadedManager true)))
  = vault (loadedManager true).
Proof.
  apply (loadConfig_keeps_existing_file SimpleVault simpleExists simpleRead
           simpleWrite simpleWrite rejectText identifiersOf
           (loadedManager true)).
  reflexivity.
Defined.

Lemma addRule_in_memory_witness :
  config (snd (addRule SimpleVault simpleExists simpleWrite simpleWrite
                 identifiersOf ladderRule (loadedManager false)))
  = Some (withRules (getDefaultTransformationRules ++ [ladderRule])
            getDefaultConfig).
Proof.
  apply (addRule_in_memory SimpleVault simpleExists simpleWrite simpleWrite
           identifiersOf ladderRule getDefaultConfig (loadedManager false)).
  reflexivity.
Defined.

Lemma updateRule_unknown_id_witness :
  updateRule SimpleVault simpleExists simpleWrite simpleWrite identifiersOf
    "scholar" (onlyEnabled true) (loadedManager true)
  = (Raised (ErrorObject "Rule with id scholar not found"),
     loadedManager true).
Proof.
  apply (updateRule_unknown_id SimpleVault simpleExists simpleWrite
           simpleWrite identifiersOf "scholar" (onlyEnabled true)
           getDefaultConfig (loadedManager true)).
  - reflexivity.
  - simpl. intuition discriminate.
Defined.

Lemma toggleRule_first_match_witness :
  config (snd (toggleRule SimpleVault simpleExists simpleWrite simpleWrite
                 identifiersOf "12ft-ladder" true (loadedManager false)))
  = Some (withRules
            (firstn 1 getDefaultTransformationRules
             ++ ladderRule :: skipn 2 getDefaultTransformationRules)
            getDefaultConfig).
Proof.
  apply (toggleRule_first_match SimpleVault simpleExists simpleWrite
           simpleWrite identifiersOf "12ft-ladder" true getDefaultConfig
           (firstn 1 getDefaultTransformationRules)
           (skipn 2 getDefaultTransformationRules)
           (nth 1 getDefaultTransformationRules ladderRule)
           (loadedManager false)).
  - reflexivity.
  - reflexivity.
  - simpl. intuition discriminate.
  - reflexivity.
Defined.

Lemma deleteRule_then_updateRule_witness :
  updateRule SimpleVault simpleExists simpleWrite simpleWrite identifiersOf
    "12ft-ladder" (onlyEnabled true)
    (snd (deleteRule SimpleVault simpleExists simpleWrite simpleWrite
            identifiersOf "12ft-ladder" (loadedManager true)))
  = (Raised (ErrorObject "Rule with id 12ft-ladder not found"),
     snd (deleteRule SimpleVault simpleExists simpleWrite simpleWrite
            identifiersOf "12ft-ladder" (loadedManager true))).
Proof.
  apply (deleteRule_then_updateRule SimpleVault simpleExists simpleWrite
           simpleWrite identifiersOf "12ft-ladder" (onlyEnabled true)
           getDefaultConfig (loadedManager true)).
  reflexivity.
Defined.

Lemma deleteRule_unknown_id_witness :
  deleteRule SimpleVault simpleExists simpleWrite simpleWrite identifiersOf
    "scholar" (loadedManager true)
  = saveConfig SimpleVault simpleExists simpleWrite simpleWrite
      identifiersOf getDefaultConfig (loadedManager true).
Proof.
  apply (deleteRule_unknown_id SimpleVault simpleExists simpleWrite
           simpleWrite identifiersOf "scholar" getDefaultConfig
           (loadedManager true)).
  - reflexivity.
  - simpl. intuition discriminate.
Defined.

Lemma reorderRules_permutes_witness :
  exists reordered,
    config (snd (reorderRules SimpleVault simpleExists simpleWrite
                   simpleWrite identifiersOf
                   ["archive-today"; "scholar"; "freedium-medium"]
                   (loadedManager true)))
    = Some (withRules reordered getDefaultConfig)
    /\ Permutation reordered getDefaultTransformationRules.
Proof.
  apply (reorderRules_permutes
           SimpleVault simpleExists simpleWrite simpleWrite identifiersOf
           ["archive-today"; "scholar"; "freedium-medium"]
           getDefaultConfig (loadedManager true)).
  - reflexivity.
  - simpl. repeat (constructor; [simpl; intuition discriminate|]).
    constructor.
  - repeat (constructor; [simpl; intuition discriminate|]). constructor.
Defined.

Lemma reorderRules_follows_list_witness :
  exists reordered,
    config (snd (reorderRules SimpleVault simpleExists simpleWrite
                   simpleWrite identifiersOf
                   ["archive-today"; "freedium-medium"; "12ft-ladder"]
                   (loadedManager true)))
    = Some (withRules reordered getDefaultConfig)
    /\ map id reordered
       = ["archive-today"; "freedium-medium"; "12ft-ladder"].
Proof.
  apply (reorderRules_follows_list
           SimpleVault simpleExists simpleWrite simpleWrite identifiersOf
           ["archive-today"; "freedium-medium"; "12ft-ladder"]
           getDefaultConfig (loadedManager true)).
  - reflexivity.
  - simpl. repeat (constructor; [simpl; intuition discriminate|]).
    constructor.
  - intros x. simpl. tauto.
Defined.

(** A failed write: [addRule] rethrows what the vault threw, the file
    is as it was, and the rule is in memory all the same. *)
Example addRule_failed_write :
  addRule SimpleVault simpleExists simpleWrite simpleWrite identifiersOf
    ladderRule (loadedManager false)
  = (Raised (HostError (RequestError "EACCES")),
     {| vault := vault (loadedManager false);
        config :=
          Some (withRules (getDefaultTransformationRules ++ [ladderRule])
                  getDefaultConfig) |}).
Proof. vm_compute. reflexivity. Qed.

(** An identifier that the list names twice doubles its rule, and of
    two rules that share an identifier the earlier one is lost. *)
Example reorderRules_doubles_listed_twice :
  option_map (fun configuration => map id (rules configuration))
    (config (snd (reorderRules SimpleVault simpleExists simpleWrite
                    simpleWrite identifiersOf
                    ["12ft-ladder"; "12ft-ladder"] (loadedManager true))))
  = Some ["12ft-ladder"; "12ft-ladder"; "freedium-medium"; "archive-today"].
Proof. vm_compute. reflexivity. Qed.

Example reorderRules_loses_shared_identifier :
  option_map (fun configuration => map enabled (rules configuration))
    (config (snd (reorderRules SimpleVault simpleExists simpleWrite
                    simpleWrite identifiersOf ["12ft-ladder"]
                    {| vault := vault (loadedManager true);
                       config :=
                         Some (withRules
                                 [nth 1 getDefaultTransformationRules
                                    ladderRule; ladderRule]
                                 getDefaultConfig) |})))
  = Some [true].
Proof. vm_compute. reflexivity. Qed.

End ManagerRuns.


(** ** Commands of the parser *)

Section CommandFacts.

Variable newURL : string -> Completion URL.
Variable requestUrl : World -> string -> Settled.
Variable getFrontMatterInfo : string -> FrontMatterInfo.
Variable yamlArticleProcessed : string -> Completion bool.
Variable getMarkdownContent : string -> Completion (option string).
Variable extractUrlFromFrontmatter : string -> option string.
Variable extractUrlFromContent : string -> option string.
Variable updateFrontmatterWithProxyInfo :
  string -> string -> string -> string -> gmap string string ->
  gmap string string.
Variable markFileAsProcessed :
  string -> gmap string string -> gmap string string.
Variable numberDivide : nat -> nat -> Q.
Variable getMarkdownFiles : gmap string string -> list string.

Local Abbreviation isProcessed :=
  (isFileProcessed getFrontMatterInfo yamlArticleProcessed).
Local Abbreviation autoProcess :=
  (autoProcessFileIfLonger newURL requestUrl getFrontMatterInfo
     yamlArticleProcessed getMarkdownContent extractUrlFromFrontmatter
     extractUrlFromContent updateFrontmatterWithProxyInfo
     markFileAsProcessed numberDivide).
Local Abbreviation autoFiles :=
  (autoProcessFiles newURL requestUrl getFrontMatterInfo
     yamlArticleProcessed getMarkdownContent extractUrlFromFrontmatter
     extractUrlFromContent updateFrontmatterWithProxyInfo
     markFileAsProcessed numberDivide).
Local Abbreviation autoFolder :=
  (autoProcessFolder newURL requestUrl getFrontMatterInfo
     yamlArticleProcessed getMarkdownContent extractUrlFromFrontmatter
     extractUrlFromContent updateFrontmatterWithProxyInfo
     markFileAsProcessed numberDivide getMarkdownFiles).
Local Abbreviation appendTo :=
  (processFileAndAppend newURL requestUrl getFrontMatterInfo
     yamlArticleProcessed getMarkdownContent extractUrlFromFrontmatter
     extractUrlFromContent updateFrontmatterWithProxyInfo
     markFileAsProcessed).

Local Open Scope nat_scope.




(** X24: a pass over a folder in which every file carries the marker
    counts every file as skipped and leaves the vault, the cache, the
    clock and the log of requests as they were. *)
Theorem autoProcessFolder_all_processed (folderPath : string) (ratio : Q)
    (pw : ParserWorld) :
  (forall file,
     In file (getMarkdownFiles (vault pw)) ->
     JsString.startsWith file folderPath = true ->
     fst (isProcessed file pw) = Normal true) ->
  autoFolder folderPath ratio pw
  = (Normal (0, length (List.filter
                          (fun file => JsString.startsWith file folderPath)
                          (getMarkdownFiles (vault pw)))), pw).
Proof.
  intros P. unfold autoProcessFolder.
  assert (forall files processed skipped,
            (forall file, In file files ->
                          fst (isProcessed file pw) = Normal true) ->
            autoFiles files ratio processed skipped pw
            = (Normal (processed, skipped + length files), pw)) as G.
  { induction files as [|file rest IH]; intros processed skipped A.
    - simpl. now rewrite Nat.add_0_r.
    - cbn [autoProcessFiles]. unfold bindA at 1.
      rewrite (autoProcessFileIfLonger_processed newURL requestUrl
                 getFrontMatterInfo yamlArticleProcessed getMarkdownContent
                 extractUrlFromFrontmatter extractUrlFromContent
                 updateFrontmatterWithProxyInfo markFileAsProcessed
                 numberDivide file ratio pw (A file (or_introl eq_refl))).
      rewrite IH by (intros f I; apply A; now right).
      simpl. do 3 f_equal. lia. }
  apply G. intros file I. apply filter_In in I as [I S]. now apply P.
Qed.

(** The manual command ([checkProcessed] false) does the same whatever
    the marker test and the marker writer are. *)
Lemma processFileAndAppend_manual_ignores_marker (file : string)
    (pw : ParserWorld)
    (otherFrontMatterInfo : string -> FrontMatterInfo)
    (otherArticleProcessed : string -> Completion bool)
    (otherMark : string -> gmap string string -> gmap string string) :
  appendTo file false pw
  = processFileAndAppend newURL requestUrl otherFrontMatterInfo
      otherArticleProcessed getMarkdownContent extractUrlFromFrontmatter
      extractUrlFromContent updateFrontmatterWithProxyInfo otherMark
      file false pw.
Proof. reflexivity. Qed.

(** X25: the manual command ([checkProcessed] false) appends whenever
    the note holds a URL and its content is fetched: it does not consult
    the marker (a note already marked gets the article once more),
    applies no ratio test, and does not set the marker. *)
Theorem processFileAndAppend_manual_appends (file : string)
    (pw pw1 : ParserWorld) (content url proxied markdown current : string)
    (result : IfNeeded.Result) :
  vault pw !! file = Some content ->
  pickedUrl extractUrlFromFrontmatter extractUrlFromContent content
  = Some url ->
  url <> EmptyString ->
  transformUrlIfNeeded newURL requestUrl url pw = (Normal result, pw1) ->
  IfNeeded.url result = Some proxied -> proxied <> EmptyString ->
  getMarkdownContent proxied = Normal (Some markdown) ->
  markdown <> EmptyString ->
  let updated :=
    match IfNeeded.appliedRule result with
    | Some rule =>
        if truthy (Some rule)
        then updateFrontmatterWithProxyInfo file
               (IfNeeded.originalUrl result) proxied rule (vault pw1)
        else vault pw1
    | None => vault pw1
    end in
  updated !! file = Some current ->
  appendTo file false pw
  = (Normal tt,
     setVault (<[file := (current ++ separator ++ markdown)%string]> updated)
       pw1).
Proof.
  intros V U Un T X Xn G Gn updated C.
  unfold processFileAndAppend, tryCatchA. unfold bindA at 1, retA at 1.
  unfold bindA at 1, vaultRead. rewrite V.
  rewrite U, (truthy_Some _ Un). cbn [negb].
  unfold bindA at 1. rewrite T, X, (truthy_Some _ Xn). cbn [negb].
  unfold bindA at 1, liftC. rewrite G, (truthy_Some _ Gn). cbn [negb].
  subst updated. unfold bindA, vaultAppend, retA, setVault.
  destruct (IfNeeded.appliedRule result) as [rule|];
    [destruct (truthy (Some rule))|]; cbn [vault] in *; rewrite C;
    reflexivity.
Qed.



(** X27: a parser that [createParser] has just built probes again: the
    first health check for any origin sends the request for the
    expanded test URL, whatever an earlier parser recorded for that
    origin and however recently. *)
Theorem createParser_probes_again
    (config : TransformationConfigManager.TransformationConfig)
    (pw : ParserWorld) (key : string) (rule : TransformationRule) :
  let test := completed EmptyString
                (applyTransformation newURL TEST_URL rule) in
  let w' := snd (checkProxyHealth newURL requestUrl key rule
                   (engine (setTransformationConfig config pw))) in
  sent w' = (test :: sent (engine pw))%list
  \/ sent w' = (key :: test :: sent (engine pw))%list.
Proof.
  cbv zeta.
  pose proof (checkProxyHealth_miss newURL requestUrl key rule
                (engine (setTransformationConfig config pw))) as M.
  cbv zeta in M. rewrite M by (cbn; rewrite lookup_empty; exact I).
  cbn [snd recorded sent].
  rewrite !probe_run. cbn [fst snd completed sent].
  destruct (match outcome _ with Normal _ => _ | Throw _ => _ end);
    [left | right]; reflexivity.
Qed.

End CommandFacts.


(** ** The timer of the plugin *)

Section TimerFacts.

Import TransformationConfigManager.
Import MetadataLinkParserPlugin.

Local Open Scope list_scope.

Variable Vault : Type.
Variable getAbstractFileByPath : Vault -> string -> bool.
Variable vaultRead : Vault -> string -> Completion string.
Variable vaultModify : Vault -> string -> string -> Completion unit * Vault.
Variable vaultCreate : Vault -> string -> string -> Completion unit * Vault.
Variable JSON_parse : string -> Completion LoadedConfig.
Variable JSON_stringify : TransformationConfig -> string.

Local Abbreviation store :=
  (storeAutoProcessing Vault getAbstractFileByPath vaultModify vaultCreate
     JSON_stringify).
Local Abbreviation handleEvent :=
  (handle Vault getAbstractFileByPath vaultModify vaultCreate
     JSON_stringify).
Local Abbreviation run :=
  (session Vault getAbstractFileByPath vaultModify vaultCreate
     JSON_stringify).
Local Abbreviation load :=
  (onload Vault getAbstractFileByPath vaultRead vaultModify vaultCreate
     JSON_parse JSON_stringify).

Lemma sameTimers_refl (p : Plugin Vault) : sameTimers p p.
Proof. repeat split. Qed.

Lemma sameTimers_trans (p p1 p2 : Plugin Vault) :
  sameTimers p p1 -> sameTimers p1 p2 -> sameTimers p p2.
Proof.
  unfold sameTimers. intros (T & I & N) (T' & I' & N').
  repeat split; congruence.
Qed.

Lemma sameTimers_tracked (p p' : Plugin Vault) :
  sameTimers p p' -> timerTracked p -> timerTracked p'.
Proof.
  unfold sameTimers, timerTracked. intros (-> & -> & _) H. exact H.
Qed.

Lemma onManager_same {A : Type} (task : Task Vault A) (p : Plugin Vault) :
  sameTimers p (snd (onManager task p)).
Proof.
  unfold onManager. destruct (task (configManager p)). repeat split.
Qed.

Lemma bindP_same {A B : Type} (m : PluginTask Vault A)
    (k : A -> PluginTask Vault B) :
  (forall p, sameTimers p (snd (m p))) ->
  (forall a p, sameTimers p (snd (k a p))) ->
  forall p, sameTimers p (snd (bindP m k p)).
Proof.
  intros M K p. unfold bindP. specialize (M p).
  destruct (m p) as [[a|e] p1]; cbn [snd] in *; [|exact M].
  exact (sameTimers_trans _ _ _ M (K a p1)).
Qed.

Lemma storeAutoProcessing_same
    (change : AutoProcessingConfig -> AutoProcessingConfig)
    (p : Plugin Vault) :
  sameTimers p (snd (store change p)).
Proof.
  unfold storeAutoProcessing.
  apply bindP_same; [intros; apply onManager_same|].
  intros configuration q.
  apply bindP_same; intros; apply onManager_same.
Qed.

Lemma startAutoProcessing_tracked (p : Plugin Vault) :
  timers p = [] -> autoProcessingIntervalId p = None ->
  timerTracked (snd (startAutoProcessing Vault p)).
Proof.
  intros T I. unfold startAutoProcessing, bindP.
  pose proof (onManager_same (getConfig Vault) p) as (T1 & I1 & _).
  destruct (onManager (getConfig Vault) p) as [[configuration|e] p1];
    cbn [snd] in *.
  - destruct (negb (autoEnabled (autoProcessing configuration))
              || negb (truthy (Some (folderPath
                                       (autoProcessing configuration))))).
    + unfold timerTracked. cbn [snd]. rewrite I1, I, T1. exact T.
    + unfold timerTracked. cbn. rewrite T1, T. eauto.
  - unfold timerTracked. rewrite I1, I, T1. exact T.
Qed.

Lemma stopAutoProcessing_clears (p : Plugin Vault) :
  timerTracked p ->
  timers (stopAutoProcessing Vault p) = []
  /\ autoProcessingIntervalId (stopAutoProcessing Vault p) = None
  /\ configManager (stopAutoProcessing Vault p) = configManager p
  /\ nextTimer (stopAutoProcessing Vault p) = nextTimer p.
Proof.
  unfold timerTracked, stopAutoProcessing.
  destruct (autoProcessingIntervalId p) as [id|] eqn:I.
  - intros [intervalMs T]. cbn. rewrite T. cbn. rewrite Nat.eqb_refl.
    repeat split.
  - intros T. rewrite I. repeat split. exact T.
Qed.

Lemma restartAutoProcessing_tracked (p : Plugin Vault) :
  timerTracked p -> timerTracked (snd (restartAutoProcessing Vault p)).
Proof.
  intros H. destruct (stopAutoProcessing_clears p H) as (T & I & _).
  unfold restartAutoProcessing. now apply startAutoProcessing_tracked.
Qed.

Lemma handle_tracked (event : SettingsEvent) (p : Plugin Vault) :
  timerTracked p -> timerTracked (snd (handleEvent event p)).
Proof.
  intros H.
  assert (forall change,
            timerTracked
              (snd (bindP (store change)
                      (fun _ => restartAutoProcessing Vault) p))) as R.
  { intros change. unfold bindP.
    pose proof (storeAutoProcessing_same change p) as S.
    destruct (store change p) as [[[]|e] p1]; cbn [snd] in *.
    - apply restartAutoProcessing_tracked.
      exact (sameTimers_tracked _ _ S H).
    - exact (sameTimers_tracked _ _ S H). }
  destruct event as [value|value|value|value]; cbn [handle].
  - apply R.
  - exact (sameTimers_tracked _ _ (storeAutoProcessing_same _ p) H).
  - apply R.
  - exact (sameTimers_tracked _ _ (storeAutoProcessing_same _ p) H).
Qed.

Lemma session_tracked (events : list SettingsEvent) (p : Plugin Vault) :
  timerTracked p -> timerTracked (run events p).
Proof.
  revert p. induction events as [|event rest IH]; intros p H; [exact H|].
  cbn [session]. apply IH, handle_tracked, H.
Qed.

Lemma onload_tracked (files : Vault) :
  timerTracked (snd (load (newPlugin files))).
Proof.
  unfold onload, bindP.
  pose proof (onManager_same
                (loadConfig Vault getAbstractFileByPath vaultRead vaultModify
                   vaultCreate JSON_parse JSON_stringify)
                (newPlugin files)) as (T & I & _).
  destruct (onManager _ (newPlugin files)) as [[configuration|e] p1];
    cbn [snd] in *.
  - now apply startAutoProcessing_tracked.
  - unfold timerTracked. now rewrite I, T.
Qed.

(** X28: from [onload] on and through any sequence of changes made in
    the settings tab, whether their writes succeed or throw, at most one
    timer is alive and it is the one whose identifier the plugin holds;
    [onunload] then leaves no timer alive. *)
Theorem timer_tracked_always (files : Vault) (events : list SettingsEvent) :
  let p := run events (snd (load (newPlugin files))) in
  timerTracked p
  /\ (length (timers p) <= 1)%nat
  /\ timers (onunload Vault p) = [].
Proof.
  cbv zeta.
  pose proof (session_tracked events _ (onload_tracked files)) as H.
  split; [exact H|]. split.
  - unfold timerTracked in H.
    destruct (autoProcessingIntervalId _); [destruct H as [ms ->]|rewrite H];
      simpl; lia.
  - exact (proj1 (stopAutoProcessing_clears _ H)).
Qed.

(** X29: after [restartAutoProcessing] a timer is alive exactly when
    auto-processing is enabled and the folder path is not empty, and its
    interval is the frequency of the configuration in memory, in
    milliseconds. *)
Theorem restartAutoProcessing_timer (p : Plugin Vault)
    (configuration : TransformationConfig) :
  config (configManager p) = Some configuration ->
  timerTracked p ->
  let auto := autoProcessing configuration in
  timers (snd (restartAutoProcessing Vault p))
  = if autoEnabled auto && truthy (Some (folderPath auto))
    then [(nextTimer p, frequencyMinutes auto * 60 * 1000)]
    else [].
Proof.
  intros C H. cbv zeta.
  destruct (stopAutoProcessing_clears p H) as (T & I & M & N).
  unfold restartAutoProcessing, startAutoProcessing, bindP, onManager,
    getConfig.
  rewrite M, C.
  destruct (autoEnabled (autoProcessing configuration));
    destruct (truthy (Some (folderPath (autoProcessing configuration))));
    cbn; rewrite ?T, ?N; reflexivity.
Qed.

(** X30: a change of the folder path or of the ratio is stored and
    nothing more: no timer is started, stopped or replaced by it,
    whatever the new value is. *)
Theorem folderPath_and_ratio_keep_timer (p : Plugin Vault)
    (folder : string) (ratio : Q) :
  sameTimers p (snd (handleEvent (FolderPathChanged folder) p))
  /\ sameTimers p (snd (handleEvent (RatioChanged ratio) p)).
Proof. split; apply storeAutoProcessing_same. Qed.

End TimerFacts.


Lemma autoProcessFolder_all_processed_witness :
  autoProcessFolder parseSimpleURL (respondAfter 200 10)
    noteFrontMatterInfo noteArticleProcessed
    (fun _ => Normal (Some "A long article."))
    (fun _ => None) (fun _ => Some "https://medium.com/p/1")
    (fun _ _ _ _ documents => documents) markClipping exactDivide
    (fun _ => ["Clippings/note.md"; "Inbox/other.md"])
    "Clippings" 2 noteWorld
  = (Normal (0%nat, 1%nat), noteWorld).
Proof.
  apply (autoProcessFolder_all_processed parseSimpleURL (respondAfter 200 10)
           noteFrontMatterInfo noteArticleProcessed
           (fun _ => Normal (Some "A long article."))
           (fun _ => None) (fun _ => Some "https://medium.com/p/1")
           (fun _ _ _ _ documents => documents) markClipping exactDivide
           (fun _ => ["Clippings/note.md"; "Inbox/other.md"])
           "Clippings" 2 noteWorld).
  intros file I S. destruct I as [<-|[<-|[]]].
  - vm_compute. reflexivity.
  - discriminate S.
Defined.

Lemma processFileAndAppend_manual_appends_witness :
  processFileAndAppend parseSimpleURL (respondAfter 200 10)
    noteFrontMatterInfo noteArticleProcessed
    (fun _ => Normal (Some "A long article."))
    (fun _ => None) (fun _ => Some "https://medium.com/p/1")
    (fun _ _ _ _ documents => documents) markClipping
    "Clippings/note.md" false noteWorld
  = (Normal tt,
     setVault
       (<["Clippings/note.md"
          := processedNote ++ separator ++ "A long article."]>
          (vault noteWorld))
       noteWorld).
Proof.
  apply (processFileAndAppend_manual_appends parseSimpleURL
           (respondAfter 200 10) noteFrontMatterInfo noteArticleProcessed
           (fun _ => Normal (Some "A long article."))
           (fun _ => None) (fun _ => Some "https://medium.com/p/1")
           (fun _ _ _ _ documents => documents) markClipping
           "Clippings/note.md" noteWorld noteWorld processedNote
           "https://medium.com/p/1" "https://medium.com/p/1"
           "A long article." processedNote
           {| IfNeeded.url := Some "https://medium.com/p/1";
              IfNeeded.originalUrl := "https://medium.com/p/1";
              IfNeeded.appliedRule := None;
              IfNeeded.error := None |}).
  - vm_compute. reflexivity.
  - reflexivity.
  - discriminate.
  - vm_compute. reflexivity.
  - reflexivity.
  - discriminate.
  - reflexivity.
  - discriminate.
  - vm_compute. reflexivity.
Defined.


Section TimerRuns.

Import TransformationConfigManager.
Import MetadataLinkParserPlugin.

Lemma restartAutoProcessing_timer_witness :
  timers (snd (restartAutoProcessing SimpleVault watchingPlugin))
  = [(2%nat, 1800000)].
Proof.
  apply (restartAutoProcessing_timer SimpleVault watchingPlugin
           (withAutoProcessing
              {| autoEnabled := true; folderPath := "Inbox";
                 frequencyMinutes := 30; minContentLengthRatio := 2 |}
              getDefaultConfig)).
  - reflexivity.
  - exists 3600000. reflexivity.
Defined.

(** The order of two changes matters: the folder entered after the
    switch starts no timer, the folder entered before it does. *)
Example folder_after_switch_starts_no_timer :
  timers
    (session SimpleVault simpleExists simpleWrite simpleWrite identifiersOf
       [EnabledChanged true; FolderPathChanged "Inbox"]
       (snd (onload SimpleVault simpleExists simpleRead simpleWrite
               simpleWrite rejectText identifiersOf (newPlugin emptyVault))))
  = []
  /\ timers
       (session SimpleVault simpleExists simpleWrite simpleWrite
          identifiersOf [FolderPathChanged "Inbox"; EnabledChanged true]
          (snd (onload SimpleVault simpleExists simpleRead simpleWrite
                  simpleWrite rejectText identifiersOf
                  (newPlugin emptyVault))))
     = [(1%nat, 3600000)].
Proof. split; vm_compute; reflexivity. Qed.

End TimerRuns.
